(** * StorageCompressAI: the Fastify gateway and its helpers

    A shallow embedding of the JavaScript sources of the API gateway
    ([utils.js], [config.js], [services/compression.js],
    [services/supabase.js], [routes/compression.js], [middleware.js],
    [server.js]) and the properties of the compression boundary checked
    against them.

    Conventions of the embedding:
    - JavaScript numbers are [NaN] or integers that a double holds exactly
      (magnitude at most 2^53, printed in plain decimal); fractions, signed
      zero, infinities and the rounding of larger numerals are outside the
      embedding, and statements about numerals carry that bound;
    - strings are sequences of 8-bit code units, white space is the ASCII
      part of [StrWhiteSpaceChar];
    - objects are plain data, as [JSON.parse] builds them, without own
      [toString] or [valueOf] properties;
    - everything outside the process (the compression service reached by
      [fetch], Supabase storage, the clock, the random source) is a field of
      a [World]; the handlers run in a small monad that threads the trace of
      calls made to it and propagates thrown errors;
    - the handlers are embedded as functions of the objects Fastify hands
      them, and [Server] builds those objects from the request the way
      [server.js] sets the framework up: the multipart plugin with its
      [fileSize] limit and without [attachFieldsToBody], and the body schema
      of a route applied before its handler. *)

From Stdlib Require Import ZArith List String Ascii Bool Lia.
From Stdlib Require Import DecimalString.
From Stdlib.Init Require Import Byte.
From Stdlib.Strings Require Byte.
From Stdlib Require DecimalPos.
Import ListNotations.

Local Open Scope string_scope.
Local Open Scope Z_scope.

(** ** JavaScript values *)

Module Js.

Inductive Num : Type :=
| NaN
| Int (z : Z).

#[warnings="-register-all"]
Inductive Val : Type :=
| Undefined
| Null
| Bool (b : bool)
| Number (n : Num)
| Str (s : string)
| Buffer (b : list byte)
| Arr (items : list Val)
| Obj (fields : list (string * Val)).

(** An [Error] object with the own properties the code reads;
    [newError msg] is [new Error(msg)]. *)
Record Error : Type := mkError {
  message : string;
  validation : Val;
  statusCode : option Z;
  details : Val;
  code : Val
}.

Definition newError (msg : string) : Error :=
  mkError msg Undefined None Undefined Undefined.

Definition isNaN (n : Num) : bool :=
  match n with NaN => true | Int _ => false end.

(** [a < b] and [a > b] on numbers: any comparison with [NaN] is false. *)
Definition lt (a b : Num) : bool :=
  match a, b with Int x, Int y => x <? y | _, _ => false end.

Definition gt (a b : Num) : bool := lt b a.

(** ToBoolean. *)
Definition truthy (v : Val) : bool :=
  match v with
  | Undefined | Null => false
  | Bool b => b
  | Number NaN => false
  | Number (Int z) => negb (z =? 0)
  | Str s => negb (String.eqb s "")
  | Buffer _ | Arr _ | Obj _ => true
  end.

(** The decimal form of an integer, which is how JavaScript prints a
    number of magnitude below 10^21. *)
Definition string_of_Z (z : Z) : string :=
  NilZero.string_of_int (Z.to_int z).

Definition string_of_Num (n : Num) : string :=
  match n with NaN => "NaN" | Int z => string_of_Z z end.

(** ToString, and [v.toString()] where [v] is neither undefined nor null;
    an array joins its items with commas, undefined and null items being
    empty; an object is plain data (see the conventions) and prints as
    [[object Object]]; the bytes of a buffer are taken one code unit each. *)
Fixpoint ToString (v : Val) : string :=
  match v with
  | Undefined => "undefined"
  | Null => "null"
  | Bool true => "true"
  | Bool false => "false"
  | Number n => string_of_Num n
  | Str s => s
  | Buffer b => string_of_list_byte b
  | Arr items =>
      String.concat ","
        (map (fun x =>
                match x with
                | Undefined | Null => ""
                | _ => ToString x
                end) items)
  | Obj _ => "[object Object]"
  end.

(** *** Objects: ordered property lists *)

Fixpoint get (k : string) (o : list (string * Val)) : Val :=
  match o with
  | [] => Undefined
  | (k', v) :: r => if String.eqb k k' then v else get k r
  end.

Fixpoint has (k : string) (o : list (string * Val)) : bool :=
  match o with
  | [] => false
  | (k', _) :: r => String.eqb k k' || has k r
  end.

Fixpoint replace (k : string) (v : Val) (o : list (string * Val))
  : list (string * Val) :=
  match o with
  | [] => []
  | (k', v') :: r =>
      if String.eqb k k' then (k', v) :: r else (k', v') :: replace k v r
  end.

(** [o[k] = v]: an existing key keeps its place. *)
Definition set (k : string) (v : Val) (o : list (string * Val))
  : list (string * Val) :=
  if has k o then replace k v o else o ++ [(k, v)].

(** The properties [{ ...o, <src> }] adds to [o], left to right. *)
Definition assign (o src : list (string * Val)) : list (string * Val) :=
  fold_left (fun acc kv => set (fst kv) (snd kv) acc) src o.

(** The own properties of an array-like value: its items under their
    indices. *)
Definition indexed (items : list Val) : list (string * Val) :=
  combine (map (fun i => string_of_Z (Z.of_nat i)) (seq 0 (List.length items)))
    items.

(** [...v] inside an object literal: the own enumerable properties of [v];
    undefined, null, booleans and numbers have none. *)
Definition spread (v : Val) : list (string * Val) :=
  match v with
  | Obj fs => fs
  | Arr items => indexed items
  | Str s => indexed (map (fun c => Str (String c "")) (list_ascii_of_string s))
  | Buffer b =>
      indexed (map (fun x => Number (Int (Z.of_N (Byte.to_N x)))) b)
  | Undefined | Null | Bool _ | Number _ => []
  end.

(** [s.includes(t)] *)
Fixpoint includes (s t : string) : bool :=
  String.prefix t s ||
  match s with
  | EmptyString => false
  | String _ r => includes r t
  end.

(** *** parseInt (ECMA-262, 19.2.5)

    The result is the mathematical value of the digits read; JavaScript
    returns the double nearest to it, which is the same number up to
    2^53. *)

Definition isStrWhiteSpaceChar (c : ascii) : bool :=
  match nat_of_ascii c with
  | 9%nat | 10%nat | 11%nat | 12%nat | 13%nat | 32%nat => true
  | _ => false
  end.

Fixpoint trimStart (s : string) : string :=
  match s with
  | String c r => if isStrWhiteSpaceChar c then trimStart r else s
  | EmptyString => s
  end.

(** The value of a digit [0-9a-zA-Z], if [c] is one. *)
Definition digitValue (c : ascii) : option Z :=
  let n := Z.of_nat (nat_of_ascii c) in
  if (48 <=? n) && (n <=? 57) then Some (n - 48)
  else if (97 <=? n) && (n <=? 122) then Some (n - 87)
  else if (65 <=? n) && (n <=? 90) then Some (n - 55)
  else None.

Definition radixDigit (R : Z) (c : ascii) : option Z :=
  match digitValue c with
  | Some d => if d <? R then Some d else None
  | None => None
  end.

(** The digits of the longest prefix of [s] made of radix-[R] digits. *)
Fixpoint digitsPrefix (R : Z) (s : string) : list Z :=
  match s with
  | String c r =>
      match radixDigit R c with
      | Some d => d :: digitsPrefix R r
      | None => []
      end
  | EmptyString => []
  end.

Definition mathInt (R : Z) (ds : list Z) : Z :=
  fold_left (fun acc d => acc * R + d) ds 0.

Definition stripSign (s : string) : Z * string :=
  match s with
  | String "-" r => (-1, r)
  | String "+" r => (1, r)
  | _ => (1, s)
  end.

Definition stripHexPrefix (s : string) : option string :=
  match s with
  | String "0" (String "x" r) => Some r
  | String "0" (String "X" r) => Some r
  | _ => None
  end.

Definition parseInt (input : Val) (radix : option Z) : Num :=
  let '(sign, str) := stripSign (trimStart (ToString input)) in
  let R0 := match radix with Some r => r | None => 0 end in
  if negb (R0 =? 0) && ((R0 <? 2) || (36 <? R0)) then NaN
  else
    let stripPrefix := (R0 =? 0) || (R0 =? 16) in
    let R1 := if R0 =? 0 then 10 else R0 in
    let '(R, digits) :=
      match (if stripPrefix then stripHexPrefix str else None) with
      | Some r => (16, r)
      | None => (R1, str)
      end in
    match digitsPrefix R digits with
    | [] => NaN
    | ds => Int (sign * mathInt R ds)
    end.

End Js.


(** ** The world outside the process, and effects *)

(** A [fetch] response: its status and its body. *)
Record Response : Type := mkResponse {
  status : Z;
  body : list byte
}.

(** [response.ok] *)
Definition ok (r : Response) : bool :=
  (200 <=? status r) && (status r <=? 299).

(** [response.text()] *)
Definition text (r : Response) : string := string_of_list_byte (body r).

(** What the handlers do to the outside, in the order they do it. *)
Inductive Event : Type :=
| LogError (e : Js.Error)
| Fetch (url method : string) (headers : list (string * string))
        (payload : list byte)
| StorageUpload (bucket path : string) (buffer : list byte)
                (contentType : string).

Definition Trace : Type := list Event.

Record World : Type := mkWorld {
  (** [process.env] *)
  process_env : string -> option string;
  (** the answer of the network to [fetch(url, {method, headers, body})]:
      a rejection (network failure, abort on timeout) or a response *)
  net_fetch : string -> string -> list (string * string) -> list byte ->
              Js.Error + Response;
  (** the grammar of JSON values, applied to a text that starts like one *)
  json_value : string -> Js.Error + Js.Val;
  json_syntax_error : string -> Js.Error;
  (** [storage.from(bucket).upload(path, buffer, {contentType, upsert})]:
      [error.message] or [data.path] *)
  storage_upload : string -> string -> list byte -> string -> string + string;
  (** [storage.from(bucket).getPublicUrl(path).data.publicUrl] *)
  storage_publicUrl : string -> string -> string;
  Date_now : Z;
  randomBytes8_hex : string;
  path_extname : string -> string;
  path_basename : string -> string -> string;
  (** floating point, left uninterpreted: the logarithm, division and
      rounding of [formatBytes] (utils.js), and [(a / b).toFixed(2)] *)
  formatBytes_scaled : Js.Num -> string;
  ratio_toFixed2 : Js.Val -> Js.Val -> string;
  (** the coercion table of the schema validator: the value of the named
      type that a value of another type is turned into, if any *)
  ajv_coerce : string -> Js.Val -> option Js.Val
}.

(** Computations that may throw and that extend the trace. *)
Definition M (A : Type) : Type := Trace -> (Js.Error + A) * Trace.

Definition ret {A} (a : A) : M A := fun tr => (inr a, tr).

Definition throw {A} (e : Js.Error) : M A := fun tr => (inl e, tr).

Definition bind {A B} (m : M A) (k : A -> M B) : M B :=
  fun tr =>
    match m tr with
    | (inr a, tr') => k a tr'
    | (inl e, tr') => (inl e, tr')
    end.

(** [try { m } catch (error) { h error }] *)
Definition try_catch {A} (m : M A) (h : Js.Error -> M A) : M A :=
  fun tr =>
    match m tr with
    | (inr a, tr') => (inr a, tr')
    | (inl e, tr') => h e tr'
    end.

Definition emit (e : Event) : M unit := fun tr => (inr tt, (tr ++ [e])%list).

(** Await a promise whose settlement the world decided. *)
Definition settle {A} (r : Js.Error + A) : M A :=
  match r with inl e => throw e | inr a => ret a end.

Notation "'do' x <- m ; k" := (bind m (fun x => k))
  (at level 10, x name, m at level 100, k at level 200).

Definition fetch (w : World) (url method : string)
    (headers : list (string * string)) (payload : list byte) : M Response :=
  do _ <- emit (Fetch url method headers payload) ;
  settle (net_fetch w url method headers payload).

(** JSON white space. *)
Definition isJsonWhiteSpace (c : ascii) : bool :=
  match nat_of_ascii c with
  | 9%nat | 10%nat | 13%nat | 32%nat => true
  | _ => false
  end.

Fixpoint skipJsonWhiteSpace (s : string) : string :=
  match s with
  | String c r => if isJsonWhiteSpace c then skipJsonWhiteSpace r else s
  | EmptyString => s
  end.

(** The characters a JSON value can start with: an object, an array, a
    string, a number, [true], [false], [null]. *)
Definition startsJsonValue (c : ascii) : bool :=
  let n := nat_of_ascii c in
  match Js.radixDigit 10 c with
  | Some _ => true
  | None =>
      existsb (Nat.eqb n)
        [123 (* { *); 91 (* [ *); 34 (* quote *); 45 (* - *);
         116 (* t *); 102 (* f *); 110 (* n *)]%nat
  end.

(** [JSON.parse(s)]: a syntax error unless the first token can start a
    value; the rest of the grammar is the world's [json_value]. *)
Definition JSON_parse (w : World) (s : string) : Js.Error + Js.Val :=
  match skipJsonWhiteSpace s with
  | String c _ =>
      if startsJsonValue c then json_value w s else inl (json_syntax_error w s)
  | EmptyString => inl (json_syntax_error w s)
  end.

(** [response.json()] *)
Definition json (w : World) (r : Response) : M Js.Val :=
  settle (JSON_parse w (text r)).

(** ** config.js *)

Record Config : Type := mkConfig {
  env : string;
  isProduction : bool;
  isDevelopment : bool;
  rust_serviceUrl : string;
  rust_timeout : Js.Num;
  supabase_url : string;
  supabase_key : string;
  supabase_bucket : string;
  supabase_uploadPath : string;
  upload_maxSize : Js.Num;
  upload_allowedMimeTypes : list string;
  upload_defaultQuality : Js.Num;
  security_apiKey : option string
}.

(** [process.env.NAME || fallback] *)
Definition env_or (w : World) (name fallback : string) : string :=
  match process_env w name with
  | Some s => if String.eqb s "" then fallback else s
  | None => fallback
  end.

(** [s.split(sep)] for a one-character separator *)
Fixpoint split (sep : ascii) (s : string) : list string :=
  match s with
  | EmptyString => [EmptyString]
  | String c r =>
      if Ascii.eqb c sep then EmptyString :: split sep r
      else match split sep r with
           | h :: t => String c h :: t
           | [] => [String c EmptyString]
           end
  end.

Fixpoint trimEnd (s : string) : string :=
  match s with
  | EmptyString => EmptyString
  | String c r =>
      match trimEnd r with
      | EmptyString =>
          if Js.isStrWhiteSpaceChar c then EmptyString else String c EmptyString
      | r' => String c r'
      end
  end.

Definition trim (s : string) : string := trimEnd (Js.trimStart s).

(** The module body of config.js; the [server], [security.rateLimit] and
    [logging] entries are not read by the code below and are left out. *)
Definition loadConfig (w : World) : Js.Error + Config :=
  let env := env_or w "NODE_ENV" "development" in
  let url := env_or w "SUPABASE_URL" "" in
  let key := env_or w "SUPABASE_KEY" "" in
  let config :=
    {| env := env;
       isProduction := String.eqb env "production";
       isDevelopment := String.eqb env "development";
       rust_serviceUrl :=
         env_or w "RUST_SERVICE_URL" "http://rust-compressor-service:8000";
       rust_timeout :=
         Js.parseInt (Js.Str (env_or w "RUST_SERVICE_TIMEOUT" "30000")) (Some 10);
       supabase_url := url;
       supabase_key := key;
       supabase_bucket := env_or w "SUPABASE_BUCKET" "images";
       supabase_uploadPath := env_or w "SUPABASE_UPLOAD_PATH" "compressed";
       upload_maxSize :=
         Js.parseInt (Js.Str (env_or w "MAX_FILE_SIZE" "10485760")) (Some 10);
       upload_allowedMimeTypes :=
         map trim
           (split ","
              (env_or w "ALLOWED_MIME_TYPES" "image/jpeg,image/png,image/webp"));
       upload_defaultQuality :=
         Js.parseInt (Js.Str (env_or w "DEFAULT_QUALITY" "80")) (Some 10);
       security_apiKey :=
         match process_env w "API_KEY" with
         | Some s => if String.eqb s "" then None else Some s
         | None => None
         end |} in
  if String.eqb url "" then
    inl (Js.newError "Missing required environment variable: SUPABASE_URL")
  else if String.eqb key "" then
    inl (Js.newError "Missing required environment variable: SUPABASE_KEY")
  else inr config.

(** ** utils.js *)

(** [data.file], the stream of the uploaded part. *)
Record FileStream : Type := mkFileStream {
  bytesRead : Z;
  length : Js.Val;
  content : list byte
}.

(** The object [request.file()] resolves to; [filename] is undefined for
    a part that came without a file name. *)
Record MultipartFile : Type := mkMultipartFile {
  mimetype : string;
  filename : option string;
  file : FileStream;
  toBuffer : Js.Error + list byte
}.

Record Validation : Type := mkValidation {
  isValid : bool;
  error : Js.Val
}.

(** [generateUniqueFilename(originalFilename)] for a string. *)
Definition generateUniqueFilename (w : World) (originalFilename : string)
  : string :=
  let timestamp := Date_now w in
  let hash := randomBytes8_hex w in
  let ext := path_extname w originalFilename in
  let name := path_basename w originalFilename ext in
  name ++ "-" ++ Js.string_of_Z timestamp ++ "-" ++ hash ++ ext.

(** What [path.extname] throws for an argument that is not a string:
    a TypeError whose message is
    [The "path" argument must be of type string. Received undefined]. *)
Definition ERR_INVALID_ARG_TYPE : Js.Error :=
  let quote := ascii_of_nat 34 in
  Js.mkError
    ("The " ++ String quote ("path" ++ String quote
       " argument must be of type string. Received undefined"))
    Js.Undefined None Js.Undefined (Js.Str "ERR_INVALID_ARG_TYPE").

(** [generateUniqueFilename(data.filename)]: [path.extname] throws when
    the name is undefined. *)
Definition generateUniqueFilenameOf (w : World)
    (originalFilename : option string) : Js.Error + string :=
  match originalFilename with
  | Some name => inr (generateUniqueFilename w name)
  | None => inl ERR_INVALID_ARG_TYPE
  end.

(** [formatBytes(bytes)] *)
Definition formatBytes (w : World) (bytes : Js.Num) : string :=
  match bytes with
  | Js.Int 0 => "0 Bytes"
  | _ => formatBytes_scaled w bytes
  end.

Definition validateFileUpload (w : World) (data : option MultipartFile)
    (maxSize : Js.Num) (allowedMimeTypes : list string) : Validation :=
  match data with
  | None => mkValidation false (Js.Str "No file provided")
  | Some f =>
      if negb (existsb (String.eqb (mimetype f)) allowedMimeTypes) then
        mkValidation false
          (Js.Str ("Invalid file type. Allowed types: "
                   ++ String.concat ", " allowedMimeTypes))
      else if Js.gt (Js.Int (bytesRead (file f))) maxSize then
        mkValidation false
          (Js.Str ("File too large. Maximum size allowed: "
                   ++ formatBytes w maxSize))
      else mkValidation true Js.Undefined
  end.

(** [a && b] *)
Definition and_then (a b : Js.Val) : Js.Val :=
  if Js.truthy a then b else a.

(** [a || b] *)
Definition or_else (a b : Js.Val) : Js.Val :=
  if Js.truthy a then a else b.

(** [createErrorResponse(message, details = null, code = null)] *)
Definition createErrorResponse (message details code : Js.Val) : Js.Val :=
  let details := match details with Js.Undefined => Js.Null | d => d end in
  let code := match code with Js.Undefined => Js.Null | c => c end in
  Js.Obj
    (Js.assign
       (Js.assign [("error", Js.Bool true); ("message", message)]
          (Js.spread (and_then details (Js.Obj [("details", details)]))))
       (Js.spread (and_then code (Js.Obj [("code", code)])))).

(** [createSuccessResponse(data, message = 'Operation successful')] *)
Definition createSuccessResponse (data message : Js.Val) : Js.Val :=
  let message :=
    match message with
    | Js.Undefined => Js.Str "Operation successful"
    | m => m
    end in
  Js.Obj [("success", Js.Bool true); ("message", message); ("data", data)].

(** [parseQuality(quality, defaultQuality)] *)
Definition parseQuality (quality : Js.Val) (defaultQuality : Js.Num) : Js.Num :=
  let parsed := Js.parseInt quality None in
  if Js.isNaN parsed || Js.lt parsed (Js.Int 1) || Js.gt parsed (Js.Int 100)
  then defaultQuality
  else parsed.

(** ** services/compression.js *)

(** The [body] option of a [fetch]: a buffer or a stream. *)
Inductive Payload : Type :=
| FromBuffer (b : list byte)
| FromStream (s : FileStream).

(** The TypeError of [fetch] for a stream body without the [duplex]
    option. *)
Definition duplexRequired : Js.Error :=
  Js.newError "RequestInit: duplex option is required when sending a body.".

(** [fetch(url, { method, body, headers, signal })] of Node (the image is
    node:20, the code imports no other [fetch]): a buffer is sent as it is; a
    stream is refused before anything is sent unless the options carry
    [duplex], which [compressImage] does not set. *)
Definition fetch_body (w : World) (url method : string)
    (headers : list (string * string)) (payload : Payload) : M Response :=
  match payload with
  | FromBuffer b => fetch w url method headers b
  | FromStream _ => throw duplexRequired
  end.

Module CompressionService.

Definition qualityHeader (quality : Js.Val) : list (string * string) :=
  if Js.truthy quality
  then [("X-Compression-Quality", Js.ToString quality)]
  else [].

Definition formatHeader (format : Js.Val) : list (string * string) :=
  if Js.truthy format then [("X-Output-Format", Js.ToString format)] else [].

(** [compressImage(imageData, options)]; the timer only decides when the
    world rejects the [fetch]. *)
Definition compressImage (config : Config) (w : World)
    (imageData : Payload) (quality format : Js.Val) : M (list byte) :=
  do response <- fetch_body w (rust_serviceUrl config ++ "/compress") "POST"
                (("Content-Type", "application/octet-stream")
                   :: qualityHeader quality ++ formatHeader format)%list
                imageData ;
  if negb (ok response) then
    throw (Js.newError ("Compression failed: " ++ text response))
  else ret (body response).

Definition getHealth (config : Config) (w : World) : M Js.Val :=
  do response <- fetch w (rust_serviceUrl config ++ "/health") "GET" [] [] ;
  if negb (ok response) then throw (Js.newError "Health check failed")
  else json w response.

Definition getMetrics (config : Config) (w : World) : M Js.Val :=
  do response <- fetch w (rust_serviceUrl config ++ "/metrics") "GET" [] [] ;
  if negb (ok response) then throw (Js.newError "Metrics fetch failed")
  else json w response.

End CompressionService.

(** ** services/supabase.js *)

Module SupabaseService.

Definition uploadFile (config : Config) (w : World)
    (buffer : list byte) (filename contentType : string) : M Js.Val :=
  let filePath := supabase_uploadPath config ++ "/" ++ filename in
  do _ <- emit (StorageUpload (supabase_bucket config) filePath buffer contentType) ;
  match storage_upload w (supabase_bucket config) filePath buffer contentType with
  | inl msg => throw (Js.newError ("Supabase upload failed: " ++ msg))
  | inr path =>
      let publicUrl := storage_publicUrl w (supabase_bucket config) filePath in
      ret (Js.Obj [("key", Js.Str path);
                   ("url", Js.Str publicUrl);
                   ("size", Js.Number (Js.Int (Z.of_nat (List.length buffer))));
                   ("contentType", Js.Str contentType)])
  end.

End SupabaseService.

(** ** routes/compression.js *)

Record Request : Type := mkRequest {
  (** what [await request.file()] settles to *)
  request_file : Js.Error + option MultipartFile;
  request_body : Js.Val
}.

(** What the handler leaves in [reply]: [reply.code(c)], the headers set
    and the payload sent or returned. *)
Record Reply : Type := mkReply {
  reply_code : Z;
  reply_headers : list (string * string);
  reply_payload : Js.Val
}.

(** [v?.k] *)
Definition optional_get (v : Js.Val) (k : string) : Js.Val :=
  match v with Js.Obj fs => Js.get k fs | _ => Js.Undefined end.

(** The [catch] block shared by both [/compress] handlers. *)
Definition compressCatch (error : Js.Error) : M Reply :=
  do _ <- emit (LogError error) ;
  if Js.includes (Js.message error) "Compression failed" then
    ret (mkReply 500 []
           (createErrorResponse (Js.Str "Compression failed")
              (Js.Str (Js.message error)) (Js.Str "COMPRESSION_ERROR")))
  else
    ret (mkReply 500 []
           (createErrorResponse (Js.Str "Upload failed")
              (Js.Str (Js.message error)) (Js.Str "UPLOAD_ERROR"))).

Definition invalidFile (validation : Validation) : Reply :=
  mkReply 400 []
    (createErrorResponse (Js.Str "Invalid file") (error validation)
       (Js.Str "VALIDATION_ERROR")).

(** Reading a property of [undefined]. *)
Definition TypeError_undefined : Js.Error :=
  Js.newError "Cannot read properties of undefined".

(** The first definition of the module: it hands the stream [data.file]
    to [compressImage] and means to respond with the summary of the
    upload. *)
Module RoutesV1.

Definition compress (config : Config) (w : World) (request : Request)
  : M Reply :=
  do data <- settle (request_file request) ;
  let validation :=
    validateFileUpload w data (upload_maxSize config)
      (upload_allowedMimeTypes config) in
  if negb (isValid validation) then ret (invalidFile validation)
  else
    match data with
    | None => throw TypeError_undefined
    | Some data =>
        let originalSize := length (file data) in
        do filename <- settle (generateUniqueFilenameOf w (filename data)) ;
        try_catch
          (do compressedBuffer <-
             CompressionService.compressImage config w
               (FromStream (file data))
               (optional_get (request_body request) "quality")
               (optional_get (request_body request) "format") ;
           do uploadResult <-
             SupabaseService.uploadFile config w compressedBuffer filename
               (mimetype data) ;
           ret (mkReply 200 []
                  (Js.Obj
                     (Js.assign (Js.spread uploadResult)
                        [("originalSize", originalSize);
                         ("compressionRatio",
                          Js.Str (ratio_toFixed2 w originalSize
                                    (optional_get uploadResult "size")))]))))
          compressCatch
    end.

End RoutesV1.

(** The second definition of the module: it buffers the upload before the
    [try] block and responds with the JPEG bytes. *)
Module RoutesV2.

Definition compress (config : Config) (w : World) (request : Request)
  : M Reply :=
  do data <- settle (request_file request) ;
  let validation :=
    validateFileUpload w data (upload_maxSize config)
      (upload_allowedMimeTypes config) in
  if negb (isValid validation) then ret (invalidFile validation)
  else
    match data with
    | None => throw TypeError_undefined
    | Some data =>
        do imageBuffer <- settle (toBuffer data) ;
        do filename <- settle (generateUniqueFilenameOf w (filename data)) ;
        try_catch
          (do compressedBuffer <-
             CompressionService.compressImage config w
               (FromBuffer imageBuffer)
               (optional_get (request_body request) "quality")
               (optional_get (request_body request) "format") ;
           do _ <- SupabaseService.uploadFile config w compressedBuffer
                     filename (mimetype data) ;
           ret (mkReply 200 [("Content-Type", "image/jpeg")]
                  (Js.Buffer compressedBuffer)))
          compressCatch
    end.

End RoutesV2.

(** [GET /health] and [GET /metrics] read the same in both definitions. *)
Definition health (config : Config) (w : World) : M Reply :=
  try_catch
    (do health <- CompressionService.getHealth config w ;
     ret (mkReply 200 []
            (Js.Obj (Js.assign [("status", Js.Str "ok")] (Js.spread health)))))
    (fun error =>
       do _ <- emit (LogError error) ;
       ret (mkReply 503 []
              (createErrorResponse (Js.Str "Service unavailable")
                 (Js.Str (Js.message error)) (Js.Str "HEALTH_CHECK_ERROR")))).

Definition metrics (config : Config) (w : World) : M Reply :=
  try_catch
    (do metrics <- CompressionService.getMetrics config w ;
     ret (mkReply 200 [] metrics))
    (fun error =>
       do _ <- emit (LogError error) ;
       ret (mkReply 500 []
              (createErrorResponse (Js.Str "Metrics unavailable")
                 (Js.Str (Js.message error)) (Js.Str "METRICS_ERROR")))).

(** ** middleware.js: [errorHandler()] *)

Definition errorHandler (w : World) (error : Js.Error) : M Reply :=
  do _ <- emit (LogError error) ;
  let fallback :=
    mkReply 500 []
      (createErrorResponse (Js.Str "Internal Server Error")
         (match process_env w "NODE_ENV" with
          | Some e =>
              if String.eqb e "development" then Js.Str (Js.message error)
              else Js.Null
          | None => Js.Null
          end)
         (Js.Str "SERVER_ERROR")) in
  if Js.truthy (Js.validation error) then
    ret (mkReply 400 []
           (createErrorResponse (Js.Str "Validation Error")
              (Js.validation error) (Js.Str "VALIDATION_ERROR")))
  else
    match Js.statusCode error with
    | Some c =>
        if c =? 0 then ret fallback
        else
          ret (mkReply c []
                 (createErrorResponse (Js.Str (Js.message error))
                    (or_else (Js.details error) Js.Null)
                    (or_else (Js.code error) (Js.Str "API_ERROR"))))
    | None => ret fallback
    end.

(** Running a handler from an empty trace. *)
Definition run {A} (m : M A) : (Js.Error + A) * Trace := m [].

Definition outcome {A} (m : M A) : Js.Error + A := fst (run m).

Definition trace {A} (m : M A) : Trace := snd (run m).

(** ** server.js: what reaches a route, and how a route answers *)

Module Server.

(** The file part of a multipart request: what the client sent and, as
    [part_parsed], how many of its bytes the parser had gone through when
    the handler read [bytesRead].  (A part without a file name is a file
    only when its type is application/octet-stream.) *)
Record FilePart : Type := mkFilePart {
  part_mimetype : string;
  part_filename : option string;
  part_bytes : list byte;
  part_parsed : Z
}.

(** A request that reaches the [POST /compress] route: it has passed the
    [onRequest] hooks and the framework has parsed its body.  It is a
    multipart request with its fields and its first file part, if it has
    one, or a request of another content type with its parsed body
    (undefined when there is none). *)
Inductive Incoming : Type :=
| Multipart (fields : list (string * string)) (part : option FilePart)
| NotMultipart (body : Js.Val).

Definition size (p : FilePart) : Z := Z.of_nat (List.length (part_bytes p)).

(** The errors of the multipart plugin, with the status codes and codes it
    gives them (the message is the text of its current release). *)
Definition RequestFileTooLargeError : Js.Error :=
  Js.mkError "request file too large" Js.Undefined (Some 413) Js.Undefined
    (Js.Str "FST_REQ_FILE_TOO_LARGE").

Definition InvalidMultipartContentTypeError : Js.Error :=
  Js.mkError "the request is not multipart" Js.Undefined (Some 406)
    Js.Undefined (Js.Str "FST_INVALID_MULTIPART_CONTENT_TYPE").

(** [registerPlugins]: the multipart plugin runs with
    [limits.fileSize = config.upload.maxSize].  The parser counts the bytes
    it hands to the stream of a part and stops at the limit: after [n]
    bytes of the part, [bytesRead] is [n], or the limit once [n] is over
    it.  (A limit that is not a number limits nothing here; what the plugin
    makes of one is not modelled, and the statements about delivered
    requests take the limit to be a number.) *)
Definition counted (fileSize : Js.Num) (n : Z) : Z :=
  match fileSize with
  | Js.Int m => if (0 <? n) && (m <? n) then m else n
  | Js.NaN => n
  end.

(** The part holds more bytes than the limit: its stream is cut there. *)
Definition truncated (fileSize : Js.Num) (p : FilePart) : bool :=
  Js.gt (Js.Int (size p)) fileSize.

(** The object [request.file()] resolves to for the part [p]: its stream
    has no [length]; [toBuffer()] rejects when the stream was cut. *)
Definition multipartFile (fileSize : Js.Num) (p : FilePart) : MultipartFile :=
  {| mimetype := part_mimetype p;
     filename := part_filename p;
     file :=
       {| bytesRead :=
            counted fileSize (Z.max 0 (Z.min (part_parsed p) (size p)));
          length := Js.Undefined;
          content :=
            match fileSize with
            | Js.Int m =>
                if truncated fileSize p
                then firstn (Z.to_nat m) (part_bytes p)
                else part_bytes p
            | Js.NaN => part_bytes p
            end |};
     toBuffer :=
       if truncated fileSize p then inl RequestFileTooLargeError
       else inr (part_bytes p) |}.

(** The request object of the handler.  The plugin is registered without
    [attachFieldsToBody]: the fields of a multipart request are not put in
    [request.body], which stays undefined; on a request that is not
    multipart [request.file()] rejects. *)
Definition request (config : Config) (i : Incoming) : Request :=
  match i with
  | Multipart _ part =>
      mkRequest (inr (option_map (multipartFile (upload_maxSize config)) part))
        Js.Undefined
  | NotMultipart body =>
      mkRequest (inl InvalidMultipartContentTypeError) body
  end.

(** The body schema of the first definition (routes/compression.js, lines
    12-19), as the validator of Fastify applies it before the handler: the
    body is an object (an absent body is none); [quality], when present, is
    a number from 1 to 100 and [format], when present, one of three names;
    a value of another type is coerced first. *)
Definition qualitySchema (w : World) (v : Js.Val) : bool :=
  match
    match v with
    | Js.Number n => Some n
    | _ =>
        match ajv_coerce w "number" v with
        | Some (Js.Number n) => Some n
        | _ => None
        end
    end
  with
  | Some (Js.Int z) => (1 <=? z) && (z <=? 100)
  | _ => false
  end.

Definition formatSchema (w : World) (v : Js.Val) : bool :=
  match
    match v with
    | Js.Str s => Some s
    | _ =>
        match ajv_coerce w "string" v with
        | Some (Js.Str s) => Some s
        | _ => None
        end
    end
  with
  | Some s => existsb (String.eqb s) ["jpeg"; "png"; "webp"]
  | None => false
  end.

Definition bodySchema (w : World) (body : Js.Val) : bool :=
  match body with
  | Js.Obj fields =>
      (negb (Js.has "quality" fields)
       || qualitySchema w (Js.get "quality" fields))
      && (negb (Js.has "format" fields)
          || formatSchema w (Js.get "format" fields))
  | _ => false
  end.

(** How a request to a route ends: the route's own code sent a reply; the
    handler threw, and the framework answers with the status code of the
    error (500 without one); or the body schema refused the request, which
    the framework answers with status 400 without running the handler. *)
Inductive Answer : Type :=
| Sent (r : Reply)
| Thrown (e : Js.Error)
| Invalid.

Definition statusOf (a : Answer) : Z :=
  match a with
  | Sent r => reply_code r
  | Thrown e =>
      match Js.statusCode e with
      | Some c => if 400 <=? c then c else 500
      | None => 500
      end
  | Invalid => 400
  end.

Definition answered (r : (Js.Error + Reply) * Trace) : Answer * Trace :=
  match r with
  | (inr reply, tr) => (Sent reply, tr)
  | (inl e, tr) => (Thrown e, tr)
  end.

(** [POST /compress] as each definition registers it: the first with its
    body schema, the second without one. *)
Definition compressV1 (config : Config) (w : World) (i : Incoming)
  : Answer * Trace :=
  if bodySchema w (request_body (request config i))
  then answered (run (RoutesV1.compress config w (request config i)))
  else (Invalid, []).

Definition compressV2 (config : Config) (w : World) (i : Incoming)
  : Answer * Trace :=
  answered (run (RoutesV2.compress config w (request config i))).

End Server.


(** ** The codec pipeline *)

(** The pipeline is the Rust function [compress_image_bytes] of
    image-compressor-rust-service/src/lib.rs, which is not among the
    sources; only its manifest (Cargo.toml) and its description are.  The
    definitions of this module follow sections 3, 4.1 and 9 of the
    specification. *)
Module Codec.

(** Modelled from the spec: the typed failures of section 7 that the
    pipeline itself can produce. *)
Inductive Failure : Type :=
| DecodeError
| EncodeError.

(** Modelled from the spec: CompressionResult, a byte sequence or a typed
    failure. *)
Inductive CompressionResult : Type :=
| Compressed (jpeg : list byte)
| Failed (f : Failure).

(** A decoded pixel, in the colour models a decoder can produce. *)
Inductive Pixel : Type :=
| Luma (l : byte)
| LumaA (l a : byte)
| Rgb (r g b : byte)
| Rgba (r g b a : byte).

(** Modelled from the spec: DecodedImage, a pixel grid. *)
Record DecodedImage : Type := mkImage {
  width : Z;
  height : Z;
  pixels : list Pixel
}.

(** Modelled from the spec: an entry of the strategy table of section 9, a
    predicate on the bytes and the decoder it selects. *)
Record Format : Type := mkFormat {
  signature : list byte -> bool;
  decode : list byte -> option DecodedImage
}.

Fixpoint startsWith (magic input : list byte) : bool :=
  match magic, input with
  | [], _ => true
  | m :: ms, i :: rest => Byte.eqb m i && startsWith ms rest
  | _ :: _, [] => false
  end.

(** The magic numbers of the formats Cargo.toml enables for the [image]
    crate: jpeg, png, webp. *)
Definition jpegSignature (input : list byte) : bool :=
  startsWith [xff; xd8; xff] input.

Definition pngSignature (input : list byte) : bool :=
  startsWith [x89; x50; x4e; x47; x0d; x0a; x1a; x0a] input.

Definition webpSignature (input : list byte) : bool :=
  startsWith [x52; x49; x46; x46] input
  && startsWith [x57; x45; x42; x50] (skipn 8 input).

(** Modelled from the spec: Normalize (step 2), every pixel becomes three
    8-bit channels and alpha is dropped. *)
Definition toRgb8 (p : Pixel) : Pixel :=
  match p with
  | Luma l | LumaA l _ => Rgb l l l
  | Rgb r g b | Rgba r g b _ => Rgb r g b
  end.

Definition normalize (img : DecodedImage) : DecodedImage :=
  mkImage (width img) (height img) (map toRgb8 (pixels img)).

Section Pipeline.

(** The registered formats, in priority order, and the JPEG encoder. *)
Variable formats : list Format.
Variable encode : DecodedImage -> Z -> option (list byte).

(** Modelled from the spec: format inference from the bytes alone, the
    signatures tried in the order of the table. *)
Definition detect (input : list byte) : option Format :=
  find (fun f => signature f input) formats.

(** Modelled from the spec: Decode (step 1) fails on empty bytes, on bytes
    that match no signature, and where the selected decoder fails. *)
Definition decodeImage (input : list byte) : option DecodedImage :=
  match input with
  | [] => None
  | _ :: _ =>
      match detect input with
      | Some f => decode f input
      | None => None
      end
  end.

(** Modelled from the spec: [compress(input, quality)] of section 4.1,
    standing for [compress_image_bytes] of src/lib.rs: decode (a failure is
    a [DecodeError]), normalize, encode at the given quality (a failure of
    the encoder is an [EncodeError]); by section 3 a result is a non-empty
    byte sequence or a typed failure, so an encoder that returns no byte
    has failed. *)
Definition compress (input : list byte) (quality : Z) : CompressionResult :=
  match decodeImage input with
  | None => Failed DecodeError
  | Some img =>
      match encode (normalize img) quality with
      | Some (b :: bs) => Compressed (b :: bs)
      | Some [] | None => Failed EncodeError
      end
  end.

End Pipeline.

End Codec.

(** ** Vocabulary of the statements *)

Definition decimalDigit (c : ascii) : bool :=
  let n := nat_of_ascii c in (48 <=? n)%nat && (n <=? 57)%nat.

Fixpoint allDecimal (s : string) : bool :=
  match s with
  | EmptyString => true
  | String c r => decimalDigit c && allDecimal r
  end.

Definition startsWithDecimal (s : string) : bool :=
  match s with
  | EmptyString => false
  | String c _ => decimalDigit c
  end.

Fixpoint decimalValueFrom (acc : Z) (s : string) : Z :=
  match s with
  | EmptyString => acc
  | String c r =>
      decimalValueFrom (acc * 10 + (Z.of_nat (nat_of_ascii c) - 48)) r
  end.

(** The integer a string of decimal digits denotes. *)
Definition decimalValue (s : string) : Z := decimalValueFrom 0 s.

(** [parseInt(quality)] is [NaN], below 1 or above 100. *)
Definition unusableQuality (quality : Js.Val) : Prop :=
  Js.parseInt quality None = Js.NaN \/
  exists n, Js.parseInt quality None = Js.Int n /\ (n < 1 \/ 100 < n).

(** *** Runs of the [/compress] handlers *)

(** The headers of the call to the compression service. *)
Definition compressHeaders (request : Request) : list (string * string) :=
  (("Content-Type", "application/octet-stream")
     :: CompressionService.qualityHeader
          (optional_get (request_body request) "quality")
     ++ CompressionService.formatHeader
          (optional_get (request_body request) "format"))%list.

(** The reply the [catch] block sends for [error]. *)
Definition catchReply (error : Js.Error) : Reply :=
  if Js.includes (Js.message error) "Compression failed" then
    mkReply 500 []
      (createErrorResponse (Js.Str "Compression failed")
         (Js.Str (Js.message error)) (Js.Str "COMPRESSION_ERROR"))
  else
    mkReply 500 []
      (createErrorResponse (Js.Str "Upload failed")
         (Js.Str (Js.message error)) (Js.Str "UPLOAD_ERROR")).

(** The upload passes both checks of [validateFileUpload]. *)
Definition accepted (config : Config) (f : MultipartFile) : bool :=
  existsb (String.eqb (mimetype f)) (upload_allowedMimeTypes config)
  && negb (Js.gt (Js.Int (bytesRead (file f))) (upload_maxSize config)).

(** The reply for a file over the limit [m]. *)
Definition tooLargeReply (w : World) (m : Z) : Reply :=
  mkReply 400 []
    (createErrorResponse (Js.Str "Invalid file")
       (Js.Str ("File too large. Maximum size allowed: "
                ++ formatBytes w (Js.Int m)))
       (Js.Str "VALIDATION_ERROR")).

(** The successful reply of the second definition. *)
Definition jpegReply (compressedBuffer : list byte) : Reply :=
  mkReply 200 [("Content-Type", "image/jpeg")] (Js.Buffer compressedBuffer).

Definition uploadResultOf (config : Config) (w : World) (filePath path : string)
    (buffer : list byte) (contentType : string) : Js.Val :=
  Js.Obj [("key", Js.Str path);
          ("url", Js.Str (storage_publicUrl w (supabase_bucket config) filePath));
          ("size", Js.Number (Js.Int (Z.of_nat (List.length buffer))));
          ("contentType", Js.Str contentType)].

(** What the [try] block of the second definition does with an accepted
    upload [f] named [name] whose bytes are [image]: the calls it makes
    after [tr] and the reply. *)
Definition attempt (config : Config) (w : World) (request : Request)
    (f : MultipartFile) (name : string) (image : list byte) (tr : Trace)
  : (Js.Error + Reply) * Trace :=
  let url := rust_serviceUrl config ++ "/compress" in
  let call := Fetch url "POST" (compressHeaders request) image in
  match net_fetch w url "POST" (compressHeaders request) image with
  | inl e => (inr (catchReply e), (tr ++ [call; LogError e])%list)
  | inr response =>
      if ok response then
        let filePath :=
          supabase_uploadPath config ++ "/" ++ generateUniqueFilename w name in
        let upload :=
          StorageUpload (supabase_bucket config) filePath (body response)
            (mimetype f) in
        match storage_upload w (supabase_bucket config) filePath
                (body response) (mimetype f) with
        | inl msg =>
            let e := Js.newError ("Supabase upload failed: " ++ msg) in
            (inr (catchReply e), (tr ++ [call; upload; LogError e])%list)
        | inr path =>
            (inr (jpegReply (body response)), (tr ++ [call; upload])%list)
        end
      else
        let e := Js.newError ("Compression failed: " ++ text response) in
        (inr (catchReply e), (tr ++ [call; LogError e])%list)
  end.

(** The reply to an upload refused with the message [msg]. *)
Definition refusal (msg : string) : Reply :=
  mkReply 400 []
    (Js.Obj [("error", Js.Bool true); ("message", Js.Str "Invalid file");
             ("details", Js.Str msg); ("code", Js.Str "VALIDATION_ERROR")]).

(** The refusal of an upload whose type is not allowed. *)
Definition invalidType (config : Config) : Reply :=
  refusal ("Invalid file type. Allowed types: "
           ++ String.concat ", " (upload_allowedMimeTypes config)).

(** The reply of the first definition to an accepted upload: the [catch]
    reply for the refusal of [fetch]. *)
Definition streamRefused : Reply :=
  mkReply 500 []
    (Js.Obj [("error", Js.Bool true); ("message", Js.Str "Upload failed");
             ("details", Js.Str (Js.message duplexRequired));
             ("code", Js.Str "UPLOAD_ERROR")]).

(** The reply to a compression that the service answered with a status
    that is not ok and the text [answer]. *)
Definition compressionFailed (answer : string) : Reply :=
  mkReply 500 []
    (createErrorResponse (Js.Str "Compression failed")
       (Js.Str ("Compression failed: " ++ answer))
       (Js.Str "COMPRESSION_ERROR")).

(** *** The statements of the specification, as properties of a route *)

Definition Handler : Type := Config -> World -> Request -> M Reply.

Definition Route : Type :=
  Config -> World -> Server.Incoming -> Server.Answer * Trace.

(** The request [i] carrying the quality [quality]: as a form field of a
    multipart request, as a property of the body otherwise. *)
Definition withQuality (i : Server.Incoming) (quality : Js.Val)
  : Server.Incoming :=
  match i with
  | Server.Multipart fields part =>
      Server.Multipart (("quality", Js.ToString quality) :: fields) part
  | Server.NotMultipart body =>
      Server.NotMultipart
        (Js.Obj (Js.set "quality" quality
                   match body with Js.Obj fields => fields | _ => [] end))
  end.

(** An unusable quality is replaced by the configured default before the
    compression call and the request never fails for it: the request is
    handled as the one carrying the default. *)
Definition QualityDefaulted (route : Route) : Prop :=
  forall config w i quality,
    unusableQuality quality ->
    route config w (withQuality i quality) =
    route config w (withQuality i (Js.Number (upload_defaultQuality config))).

(** An oversized-payload error: the refusal of [validateFileUpload] for the
    size, or the error of the multipart plugin. *)
Definition oversizedError (w : World) (m : Z) (a : Server.Answer) : Prop :=
  a = Server.Sent (tooLargeReply w m) \/
  a = Server.Thrown Server.RequestFileTooLargeError.

(** Every upload over the limit is rejected with the oversized-payload
    error, before any call. *)
Definition OversizedGetsTooLarge (route : Route) : Prop :=
  forall config w fields part m,
    upload_maxSize config = Js.Int m ->
    m < Server.size part ->
    exists a,
      route config w (Server.Multipart fields (Some part)) = (a, []) /\
      oversizedError w m a.

(** A client-error answer of the compression service (undecodable input)
    becomes a client-error answer of the route. *)
Definition DecodeFailureIsClientError (route : Route) : Prop :=
  forall config w fields part name response,
    Server.part_filename part = Some name ->
    accepted config (Server.multipartFile (upload_maxSize config) part) = true ->
    Server.truncated (upload_maxSize config) part = false ->
    net_fetch w (rust_serviceUrl config ++ "/compress") "POST"
      [("Content-Type", "application/octet-stream")] (Server.part_bytes part)
    = inr response ->
    400 <= status response <= 499 ->
    400 <= Server.statusOf
             (fst (route config w (Server.Multipart fields (Some part))))
        <= 499.

(** The health reply is the same in every world. *)
Definition HealthIsFixed : Prop :=
  forall config w1 w2,
    outcome (health config w1) = outcome (health config w2).

(** The two handler definitions answer every request alike. *)
Definition HandlersAgree (h1 h2 : Handler) : Prop :=
  forall config w request,
    outcome (h1 config w request) = outcome (h2 config w request).

(** The two routes answer every request alike. *)
Definition RoutesAgree (r1 r2 : Route) : Prop :=
  forall config w i, fst (r1 config w i) = fst (r2 config w i).

(** *** A concrete deployment *)

Module Fixture.

Definition environment (name : string) : option string :=
  if String.eqb name "SUPABASE_URL" then Some "https://proj.supabase.co"
  else if String.eqb name "SUPABASE_KEY" then Some "anon-key"
  else None.

(** A world whose network answers with [answer]; storage accepts every
    upload; the only JSON text it knows is the empty object; the validator
    coerces nothing. *)
Definition world
    (answer : string -> list (string * string) -> Js.Error + Response)
  : World :=
  {| process_env := environment;
     net_fetch := fun url _ headers _ => answer url headers;
     json_value := fun s =>
       if String.eqb s "{}" then inr (Js.Obj [])
       else inl (Js.newError "Unexpected token");
     json_syntax_error := fun _ => Js.newError "Unexpected token";
     storage_upload := fun _ path _ _ => inr path;
     storage_publicUrl := fun bucket path =>
       "https://proj.supabase.co/storage/v1/object/public/"
       ++ bucket ++ "/" ++ path;
     Date_now := 1700000000000;
     randomBytes8_hex := "00112233445566ff";
     path_extname := fun _ => ".png";
     path_basename := fun _ _ => "photo";
     formatBytes_scaled := fun _ => "10 MB";
     ratio_toFixed2 := fun _ _ => "NaN";
     ajv_coerce := fun _ _ => None |}.

Definition respond (status : Z) (s : string)
  : string -> list (string * string) -> Js.Error + Response :=
  fun _ _ => inr (mkResponse status (list_byte_of_string s)).

Definition config : Config :=
  match loadConfig (world (respond 200 "{}")) with
  | inr c => c
  | inl _ =>
      mkConfig "" false false "" Js.NaN "" "" "" "" Js.NaN [] Js.NaN None
  end.

Definition png : list byte := [x89; x50; x4e; x47; x0d; x0a; x1a; x0a].

(** A file part of eight bytes named photo.png, wholly parsed. *)
Definition part (mime : string) : Server.FilePart :=
  Server.mkFilePart mime (Some "photo.png") png 8.

(** A multipart request with that part and a quality field. *)
Definition incoming (mime : string) : Server.Incoming :=
  Server.Multipart [("quality", "85")] (Some (part mime)).

(** What the handler is given for it. *)
Definition upload (mime : string) : MultipartFile :=
  Server.multipartFile (upload_maxSize config) (part mime).

Definition request (mime : string) : Request :=
  Server.request config (incoming mime).

(** Prometheus text exposition of the two counters. *)
Definition exposition : string :=
  "http_requests_total 3" ++ String (ascii_of_nat 10)
    ("processed_bytes_total 1024" ++ String (ascii_of_nat 10) "").

Definition formats : list Codec.Format :=
  [Codec.mkFormat Codec.jpegSignature (fun _ => None);
   Codec.mkFormat Codec.pngSignature
     (fun _ => Some (Codec.mkImage 1 1 [Codec.Rgba x10 x20 x30 xff]));
   Codec.mkFormat Codec.webpSignature (fun _ => None)].

Definition encode (img : Codec.DecodedImage) (quality : Z)
  : option (list byte) :=
  Some [xff; xd8; xff; xd9].

End Fixture.

(** ** middleware.js: [apiKeyAuth(config)] *)

Definition unauthorized : Reply :=
  mkReply 401 []
    (createErrorResponse (Js.Str "Unauthorized")
       (Js.Str "Invalid or missing API key") (Js.Str "AUTH_ERROR")).

(** The hook on a request whose [x-api-key] header is [x_api_key]
    (undefined when absent): the reply it sends, if it sends one. *)
Definition apiKeyAuth (config : Config) (x_api_key : option string)
  : option Reply :=
  match security_apiKey config with
  | None => None
  | Some key =>
      if String.eqb key "" then None
      else
        match x_api_key with
        | None => Some unauthorized
        | Some apiKey =>
            if String.eqb apiKey "" || negb (String.eqb apiKey key)
            then Some unauthorized
            else None
        end
  end.

(** *** Vocabulary of the further properties *)

(** [t] occurs in [s]. *)
Definition Contains (s t : string) : Prop :=
  exists a b, s = a ++ t ++ b.

Definition isFetchEvent (e : Event) : bool :=
  match e with Fetch _ _ _ _ => true | _ => false end.

Definition isUploadEvent (e : Event) : bool :=
  match e with StorageUpload _ _ _ _ => true | _ => false end.

Definition isLogEvent (e : Event) : bool :=
  match e with LogError _ => true | _ => false end.

Definition count (p : Event -> bool) (tr : Trace) : nat :=
  List.length (filter p tr).

(** Neither end of [s] is white space. *)
Definition noOuterSpace (s : string) : Prop :=
  Js.trimStart s = s /\ trimEnd s = s.

Fixpoint hasChar (c : ascii) (s : string) : bool :=
  match s with
  | EmptyString => false
  | String c' r => Ascii.eqb c c' || hasChar c r
  end.

Fixpoint allWhite (s : string) : bool :=
  match s with
  | EmptyString => true
  | String c r => Js.isStrWhiteSpaceChar c && allWhite r
  end.

(** The keys of an object are pairwise distinct. *)
Definition distinctKeys (fields : list (string * Js.Val)) : Prop :=
  NoDup (map fst fields).

(** The variable is set to a string that is not empty. *)
Definition envSet (w : World) (name : string) : Prop :=
  exists v, process_env w name = Some v /\ v <> "".

(** *** Further sample worlds *)

Module Sample.

(** [process.env] holding exactly the given bindings. *)
Fixpoint envOf (bindings : list (string * string)) (name : string)
  : option string :=
  match bindings with
  | [] => None
  | (k, v) :: rest => if String.eqb name k then Some v else envOf rest name
  end.

Definition withEnv (w : World) (bindings : list (string * string)) : World :=
  mkWorld (envOf bindings) (net_fetch w) (json_value w) (json_syntax_error w)
    (storage_upload w) (storage_publicUrl w) (Date_now w)
    (randomBytes8_hex w) (path_extname w) (path_basename w)
    (formatBytes_scaled w) (ratio_toFixed2 w) (ajv_coerce w).

Definition supabase : list (string * string) :=
  [("SUPABASE_URL", "https://proj.supabase.co"); ("SUPABASE_KEY", "anon-key")].

(** A world like [w] where another draw of the clock and of the random
    source is made. *)
Definition redraw (w : World) (now : Z) (hex : string) : World :=
  mkWorld (process_env w) (net_fetch w) (json_value w) (json_syntax_error w)
    (storage_upload w) (storage_publicUrl w) now hex
    (path_extname w) (path_basename w)
    (formatBytes_scaled w) (ratio_toFixed2 w) (ajv_coerce w).

(** A network that rejects every call. *)
Definition unreachable (msg : string)
  : string -> list (string * string) -> Js.Error + Response :=
  fun _ _ => inl (Js.newError msg).

(** A world like [w] whose storage refuses every upload. *)
Definition storageDown (w : World) (msg : string) : World :=
  mkWorld (process_env w) (net_fetch w) (json_value w) (json_syntax_error w)
    (fun _ _ _ _ => inl msg) (storage_publicUrl w) (Date_now w)
    (randomBytes8_hex w) (path_extname w) (path_basename w)
    (formatBytes_scaled w) (ratio_toFixed2 w) (ajv_coerce w).

(** The configuration loaded under the given bindings (that of the
    fixture if they lack a required variable). *)
Definition configOf (bindings : list (string * string)) : Config :=
  match loadConfig (withEnv (Fixture.world (Fixture.respond 200 "{}")) bindings)
  with
  | inr c => c
  | inl _ => Fixture.config
  end.

(** A deployment whose upload limit is four bytes. *)
Definition tight : list (string * string) :=
  (supabase ++ [("MAX_FILE_SIZE", "4")])%list.

(** A deployment that also takes untyped binary uploads. *)
Definition binary : list (string * string) :=
  (supabase
   ++ [("ALLOWED_MIME_TYPES", "image/jpeg, application/octet-stream")])%list.

(** A file part sent without a file name. *)
Definition nameless : Server.FilePart :=
  Server.mkFilePart "application/octet-stream" None Fixture.png 8.

(** A world like [w] whose JSON texts all denote [v]. *)
Definition jsonIs (w : World) (v : Js.Val) : World :=
  mkWorld (process_env w) (net_fetch w) (fun _ => inr v) (json_syntax_error w)
    (storage_upload w) (storage_publicUrl w) (Date_now w)
    (randomBytes8_hex w) (path_extname w) (path_basename w)
    (formatBytes_scaled w) (ratio_toFixed2 w) (ajv_coerce w).

End Sample.

(** *** Tactics for runs of the monad *)

Ltac unfold_monad :=
  unfold fetch, json in *;
  unfold bind, ret, throw, try_catch, emit, settle in *.

Ltac reduce_run := unfold throw, ret; cbv beta iota.

(** * Properties *)

(** ** parseInt and parseQuality *)

Lemma radixDigit_decimal (c : ascii) :
  Js.radixDigit 10 c =
  if decimalDigit c then Some (Z.of_nat (nat_of_ascii c) - 48) else None.
Proof.
  destruct c as [[] [] [] [] [] [] [] []]; reflexivity.
Qed.

Lemma decimal_not_space (c : ascii) :
  decimalDigit c = true -> Js.isStrWhiteSpaceChar c = false.
Proof.
  destruct c as [[] [] [] [] [] [] [] []]; (reflexivity || discriminate).
Qed.

Lemma stripSign_decimal (c : ascii) (s : string) :
  decimalDigit c = true -> Js.stripSign (String c s) = (1, String c s).
Proof.
  destruct c as [[] [] [] [] [] [] [] []]; (reflexivity || discriminate).
Qed.

Lemma stripHexPrefix_nonzero (c : ascii) (s : string) :
  c <> "0"%char -> Js.stripHexPrefix (String c s) = None.
Proof.
  destruct c as [[] [] [] [] [] [] [] []]; intros H;
    (reflexivity || (exfalso; apply H; reflexivity)).
Qed.

Lemma stripHexPrefix_zero_digit (c : ascii) (s : string) :
  decimalDigit c = true -> Js.stripHexPrefix (String "0" (String c s)) = None.
Proof.
  destruct c as [[] [] [] [] [] [] [] []]; (reflexivity || discriminate).
Qed.

Lemma digitsPrefix_decimal (digits rest : string) :
  allDecimal digits = true -> startsWithDecimal rest = false ->
  forall acc,
    fold_left (fun a d => a * 10 + d) (Js.digitsPrefix 10 (digits ++ rest)) acc
    = decimalValueFrom acc digits.
Proof.
  intros Hall Hrest. induction digits as [|c ds IH]; intros acc.
  - simpl. destruct rest as [|c r]; [reflexivity|].
    simpl in Hrest. simpl. rewrite radixDigit_decimal, Hrest. reflexivity.
  - simpl in Hall. apply andb_prop in Hall as [Hc Hds].
    simpl. rewrite radixDigit_decimal, Hc. simpl. apply IH, Hds.
Qed.

Lemma digitsPrefix_nonempty (c : ascii) (s : string) :
  decimalDigit c = true -> Js.digitsPrefix 10 (String c s) <> [].
Proof.
  intros Hc. simpl. rewrite radixDigit_decimal, Hc. discriminate.
Qed.

Lemma parseInt_no_radix (input : Js.Val) :
  Js.parseInt input None =
  let '(sign, str) := Js.stripSign (Js.trimStart (Js.ToString input)) in
  match Js.stripHexPrefix str with
  | Some r =>
      match Js.digitsPrefix 16 r with
      | [] => Js.NaN
      | ds => Js.Int (sign * Js.mathInt 16 ds)
      end
  | None =>
      match Js.digitsPrefix 10 str with
      | [] => Js.NaN
      | ds => Js.Int (sign * Js.mathInt 10 ds)
      end
  end.
Proof.
  unfold Js.parseInt.
  destruct (Js.stripSign (Js.trimStart (Js.ToString input))) as [sign str].
  cbn [Z.eqb negb andb orb].
  destruct (Js.stripHexPrefix str); reflexivity.
Qed.

(** The string form of the argument starts with a decimal numeral followed
    by something that is not a digit: [parseInt] reads exactly the numeral. *)
Lemma parseInt_leading_decimal (quality : Js.Val) (digits rest : string) :
  Js.ToString quality = digits ++ rest ->
  digits <> "" -> allDecimal digits = true -> startsWithDecimal rest = false ->
  1 <= decimalValue digits ->
  Js.parseInt quality None = Js.Int (decimalValue digits).
Proof.
  intros Hstr Hne Hall Hrest Hpos.
  destruct digits as [|c ds]; [congruence|].
  pose proof Hall as Hall'. simpl in Hall'.
  apply andb_prop in Hall' as [Hc Hds].
  rewrite parseInt_no_radix, Hstr.
  change (String c ds ++ rest) with (String c (ds ++ rest)).
  cbn [Js.trimStart]. rewrite (decimal_not_space c Hc).
  rewrite (stripSign_decimal c _ Hc).
  assert (Hhex : Js.stripHexPrefix (String c (ds ++ rest)) = None).
  { destruct (ascii_dec c "0") as [->|Hnz].
    - destruct ds as [|c2 ds2].
      + exfalso. unfold decimalValue in Hpos. simpl in Hpos. lia.
      + simpl in Hds. apply andb_prop in Hds as [Hc2 _].
        apply stripHexPrefix_zero_digit, Hc2.
    - apply stripHexPrefix_nonzero, Hnz. }
  rewrite Hhex.
  pose proof (digitsPrefix_nonempty c (ds ++ rest) Hc) as Hnil.
  pose proof (digitsPrefix_decimal (String c ds) rest Hall Hrest 0) as Hval.
  change (String c ds ++ rest) with (String c (ds ++ rest)) in Hval.
  destruct (Js.digitsPrefix 10 (String c (ds ++ rest))) as [|d l] eqn:E;
    [congruence|].
  unfold Js.mathInt. rewrite Hval. unfold decimalValue.
  f_equal. lia.
Qed.

Lemma parseQuality_cases (quality : Js.Val) (defaultQuality : Js.Num) :
  parseQuality quality defaultQuality =
  match Js.parseInt quality None with
  | Js.NaN => defaultQuality
  | Js.Int n => if (n <? 1) || (100 <? n) then defaultQuality else Js.Int n
  end.
Proof.
  unfold parseQuality. destruct (Js.parseInt quality None); reflexivity.
Qed.

Lemma parseQuality_unusable (quality : Js.Val) (defaultQuality : Js.Num) :
  unusableQuality quality ->
  parseQuality quality defaultQuality = defaultQuality.
Proof.
  intros [Hnan | (n & Hn & Hout)]; rewrite parseQuality_cases.
  - rewrite Hnan. reflexivity.
  - rewrite Hn. destruct Hout as [Hlo | Hhi].
    + apply Z.ltb_lt in Hlo. rewrite Hlo. reflexivity.
    + apply Z.ltb_lt in Hhi. rewrite Hhi, orb_true_r. reflexivity.
Qed.

(** C10. When the string form of the quality argument begins with a decimal
    numeral (followed by the end of the string or by a character that is not
    a digit) that denotes an integer in [1,100], as in "50.7" or "50abc",
    [parseQuality] returns that integer and not the default.  The default
    is returned when [parseInt] of the argument is [NaN], below 1 or above
    100, and only then: otherwise the parsed integer, which lies in
    [1,100], is returned. *)
Theorem parseQuality_leading_integer_or_default
    (quality : Js.Val) (defaultQuality : Js.Num) :
  (forall (digits rest : string) (n : Z),
      Js.ToString quality = digits ++ rest ->
      digits <> "" -> allDecimal digits = true ->
      startsWithDecimal rest = false ->
      decimalValue digits = n -> 1 <= n <= 100 ->
      parseQuality quality defaultQuality = Js.Int n)
  /\ (unusableQuality quality ->
      parseQuality quality defaultQuality = defaultQuality)
  /\ (~ unusableQuality quality ->
      exists n, Js.parseInt quality None = Js.Int n /\ 1 <= n <= 100 /\
                parseQuality quality defaultQuality = Js.Int n).
Proof.
  repeat split.
  - intros digits rest n Hstr Hne Hall Hrest Hval Hrange.
    rewrite parseQuality_cases.
    rewrite (parseInt_leading_decimal quality digits rest Hstr Hne Hall Hrest)
      by lia.
    rewrite Hval.
    destruct (n <? 1) eqn:E1; [apply Z.ltb_lt in E1; lia|].
    destruct (100 <? n) eqn:E2; [apply Z.ltb_lt in E2; lia|].
    reflexivity.
  - apply parseQuality_unusable.
  - intros Husable. rewrite parseQuality_cases.
    destruct (Js.parseInt quality None) as [|n] eqn:E.
    + exfalso. apply Husable. left. exact E.
    + destruct (n <? 1) eqn:E1.
      * exfalso. apply Husable. right. exists n.
        apply Z.ltb_lt in E1. split; [exact E | lia].
      * destruct (100 <? n) eqn:E2.
        -- exfalso. apply Husable. right. exists n.
           apply Z.ltb_lt in E2. split; [exact E | lia].
        -- apply Z.ltb_ge in E1. apply Z.ltb_ge in E2.
           exists n. simpl. repeat split; (reflexivity || lia).
Qed.

Lemma parseQuality_leading_integer_or_default_witness :
  Js.ToString (Js.Str "50abc") = "50" ++ "abc" /\
  "50" <> "" /\ allDecimal "50" = true /\ startsWithDecimal "abc" = false /\
  decimalValue "50" = 50 /\ 1 <= 50 <= 100 /\
  parseQuality (Js.Str "50abc") (Js.Int 80) = Js.Int 50 /\
  unusableQuality (Js.Str "abc") /\
  parseQuality (Js.Str "abc") (Js.Int 80) = Js.Int 80 /\
  ~ unusableQuality (Js.Str "50.7") /\
  (exists n, Js.parseInt (Js.Str "50.7") None = Js.Int n /\ 1 <= n <= 100 /\
             parseQuality (Js.Str "50.7") (Js.Int 80) = Js.Int n).
Proof.
  assert (Hbad : unusableQuality (Js.Str "abc")) by (left; reflexivity).
  assert (Hgood : ~ unusableQuality (Js.Str "50.7")).
  { intros [H | (n & H & Hn)]; vm_compute in H; [discriminate|].
    injection H as <-. lia. }
  split; [reflexivity|]. split; [discriminate|]. split; [reflexivity|].
  split; [reflexivity|]. split; [reflexivity|]. split; [lia|].
  split.
  { apply (proj1 (parseQuality_leading_integer_or_default
                    (Js.Str "50abc") (Js.Int 80)) "50" "abc" 50);
      (reflexivity || discriminate || lia). }
  split; [exact Hbad|].
  split.
  { apply (proj1 (proj2 (parseQuality_leading_integer_or_default
                           (Js.Str "abc") (Js.Int 80)))), Hbad. }
  split; [exact Hgood|].
  apply (proj2 (proj2 (parseQuality_leading_integer_or_default
                         (Js.Str "50.7") (Js.Int 80)))), Hgood.
Defined.

Example parseQuality_50_7 :
  parseQuality (Js.Str "50.7") (Js.Int 80) = Js.Int 50.
Proof. reflexivity. Qed.

Example parseQuality_hex :
  parseQuality (Js.Str "0x10") (Js.Int 80) = Js.Int 16.
Proof. reflexivity. Qed.

Example parseQuality_padded :
  parseQuality (Js.Str " 42") (Js.Int 80) = Js.Int 42.
Proof. reflexivity. Qed.

Example parseQuality_500 :
  parseQuality (Js.Str "500") (Js.Int 80) = Js.Int 80.
Proof. reflexivity. Qed.

(** ** Runs of the handlers *)

Lemma existsb_eqb_In (x : string) (l : list string) :
  existsb (String.eqb x) l = true <-> In x l.
Proof.
  rewrite existsb_exists. split.
  - intros (y & Hy & Heq). apply String.eqb_eq in Heq. subst. exact Hy.
  - intros H. exists x. split; [exact H | apply String.eqb_refl].
Qed.

Lemma compressCatch_run (e : Js.Error) (tr : Trace) :
  compressCatch e tr = (inr (catchReply e), (tr ++ [LogError e])%list).
Proof.
  unfold compressCatch, catchReply. unfold_monad.
  destruct (Js.includes (Js.message e) "Compression failed"); reflexivity.
Qed.

Lemma validate_accepted (config : Config) (w : World) (f : MultipartFile) :
  isValid (validateFileUpload w (Some f) (upload_maxSize config)
             (upload_allowedMimeTypes config)) = accepted config f.
Proof.
  unfold validateFileUpload, accepted.
  destruct (existsb _ _); simpl; [|reflexivity].
  destruct (Js.gt _ _); reflexivity.
Qed.

Lemma compress_no_file (handler : Handler) (config : Config) (w : World)
    (request : Request) (tr : Trace) :
  handler = RoutesV1.compress \/ handler = RoutesV2.compress ->
  request_file request = inr None ->
  handler config w request tr = (inr (refusal "No file provided"), tr).
Proof.
  intros [-> | ->] Hfile;
    unfold RoutesV1.compress, RoutesV2.compress; unfold_monad;
    rewrite Hfile; reflexivity.
Qed.

Lemma compress_file_throws (handler : Handler) (config : Config) (w : World)
    (request : Request) (e : Js.Error) (tr : Trace) :
  handler = RoutesV1.compress \/ handler = RoutesV2.compress ->
  request_file request = inl e ->
  handler config w request tr = (inl e, tr).
Proof.
  intros [-> | ->] Hfile;
    unfold RoutesV1.compress, RoutesV2.compress; unfold_monad;
    rewrite Hfile; reflexivity.
Qed.

Lemma compress_rejected (handler : Handler) (config : Config) (w : World)
    (request : Request) (f : MultipartFile) (tr : Trace) :
  handler = RoutesV1.compress \/ handler = RoutesV2.compress ->
  request_file request = inr (Some f) ->
  accepted config f = false ->
  handler config w request tr =
  (inr (invalidFile
          (validateFileUpload w (Some f) (upload_maxSize config)
             (upload_allowedMimeTypes config))), tr).
Proof.
  intros [-> | ->] Hfile Hacc;
    unfold RoutesV1.compress, RoutesV2.compress;
    unfold bind at 1; unfold settle at 1; rewrite Hfile; unfold ret at 1;
    rewrite validate_accepted, Hacc; reflexivity.
Qed.

Lemma compressImage_run (config : Config) (w : World) (image : list byte)
    (quality format : Js.Val) (tr : Trace) :
  let url := rust_serviceUrl config ++ "/compress" in
  let headers :=
    (("Content-Type", "application/octet-stream")
       :: CompressionService.qualityHeader quality
       ++ CompressionService.formatHeader format)%list in
  CompressionService.compressImage config w (FromBuffer image) quality format
    tr =
  (match net_fetch w url "POST" headers image with
   | inl e => inl e
   | inr response =>
       if ok response then inr (body response)
       else inl (Js.newError ("Compression failed: " ++ text response))
   end,
   (tr ++ [Fetch url "POST" headers image])%list).
Proof.
  cbv zeta. unfold CompressionService.compressImage, fetch_body.
  unfold_monad.
  destruct (net_fetch w _ _ _ _) as [e | response]; [reflexivity|].
  unfold ret. cbv beta iota. destruct (ok response); reflexivity.
Qed.

(** A stream never leaves the process: [fetch] refuses it. *)
Lemma compressImage_stream (config : Config) (w : World) (s : FileStream)
    (quality format : Js.Val) (tr : Trace) :
  CompressionService.compressImage config w (FromStream s) quality format tr
  = (inl duplexRequired, tr).
Proof.
  reflexivity.
Qed.

Lemma uploadFile_run (config : Config) (w : World) (buffer : list byte)
    (name contentType : string) (tr : Trace) :
  let filePath := supabase_uploadPath config ++ "/" ++ name in
  SupabaseService.uploadFile config w buffer name contentType tr =
  (match storage_upload w (supabase_bucket config) filePath buffer
           contentType with
   | inl msg => inl (Js.newError ("Supabase upload failed: " ++ msg))
   | inr path =>
       inr (uploadResultOf config w filePath path buffer contentType)
   end,
   (tr ++ [StorageUpload (supabase_bucket config) filePath buffer
             contentType])%list).
Proof.
  cbv zeta. unfold SupabaseService.uploadFile, uploadResultOf. unfold_monad.
  destruct (storage_upload w _ _ _ _); reflexivity.
Qed.

Lemma catchReply_duplexRequired : catchReply duplexRequired = streamRefused.
Proof.
  reflexivity.
Qed.

(** The first definition on an accepted upload with a file name. *)
Lemma compress_v1_run (config : Config) (w : World) (request : Request)
    (f : MultipartFile) (name : string) (tr : Trace) :
  request_file request = inr (Some f) ->
  accepted config f = true ->
  filename f = Some name ->
  RoutesV1.compress config w request tr =
  (inr streamRefused, (tr ++ [LogError duplexRequired])%list).
Proof.
  intros Hfile Hacc Hname. unfold RoutesV1.compress.
  unfold bind at 1. unfold settle at 1. rewrite Hfile. unfold ret at 1.
  rewrite validate_accepted, Hacc. cbn [negb].
  unfold bind at 1. rewrite Hname. cbn [generateUniqueFilenameOf settle].
  unfold ret at 1.
  unfold try_catch, bind. rewrite compressImage_stream, compressCatch_run.
  rewrite catchReply_duplexRequired. reflexivity.
Qed.

Lemma compress_v1_nameless (config : Config) (w : World) (request : Request)
    (f : MultipartFile) (tr : Trace) :
  request_file request = inr (Some f) ->
  accepted config f = true ->
  filename f = None ->
  RoutesV1.compress config w request tr = (inl ERR_INVALID_ARG_TYPE, tr).
Proof.
  intros Hfile Hacc Hname. unfold RoutesV1.compress.
  unfold bind at 1. unfold settle at 1. rewrite Hfile. unfold ret at 1.
  rewrite validate_accepted, Hacc. cbn [negb].
  unfold bind at 1. rewrite Hname. reflexivity.
Qed.

(** The second definition on an accepted upload that buffers and has a
    file name. *)
Lemma compress_v2_run (config : Config) (w : World) (request : Request)
    (f : MultipartFile) (name : string) (image : list byte) (tr : Trace) :
  request_file request = inr (Some f) ->
  accepted config f = true ->
  toBuffer f = inr image ->
  filename f = Some name ->
  RoutesV2.compress config w request tr =
  attempt config w request f name image tr.
Proof.
  intros Hfile Hacc Hbuf Hname. unfold RoutesV2.compress, attempt.
  unfold bind at 1. unfold settle at 1. rewrite Hfile. unfold ret at 1.
  rewrite validate_accepted, Hacc. cbn [negb].
  unfold bind at 1. unfold settle at 1. rewrite Hbuf. unfold ret at 1.
  unfold bind at 1. rewrite Hname. cbn [generateUniqueFilenameOf settle].
  unfold ret at 1.
  unfold try_catch, bind. rewrite compressImage_run.
  fold (compressHeaders request).
  destruct (net_fetch w _ _ _ _) as [e | response].
  - rewrite compressCatch_run, <- app_assoc. reflexivity.
  - destruct (ok response).
    + rewrite uploadFile_run.
      destruct (storage_upload w _ _ _ _) as [msg | path].
      * rewrite compressCatch_run, <- !app_assoc. reflexivity.
      * unfold ret. rewrite <- app_assoc. reflexivity.
    + rewrite compressCatch_run, <- app_assoc. reflexivity.
Qed.

Lemma compress_v2_buffer_throws (config : Config) (w : World)
    (request : Request) (f : MultipartFile) (e : Js.Error) (tr : Trace) :
  request_file request = inr (Some f) ->
  accepted config f = true ->
  toBuffer f = inl e ->
  RoutesV2.compress config w request tr = (inl e, tr).
Proof.
  intros Hfile Hacc Hbuf. unfold RoutesV2.compress.
  unfold bind at 1. unfold settle at 1. rewrite Hfile. unfold ret at 1.
  rewrite validate_accepted, Hacc. cbn [negb].
  unfold bind at 1. unfold settle at 1. rewrite Hbuf. reflexivity.
Qed.

Lemma compress_v2_nameless (config : Config) (w : World) (request : Request)
    (f : MultipartFile) (image : list byte) (tr : Trace) :
  request_file request = inr (Some f) ->
  accepted config f = true ->
  toBuffer f = inr image ->
  filename f = None ->
  RoutesV2.compress config w request tr = (inl ERR_INVALID_ARG_TYPE, tr).
Proof.
  intros Hfile Hacc Hbuf Hname. unfold RoutesV2.compress.
  unfold bind at 1. unfold settle at 1. rewrite Hfile. unfold ret at 1.
  rewrite validate_accepted, Hacc. cbn [negb].
  unfold bind at 1. unfold settle at 1. rewrite Hbuf. unfold ret at 1.
  unfold bind at 1. rewrite Hname. reflexivity.
Qed.

(** The ways the [try] block of the second definition can end, with the
    calls it made. *)
Lemma attempt_ends (config : Config) (w : World) (request : Request)
    (f : MultipartFile) (name : string) (image : list byte) (tr : Trace) :
  let url := rust_serviceUrl config ++ "/compress" in
  let call := Fetch url "POST" (compressHeaders request) image in
  let filePath :=
    supabase_uploadPath config ++ "/" ++ generateUniqueFilename w name in
  (exists e,
      attempt config w request f name image tr =
      (inr (catchReply e), (tr ++ [call; LogError e])%list) /\
      (net_fetch w url "POST" (compressHeaders request) image = inl e \/
       exists response,
         net_fetch w url "POST" (compressHeaders request) image = inr response
         /\ ok response = false
         /\ e = Js.newError ("Compression failed: " ++ text response))) \/
  (exists response,
      net_fetch w url "POST" (compressHeaders request) image = inr response /\
      ok response = true /\
      let upload :=
        StorageUpload (supabase_bucket config) filePath (body response)
          (mimetype f) in
      (exists msg,
          storage_upload w (supabase_bucket config) filePath (body response)
            (mimetype f) = inl msg /\
          attempt config w request f name image tr =
          (inr (catchReply (Js.newError ("Supabase upload failed: " ++ msg))),
           (tr ++ [call; upload;
                   LogError (Js.newError ("Supabase upload failed: " ++ msg))])
           %list)) \/
      (exists path,
          storage_upload w (supabase_bucket config) filePath (body response)
            (mimetype f) = inr path /\
          attempt config w request f name image tr =
          (inr (jpegReply (body response)), (tr ++ [call; upload])%list))).
Proof.
  cbv zeta. unfold attempt. cbv zeta.
  destruct (net_fetch w _ _ _ _) as [e | response].
  - left. exists e. split; [reflexivity | left; reflexivity].
  - destruct (ok response) eqn:Hok.
    + right. exists response. split; [reflexivity|]. split; [exact Hok|].
      destruct (storage_upload w _ _ _ _) as [msg | path].
      * left. exists msg. split; reflexivity.
      * right. exists path. split; reflexivity.
    + left. eexists. split; [reflexivity|]. right. exists response.
      repeat split. exact Hok.
Qed.

(** Every run of a handler: the promise of the upload is rejected, the
    upload is refused, its buffer or its name is missing, or the [try]
    block runs. *)
Lemma compress_dispatch (handler : Handler) (config : Config) (w : World)
    (request : Request) (tr : Trace) :
  handler = RoutesV1.compress \/ handler = RoutesV2.compress ->
  (exists e,
      handler config w request tr = (inl e, tr) /\
      (request_file request = inl e \/
       exists f, request_file request = inr (Some f) /\
                 accepted config f = true /\
                 ((handler = RoutesV2.compress /\ toBuffer f = inl e) \/
                  ((handler = RoutesV1.compress \/
                    exists image, toBuffer f = inr image) /\
                   filename f = None /\ e = ERR_INVALID_ARG_TYPE)))) \/
  (exists data,
      request_file request = inr data /\
      match data with Some f => accepted config f = false | None => True end /\
      handler config w request tr =
      (inr (invalidFile
              (validateFileUpload w data (upload_maxSize config)
                 (upload_allowedMimeTypes config))), tr)) \/
  (exists f name,
      request_file request = inr (Some f) /\
      accepted config f = true /\
      filename f = Some name /\
      ((handler = RoutesV1.compress /\
        handler config w request tr =
        (inr streamRefused, (tr ++ [LogError duplexRequired])%list)) \/
       (handler = RoutesV2.compress /\
        exists image,
          toBuffer f = inr image /\
          handler config w request tr =
          attempt config w request f name image tr))).
Proof.
  intros Hh.
  destruct (request_file request) as [e | [f |]] eqn:Hfile.
  - left. exists e. split; [|left; reflexivity].
    apply compress_file_throws; assumption.
  - destruct (accepted config f) eqn:Hacc.
    + destruct Hh as [-> | ->].
      * destruct (filename f) as [name |] eqn:Hname.
        -- right. right. exists f, name. repeat split; try assumption.
           left. split; [reflexivity|].
           apply (compress_v1_run config w request f name); assumption.
        -- left. exists ERR_INVALID_ARG_TYPE. split.
           ++ apply (compress_v1_nameless config w request f); assumption.
           ++ right. exists f. repeat split; try assumption.
              right. split; [left; reflexivity|]. split; [assumption|].
              reflexivity.
      * destruct (toBuffer f) as [e | image] eqn:Hbuf.
        -- left. exists e. split.
           ++ apply (compress_v2_buffer_throws config w request f e tr);
                assumption.
           ++ right. exists f. repeat split; try assumption.
              left. split; [reflexivity | assumption].
        -- destruct (filename f) as [name |] eqn:Hname.
           ++ right. right. exists f, name. repeat split; try assumption.
              right. split; [reflexivity|]. exists image.
              split; [assumption|].
              apply (compress_v2_run config w request f name image);
                assumption.
           ++ left. exists ERR_INVALID_ARG_TYPE. split.
              ** apply (compress_v2_nameless config w request f image tr);
                   assumption.
              ** right. exists f. repeat split; try assumption.
                 right. split; [right; exists image; assumption|].
                 split; [assumption | reflexivity].
    + right. left. exists (Some f). split; [reflexivity|].
      split; [exact Hacc|]. apply compress_rejected; assumption.
  - right. left. exists None. split; [reflexivity|]. split; [exact I|].
    apply compress_no_file; assumption.
Qed.

(** *** Requests as the server delivers them *)

(** With a limit that is not negative, the count of a delivered part
    never exceeds it: the size check of [validateFileUpload] passes. *)
Lemma counted_within (m n : Z) :
  0 <= m -> 0 <= n ->
  Js.gt (Js.Int (Server.counted (Js.Int m) n)) (Js.Int m) = false.
Proof.
  intros Hm Hn. unfold Server.counted, Js.gt, Js.lt.
  destruct (0 <? n) eqn:E1; destruct (m <? n) eqn:E2; cbn [andb];
    apply Z.ltb_ge; try apply Z.ltb_lt in E1; try apply Z.ltb_ge in E1;
    try apply Z.ltb_lt in E2; try apply Z.ltb_ge in E2; lia.
Qed.

Lemma served_size_check (m : Z) (p : Server.FilePart) :
  0 <= m ->
  Js.gt (Js.Int (bytesRead (file (Server.multipartFile (Js.Int m) p))))
    (Js.Int m) = false.
Proof.
  intros Hm. cbn [Server.multipartFile file bytesRead].
  apply counted_within; lia.
Qed.

Lemma served_accepted (config : Config) (p : Server.FilePart) (m : Z) :
  upload_maxSize config = Js.Int m -> 0 <= m ->
  accepted config (Server.multipartFile (upload_maxSize config) p) =
  existsb (String.eqb (Server.part_mimetype p)) (upload_allowedMimeTypes config).
Proof.
  intros Hmax Hm. unfold accepted. rewrite Hmax.
  rewrite (served_size_check m p Hm). cbn [negb mimetype Server.multipartFile].
  apply andb_true_r.
Qed.

(** The refusal of a delivered part can only be for its type. *)
Lemma served_refusal (config : Config) (w : World) (p : Server.FilePart)
    (m : Z) :
  upload_maxSize config = Js.Int m -> 0 <= m ->
  accepted config (Server.multipartFile (upload_maxSize config) p) = false ->
  invalidFile
    (validateFileUpload w
       (Some (Server.multipartFile (upload_maxSize config) p))
       (upload_maxSize config) (upload_allowedMimeTypes config))
  = invalidType config.
Proof.
  intros Hmax Hm Hacc. rewrite (served_accepted config p m Hmax Hm) in Hacc.
  unfold validateFileUpload. cbn [mimetype Server.multipartFile].
  rewrite Hacc. reflexivity.
Qed.

(** The second route, case by case. *)
Lemma compressV2_run (config : Config) (w : World) (i : Server.Incoming) :
  Server.compressV2 config w i =
  match i with
  | Server.NotMultipart _ =>
      (Server.Thrown Server.InvalidMultipartContentTypeError, [])
  | Server.Multipart _ None => (Server.Sent (refusal "No file provided"), [])
  | Server.Multipart _ (Some p) =>
      let f := Server.multipartFile (upload_maxSize config) p in
      if accepted config f then
        if Server.truncated (upload_maxSize config) p then
          (Server.Thrown Server.RequestFileTooLargeError, [])
        else
          match Server.part_filename p with
          | None => (Server.Thrown ERR_INVALID_ARG_TYPE, [])
          | Some name =>
              Server.answered
                (attempt config w (Server.request config i) f name
                   (Server.part_bytes p) [])
          end
      else
        (Server.Sent
           (invalidFile
              (validateFileUpload w (Some f) (upload_maxSize config)
                 (upload_allowedMimeTypes config))), [])
  end.
Proof.
  unfold Server.compressV2, run.
  destruct i as [fields [p |] | body].
  - cbv zeta.
    set (f := Server.multipartFile (upload_maxSize config) p).
    assert (Hfile : request_file
                      (Server.request config (Server.Multipart fields (Some p)))
                    = inr (Some f)) by reflexivity.
    destruct (accepted config f) eqn:Hacc.
    + destruct (Server.truncated (upload_maxSize config) p) eqn:Htr.
      * rewrite (compress_v2_buffer_throws config w _ f
                   Server.RequestFileTooLargeError [] Hfile Hacc);
          [reflexivity|].
        subst f. cbn [toBuffer Server.multipartFile]. rewrite Htr. reflexivity.
      * assert (Hbuf : toBuffer f = inr (Server.part_bytes p)).
        { subst f. cbn [toBuffer Server.multipartFile]. rewrite Htr.
          reflexivity. }
        destruct (Server.part_filename p) as [name |] eqn:Hname.
        -- rewrite (compress_v2_run config w _ f name (Server.part_bytes p) []
                      Hfile Hacc Hbuf Hname). reflexivity.
        -- rewrite (compress_v2_nameless config w _ f (Server.part_bytes p) []
                      Hfile Hacc Hbuf Hname). reflexivity.
    + rewrite (compress_rejected RoutesV2.compress config w _ f []
                 (or_intror eq_refl) Hfile Hacc). reflexivity.
  - rewrite (compress_no_file RoutesV2.compress config w
               (Server.request config (Server.Multipart fields None)) []
               (or_intror eq_refl) eq_refl). reflexivity.
  - rewrite (compress_file_throws RoutesV2.compress config w
               (Server.request config (Server.NotMultipart body))
               Server.InvalidMultipartContentTypeError []
               (or_intror eq_refl) eq_refl). reflexivity.
Qed.

(** The first route, case by case: its schema refuses every multipart
    request, and what the schema lets through is not multipart. *)
Lemma compressV1_run (config : Config) (w : World) (i : Server.Incoming) :
  Server.compressV1 config w i =
  match i with
  | Server.Multipart _ _ => (Server.Invalid, [])
  | Server.NotMultipart body =>
      if Server.bodySchema w body
      then (Server.Thrown Server.InvalidMultipartContentTypeError, [])
      else (Server.Invalid, [])
  end.
Proof.
  unfold Server.compressV1, run.
  destruct i as [fields part | body]; [reflexivity|].
  change (request_body (Server.request config (Server.NotMultipart body)))
    with body.
  destruct (Server.bodySchema w body); [|reflexivity].
  rewrite (compress_file_throws RoutesV1.compress config w
             (Server.request config (Server.NotMultipart body))
             Server.InvalidMultipartContentTypeError []
             (or_introl eq_refl) eq_refl). reflexivity.
Qed.

Lemma served_headers (config : Config) (fields : list (string * string))
    (part : option Server.FilePart) :
  compressHeaders (Server.request config (Server.Multipart fields part))
  = [("Content-Type", "application/octet-stream")].
Proof.
  reflexivity.
Qed.

(** ** Error payloads *)

Lemma prefix_app (p s : string) : String.prefix p (p ++ s) = true.
Proof.
  induction p as [|c p IH]; simpl.
  - destruct s; reflexivity.
  - destruct (ascii_dec c c) as [_ | Hneq]; [exact IH | congruence].
Qed.

Lemma includes_prefix (p s : string) : Js.includes (p ++ s) p = true.
Proof.
  assert (H : forall a b, String.prefix b a = true -> Js.includes a b = true).
  { intros a b Hp. destruct a; cbn [Js.includes]; rewrite Hp; reflexivity. }
  apply H, prefix_app.
Qed.

Lemma spread_falsy (v : Js.Val) : Js.truthy v = false -> Js.spread v = [].
Proof.
  destruct v as [| |b|n|s|b|l|fs]; cbn [Js.truthy]; try discriminate;
    try reflexivity.
  destruct (String.eqb_spec s ""); [subst; reflexivity | discriminate].
Qed.

Lemma createErrorResponse_fields (message details code : Js.Val) :
  createErrorResponse message details code =
  Js.Obj
    (Js.assign
       (Js.assign [("error", Js.Bool true); ("message", message)]
          (if Js.truthy details then [("details", details)] else []))
       (if Js.truthy code then [("code", code)] else [])).
Proof.
  assert (Hdefault : forall v,
            Js.spread
              (and_then match v with Js.Undefined => Js.Null | x => x end
                 (Js.Obj [("details",
                           match v with Js.Undefined => Js.Null | x => x end)]))
            = if Js.truthy v then [("details", v)] else []).
  { intros v. unfold and_then.
    destruct (Js.truthy v) eqn:Hv.
    - destruct v; try discriminate Hv; cbn [Js.truthy] in *; rewrite ?Hv;
        reflexivity.
    - destruct v; try (cbn [Js.truthy] in *; rewrite ?Hv;
                       apply spread_falsy; cbn [Js.truthy]; auto);
        reflexivity. }
  assert (Hcode : forall v,
            Js.spread
              (and_then match v with Js.Undefined => Js.Null | x => x end
                 (Js.Obj [("code",
                           match v with Js.Undefined => Js.Null | x => x end)]))
            = if Js.truthy v then [("code", v)] else []).
  { intros v. unfold and_then.
    destruct (Js.truthy v) eqn:Hv.
    - destruct v; try discriminate Hv; cbn [Js.truthy] in *; rewrite ?Hv;
        reflexivity.
    - destruct v; try (cbn [Js.truthy] in *; rewrite ?Hv;
                       apply spread_falsy; cbn [Js.truthy]; auto);
        reflexivity. }
  unfold createErrorResponse. rewrite Hdefault, Hcode. reflexivity.
Qed.

(** An error response is an object with [error: true] and the message;
    truthy details are carried under [details]. *)
Lemma createErrorResponse_shape (message details code : Js.Val) :
  exists fields,
    createErrorResponse message details code = Js.Obj fields /\
    Js.get "error" fields = Js.Bool true /\
    Js.get "message" fields = message /\
    (Js.truthy details = true -> Js.get "details" fields = details) /\
    (Js.truthy details = false -> Js.has "details" fields = false).
Proof.
  rewrite createErrorResponse_fields.
  eexists. split; [reflexivity|].
  destruct (Js.truthy details), (Js.truthy code);
    repeat split; intros; try reflexivity; try discriminate.
Qed.

Lemma catchReply_code (e : Js.Error) : reply_code (catchReply e) = 500.
Proof.
  unfold catchReply. destruct (Js.includes _ _); reflexivity.
Qed.

Lemma catchReply_compression (s : string) :
  catchReply (Js.newError ("Compression failed" ++ s)) =
  mkReply 500 []
    (createErrorResponse (Js.Str "Compression failed")
       (Js.Str ("Compression failed" ++ s)) (Js.Str "COMPRESSION_ERROR")).
Proof.
  unfold catchReply. cbn [Js.message Js.newError].
  rewrite includes_prefix. reflexivity.
Qed.

(** ** Upload size limit *)

Lemma loadConfig_upload_defaults (w : World) (c : Config) :
  loadConfig w = inr c ->
  (process_env w "MAX_FILE_SIZE" = None ->
   upload_maxSize c = Js.Int 10485760) /\
  (process_env w "DEFAULT_QUALITY" = None ->
   upload_defaultQuality c = Js.Int 80).
Proof.
  unfold loadConfig. intros H.
  destruct (String.eqb (env_or w "SUPABASE_URL" "") ""); [discriminate|].
  destruct (String.eqb (env_or w "SUPABASE_KEY" "") ""); [discriminate|].
  injection H as <-. cbn [upload_maxSize upload_defaultQuality].
  unfold env_or. split; intros ->; reflexivity.
Qed.

Lemma not_existsb_eqb (x : string) (l : list string) :
  ~ In x l -> existsb (String.eqb x) l = false.
Proof.
  intros Hnot. destruct (existsb (String.eqb x) l) eqn:E; [|reflexivity].
  apply existsb_eqb_In in E. contradiction.
Qed.

Lemma truncated_over (config : Config) (p : Server.FilePart) (m : Z) :
  upload_maxSize config = Js.Int m ->
  Server.truncated (upload_maxSize config) p = (m <? Server.size p).
Proof.
  intros ->. reflexivity.
Qed.

(** C2, as it holds on the code.  A multipart request whose file part is of
    an allowed MIME type and holds more bytes than the configured maximum
    (a maximum that is not negative; 10485760 when MAX_FILE_SIZE is unset),
    be it by a single byte, is rejected by the second definition before any
    call: buffering the upload fails with the "request file too large"
    error of the multipart plugin, which the handler lets through and the
    framework answers with status 413, unlike any failed compression (500).
    The size check of [validateFileUpload] does not reject it, because the
    plugin, registered with that maximum as its limit, never counts more
    bytes than the limit.  An oversized part of a MIME type that is not
    allowed is answered 400 with the invalid-type detail.  The first
    definition refuses the request, like every multipart request, by its
    body schema. *)
Theorem oversized_upload_is_rejected
    (config : Config) (w : World) (fields : list (string * string))
    (part : Server.FilePart) (m : Z) :
  upload_maxSize config = Js.Int m -> 0 <= m -> m < Server.size part ->
  let i := Server.Multipart fields (Some part) in
  (In (Server.part_mimetype part) (upload_allowedMimeTypes config) ->
   Server.compressV2 config w i =
   (Server.Thrown Server.RequestFileTooLargeError, []) /\
   Server.statusOf (fst (Server.compressV2 config w i)) = 413) /\
  (~ In (Server.part_mimetype part) (upload_allowedMimeTypes config) ->
   Server.compressV2 config w i = (Server.Sent (invalidType config), [])) /\
  (forall p,
      Js.gt
        (Js.Int (bytesRead (file (Server.multipartFile (upload_maxSize config) p))))
        (upload_maxSize config) = false) /\
  Server.compressV1 config w i = (Server.Invalid, []) /\
  (forall c, loadConfig w = inr c -> process_env w "MAX_FILE_SIZE" = None ->
             upload_maxSize c = Js.Int 10485760).
Proof.
  intros Hmax Hm Hover. cbv zeta.
  assert (Htr : Server.truncated (upload_maxSize config) part = true).
  { rewrite (truncated_over config part m Hmax). apply Z.ltb_lt, Hover. }
  split; [|split; [|split; [|split]]].
  - intros Hin.
    assert (Hrun : Server.compressV2 config w
                     (Server.Multipart fields (Some part)) =
                   (Server.Thrown Server.RequestFileTooLargeError, [])).
    { rewrite compressV2_run. cbv zeta.
      rewrite (served_accepted config part m Hmax Hm).
      rewrite (proj2 (existsb_eqb_In _ _) Hin), Htr. reflexivity. }
    split; [exact Hrun|]. rewrite Hrun. reflexivity.
  - intros Hnot. rewrite compressV2_run. cbv zeta.
    assert (Hacc : accepted config
                     (Server.multipartFile (upload_maxSize config) part)
                   = false).
    { rewrite (served_accepted config part m Hmax Hm).
      apply not_existsb_eqb, Hnot. }
    rewrite Hacc, (served_refusal config w part m Hmax Hm Hacc). reflexivity.
  - intros p. rewrite Hmax. apply served_size_check, Hm.
  - apply compressV1_run.
  - intros c Hc Henv. apply (loadConfig_upload_defaults w c Hc), Henv.
Qed.

Lemma oversized_upload_is_rejected_witness :
  let config := Sample.configOf Sample.tight in
  let w := Fixture.world (Fixture.respond 200 "jpeg") in
  upload_maxSize config = Js.Int 4 /\ 0 <= 4 /\
  4 < Server.size (Fixture.part "image/png") /\
  In "image/png" (upload_allowedMimeTypes config) /\
  Server.compressV2 config w (Fixture.incoming "image/png") =
  (Server.Thrown Server.RequestFileTooLargeError, []).
Proof.
  cbv zeta.
  assert (Hm : 0 <= 4) by lia.
  assert (Hover : 4 < Server.size (Fixture.part "image/png")) by reflexivity.
  assert (Hin : In "image/png"
                  (upload_allowedMimeTypes (Sample.configOf Sample.tight))).
  { right. left. reflexivity. }
  split; [reflexivity|]. split; [exact Hm|]. split; [exact Hover|].
  split; [exact Hin|].
  exact (proj1 (proj1 (oversized_upload_is_rejected
                         (Sample.configOf Sample.tight)
                         (Fixture.world (Fixture.respond 200 "jpeg"))
                         [("quality", "85")] (Fixture.part "image/png") 4
                         eq_refl Hm Hover) Hin)).
Defined.

(** C2, as the specification states it, does not hold: an oversized upload of
    a MIME type that is not allowed gets the invalid-type reply of the second
    definition, and the schema refusal of the first, not an oversized-payload
    error. *)
Lemma oversized_text_file_is_rejected_for_its_type :
  ~ OversizedGetsTooLarge Server.compressV1 /\
  ~ OversizedGetsTooLarge Server.compressV2.
Proof.
  assert (Hover : 4 < Server.size (Fixture.part "text/plain")) by reflexivity.
  split; intros H;
    destruct (H (Sample.configOf Sample.tight)
                (Fixture.world (Fixture.respond 200 "jpeg"))
                [] (Fixture.part "text/plain") 4 eq_refl Hover)
      as (a & Hrun & [Ha | Ha]);
    subst a; vm_compute in Hrun; discriminate Hrun.
Qed.

Example text_file_reply :
  Server.compressV2 (Sample.configOf Sample.tight)
    (Fixture.world (Fixture.respond 200 "jpeg"))
    (Fixture.incoming "text/plain") =
  (Server.Sent
     (mkReply 400 []
        (Js.Obj [("error", Js.Bool true);
                 ("message", Js.Str "Invalid file");
                 ("details",
                  Js.Str "Invalid file type. Allowed types: image/jpeg, image/png, image/webp");
                 ("code", Js.Str "VALIDATION_ERROR")])), []).
Proof. reflexivity. Qed.

Example upload_within_the_limit_is_buffered :
  toBuffer (Fixture.upload "image/png") = inr Fixture.png /\
  bytesRead (file (Fixture.upload "image/png")) = 8.
Proof. split; reflexivity. Qed.

Example upload_over_the_limit_is_cut :
  let f :=
    Server.multipartFile (Js.Int 4) (Fixture.part "image/png") in
  toBuffer f = inl Server.RequestFileTooLargeError /\
  bytesRead (file f) = 4 /\
  content (file f) = [x89; x50; x4e; x47].
Proof. repeat split. Qed.

(** ** The quality parameter *)



(** The second route handles a request in the same way whatever quality
    it carries. *)
Lemma served_quality_irrelevant (config : Config) (w : World)
    (i : Server.Incoming) (quality quality' : Js.Val) :
  Server.compressV2 config w (withQuality i quality) =
  Server.compressV2 config w (withQuality i quality').
Proof.
  destruct i as [fields part | body]; [reflexivity|].
  cbn [withQuality]. rewrite !compressV2_run. reflexivity.
Qed.




(** On the second definition the statement of the specification holds. *)
Lemma second_definition_defaults_the_quality :
  QualityDefaulted Server.compressV2.
Proof.
  intros config w i quality _. apply served_quality_irrelevant.
Qed.

Example quality_field_is_not_forwarded :
  snd (Server.compressV2 Fixture.config
         (Fixture.world (Fixture.respond 200 "jpeg"))
         (Server.Multipart [("quality", "101")]
            (Some (Fixture.part "image/png")))) =
  [Fetch "http://rust-compressor-service:8000/compress" "POST"
     [("Content-Type", "application/octet-stream")] Fixture.png;
   StorageUpload "images" "compressed/photo-1700000000000-00112233445566ff.png"
     (list_byte_of_string "jpeg") "image/png"].
Proof. reflexivity. Qed.

Example schema_on_qualities :
  map (fun q =>
         Server.bodySchema (Fixture.world (Fixture.respond 200 "jpeg"))
           (Js.Obj [("quality", Js.Number (Js.Int q))]))
    [0; 1; 80; 100; 101] = [false; true; true; true; false] /\
  Server.bodySchema (Fixture.world (Fixture.respond 200 "jpeg")) Js.Undefined
  = false.
Proof. split; reflexivity. Qed.

Example parseQuality_of_the_spec_examples :
  map (fun q => parseQuality q (Js.Int 80))
    [Js.Number (Js.Int 0); Js.Number (Js.Int 101); Js.Str "abc";
     Js.Undefined; Js.Number (Js.Int 80)] =
  [Js.Int 80; Js.Int 80; Js.Int 80; Js.Int 80; Js.Int 80].
Proof. reflexivity. Qed.

(** ** Outcomes of a [/compress] request *)

Lemma catchReply_shape (e : Js.Error) :
  exists fields msg,
    reply_payload (catchReply e) = Js.Obj fields /\
    Js.get "error" fields = Js.Bool true /\
    Js.get "message" fields = Js.Str msg /\
    (Js.message e <> "" -> Js.get "details" fields = Js.Str (Js.message e)).
Proof.
  assert (Htruthy : Js.message e <> "" ->
                    Js.truthy (Js.Str (Js.message e)) = true).
  { intros Hne. cbn [Js.truthy].
    destruct (String.eqb_spec (Js.message e) ""); [contradiction | reflexivity]. }
  unfold catchReply.
  destruct (Js.includes _ _); cbn [reply_payload];
    match goal with
    | |- context [createErrorResponse ?m ?d ?c] =>
        destruct (createErrorResponse_shape m d c)
          as (fields & -> & Herr & Hmsg & Hdet & _)
    end;
    exists fields; eexists; repeat split; eauto.
Qed.

Lemma invalidFile_shape (v : Validation) :
  reply_code (invalidFile v) = 400 /\
  exists fields msg,
    reply_payload (invalidFile v) = Js.Obj fields /\
    Js.get "error" fields = Js.Bool true /\
    Js.get "message" fields = Js.Str msg.
Proof.
  split; [reflexivity|]. unfold invalidFile. cbn [reply_payload].
  destruct (createErrorResponse_shape (Js.Str "Invalid file") (error v)
              (Js.Str "VALIDATION_ERROR")) as (fields & -> & Herr & Hmsg & _).
  exists fields. eexists. repeat split; eauto.
Qed.

Lemma attempt_failed_compression (config : Config) (w : World)
    (request : Request) (f : MultipartFile) (name : string)
    (image : list byte) (response : Response) (tr : Trace) :
  net_fetch w (rust_serviceUrl config ++ "/compress") "POST"
    (compressHeaders request) image = inr response ->
  ok response = false ->
  fst (attempt config w request f name image tr) =
  inr (compressionFailed (text response)).
Proof.
  intros Hnet Hok. unfold attempt. cbv zeta. rewrite Hnet, Hok.
  cbn [fst].
  exact (f_equal inr (catchReply_compression (": " ++ text response))).
Qed.

(** A reply of the [try] block: 200 with the bytes, or 500 with an error
    payload. *)
Lemma attempt_reply (config : Config) (w : World) (request : Request)
    (f : MultipartFile) (name : string) (image : list byte) (tr : Trace) :
  exists r tr',
    attempt config w request f name image tr = (inr r, tr') /\
    ((reply_code r = 200 /\
      exists response,
        net_fetch w (rust_serviceUrl config ++ "/compress") "POST"
          (compressHeaders request) image = inr response /\
        ok response = true /\ r = jpegReply (body response)) \/
     (reply_code r = 500 /\
      exists fields msg,
        reply_payload r = Js.Obj fields /\
        Js.get "error" fields = Js.Bool true /\
        Js.get "message" fields = Js.Str msg)).
Proof.
  assert (Hcatch : forall e,
             reply_code (catchReply e) = 500 /\
             exists fields msg,
               reply_payload (catchReply e) = Js.Obj fields /\
               Js.get "error" fields = Js.Bool true /\
               Js.get "message" fields = Js.Str msg).
  { intros e. split; [apply catchReply_code|].
    destruct (catchReply_shape e) as (fields & msg & H1 & H2 & H3 & _).
    exists fields, msg. repeat split; assumption. }
  destruct (attempt_ends config w request f name image tr)
    as [(e & -> & _)
       | (response & Hnet & Hok & [(msg & _ & ->) | (path & _ & ->)])];
    do 2 eexists; (split; [reflexivity|]).
  - right. apply Hcatch.
  - right. apply Hcatch.
  - left. split; [reflexivity|]. exists response. repeat split; assumption.
Qed.

(** C4, as it holds on the code.  A [/compress] request to the second
    definition ends in one of two ways.  The handler throws, having made no
    call, and leaves the answer to the framework: when the request is not
    multipart (status 406), when the accepted upload exceeds the size limit
    (413), and when its part has no file name (a TypeError, 500).  Otherwise
    it replies with status 200, 400 or 500, and every reply other than 200
    carries a structured error payload ([error: true] and a message);
    status 400 is sent exactly when the upload is missing or fails
    validation.  Every failure of the pipeline is answered with status 500:
    whatever status the compression service answered with, a client-error
    status for undecodable input included, the reply is 500 "Compression
    failed" with the text of the service; the status does not tell a decode
    failure from any other failure of the service.  The first definition
    sends no reply of its own: its schema refuses the request (400) or
    its handler throws (406). *)
Theorem pipeline_failures_reply_500
    (config : Config) (w : World) (i : Server.Incoming) (m : Z) :
  upload_maxSize config = Js.Int m ->
  let a := fst (Server.compressV2 config w i) in
  let tr := snd (Server.compressV2 config w i) in
  (forall r, a = Server.Sent r ->
             (reply_code r = 200 \/ reply_code r = 400 \/ reply_code r = 500) /\
             (reply_code r <> 200 ->
              exists fields msg,
                reply_payload r = Js.Obj fields /\
                Js.get "error" fields = Js.Bool true /\
                Js.get "message" fields = Js.Str msg)) /\
  ((exists r, a = Server.Sent r /\ reply_code r = 400) <->
   exists fields part,
     i = Server.Multipart fields part /\
     match part with
     | Some p =>
         accepted config (Server.multipartFile (upload_maxSize config) p)
         = false
     | None => True
     end) /\
  (forall e,
      a = Server.Thrown e ->
      tr = [] /\
      ((exists body,
           i = Server.NotMultipart body /\
           e = Server.InvalidMultipartContentTypeError) \/
       (exists fields p,
           i = Server.Multipart fields (Some p) /\
           accepted config (Server.multipartFile (upload_maxSize config) p)
           = true /\
           ((Server.truncated (upload_maxSize config) p = true /\
             e = Server.RequestFileTooLargeError) \/
            (Server.truncated (upload_maxSize config) p = false /\
             Server.part_filename p = None /\
             e = ERR_INVALID_ARG_TYPE))))) /\
  a <> Server.Invalid /\
  In (Server.statusOf a) [200; 400; 406; 413; 500] /\
  (forall fields p name response,
      i = Server.Multipart fields (Some p) ->
      accepted config (Server.multipartFile (upload_maxSize config) p) = true ->
      Server.truncated (upload_maxSize config) p = false ->
      Server.part_filename p = Some name ->
      net_fetch w (rust_serviceUrl config ++ "/compress") "POST"
        [("Content-Type", "application/octet-stream")] (Server.part_bytes p)
      = inr response ->
      ok response = false ->
      a = Server.Sent (compressionFailed (text response))) /\
  (fst (Server.compressV1 config w i) = Server.Invalid \/
   fst (Server.compressV1 config w i)
   = Server.Thrown Server.InvalidMultipartContentTypeError).
Proof.
  intros _. cbv zeta. rewrite compressV2_run, compressV1_run.
  destruct i as [fields [p |] | body].
  - (* a multipart request with a file part *)
    cbv zeta.
    destruct (accepted config
                (Server.multipartFile (upload_maxSize config) p)) eqn:Hacc.
    + destruct (Server.truncated (upload_maxSize config) p) eqn:Htr.
      * (* over the limit *)
        cbn [fst snd].
        split; [|split; [|split; [|split; [|split; [|split]]]]].
        -- intros r H. discriminate H.
        -- split.
           ++ intros (r & H & _). discriminate H.
           ++ intros (fields' & part & Heq & Hrej). injection Heq as _ <-.
              cbn in Hrej. congruence.
        -- intros e He. injection He as <-. split; [reflexivity|]. right.
           exists fields, p. split; [reflexivity|]. split; [exact Hacc|].
           left. split; [exact Htr | reflexivity].
        -- discriminate.
        -- do 3 right. left. reflexivity.
        -- intros fields' p' name response Heq _ Htr'.
           injection Heq as _ <-. congruence.
        -- left. reflexivity.
      * destruct (Server.part_filename p) as [name |] eqn:Hname.
        -- (* the [try] block runs *)
           destruct (attempt_reply config w
                       (Server.request config
                          (Server.Multipart fields (Some p)))
                       (Server.multipartFile (upload_maxSize config) p)
                       name (Server.part_bytes p) [])
             as (r & tr' & Hrun & Hr).
           pose proof (attempt_failed_compression config w
                         (Server.request config
                            (Server.Multipart fields (Some p)))
                         (Server.multipartFile (upload_maxSize config) p)
                         name (Server.part_bytes p)) as Hfailed.
           rewrite Hrun in *. cbn [Server.answered fst snd].
           split; [|split; [|split; [|split; [|split; [|split]]]]].
           ++ intros r0 H. injection H as <-. split.
              ** destruct Hr as [(H200 & _) | (H500 & _)]; auto.
              ** intros Hne.
                 destruct Hr as [(H200 & _) | (_ & Hshape)];
                   [contradiction | exact Hshape].
           ++ split.
              ** intros (r0 & H & H400). injection H as <-.
                 destruct Hr as [(H200 & _) | (H500 & _)]; congruence.
              ** intros (fields' & part & Heq & Hrej). injection Heq as _ <-.
                 cbn in Hrej. congruence.
           ++ intros e He. discriminate He.
           ++ discriminate.
           ++ cbn [Server.statusOf].
              destruct Hr as [(-> & _) | (-> & _)];
                [left | do 4 right; left]; reflexivity.
           ++ intros fields' p' name' response Heq _ _ Hname' Hnet Hok.
              injection Heq as _ <-.
              assert (name' = name) by congruence. subst name'.
              specialize (Hfailed response [] Hnet Hok).
              rewrite Hrun in Hfailed. cbn [fst] in Hfailed.
              injection Hfailed as ->. reflexivity.
           ++ left. reflexivity.
        -- (* no file name *)
           cbn [fst snd].
           split; [|split; [|split; [|split; [|split; [|split]]]]].
           ++ intros r H. discriminate H.
           ++ split.
              ** intros (r & H & _). discriminate H.
              ** intros (fields' & part & Heq & Hrej). injection Heq as _ <-.
                 cbn in Hrej. congruence.
           ++ intros e He. injection He as <-. split; [reflexivity|]. right.
              exists fields, p. split; [reflexivity|]. split; [exact Hacc|].
              right. split; [exact Htr|]. split; [exact Hname | reflexivity].
           ++ discriminate.
           ++ do 4 right. left. reflexivity.
           ++ intros fields' p' name response Heq _ _ Hname'.
              injection Heq as _ <-. congruence.
           ++ left. reflexivity.
    + (* the upload fails validation *)
      cbn [fst snd].
      destruct (invalidFile_shape
                  (validateFileUpload w
                     (Some (Server.multipartFile (upload_maxSize config) p))
                     (upload_maxSize config) (upload_allowedMimeTypes config)))
        as [Hc Hs].
      split; [|split; [|split; [|split; [|split; [|split]]]]].
      * intros r H. injection H as <-. split.
        -- right. left. exact Hc.
        -- intros _. exact Hs.
      * split.
        -- intros _. exists fields, (Some p). split; [reflexivity | exact Hacc].
        -- intros _. eexists. split; [reflexivity | exact Hc].
      * intros e He. discriminate He.
      * discriminate.
      * cbn [Server.statusOf]. rewrite Hc. right. left. reflexivity.
      * intros fields' p' name response Heq Hacc'.
        injection Heq as _ <-. congruence.
      * left. reflexivity.
  - (* a multipart request without a file part *)
    cbn [fst snd].
    split; [|split; [|split; [|split; [|split; [|split]]]]].
    + intros r H. injection H as <-. split.
      * right. left. reflexivity.
      * intros _. do 2 eexists. repeat split.
    + split.
      * intros _. exists fields, None. split; [reflexivity | exact I].
      * intros _. eexists. split; reflexivity.
    + intros e He. discriminate He.
    + discriminate.
    + right. left. reflexivity.
    + intros fields' p' name response Heq. discriminate Heq.
    + left. reflexivity.
  - (* a request that is not multipart *)
    cbn [fst snd].
    split; [|split; [|split; [|split; [|split; [|split]]]]].
    + intros r H. discriminate H.
    + split.
      * intros (r & H & _). discriminate H.
      * intros (fields & part & Heq & _). discriminate Heq.
    + intros e He. injection He as <-. split; [reflexivity|]. left.
      exists body. split; reflexivity.
    + discriminate.
    + do 2 right. left. reflexivity.
    + intros fields p name response Heq. discriminate Heq.
    + destruct (Server.bodySchema w body); [right | left]; reflexivity.
Qed.

Lemma pipeline_failures_reply_500_witness :
  let w := Fixture.world (Fixture.respond 400 "cannot decode") in
  upload_maxSize Fixture.config = Js.Int 10485760 /\
  fst (Server.compressV2 Fixture.config w (Fixture.incoming "image/png"))
  = Server.Sent (compressionFailed "cannot decode") /\
  fst (Server.compressV2 Fixture.config w (Server.NotMultipart Js.Undefined))
  <> Server.Invalid.
Proof.
  cbv zeta. split; [reflexivity|].
  split.
  - exact (proj1 (proj2 (proj2 (proj2 (proj2 (proj2
             (pipeline_failures_reply_500 Fixture.config
                (Fixture.world (Fixture.respond 400 "cannot decode"))
                (Fixture.incoming "image/png") 10485760 eq_refl))))))
             [("quality", "85")] (Fixture.part "image/png") "photo.png"
             (mkResponse 400 (list_byte_of_string "cannot decode"))
             eq_refl eq_refl eq_refl eq_refl eq_refl eq_refl).
  - exact (proj1 (proj2 (proj2 (proj2
             (pipeline_failures_reply_500 Fixture.config
                (Fixture.world (Fixture.respond 400 "cannot decode"))
                (Server.NotMultipart Js.Undefined) 10485760 eq_refl))))).
Defined.

(** C4, as the specification states it, does not hold: the compression service
    answers 400 to an undecodable upload and the gateway replies 500. *)
Lemma decode_failure_is_answered_500 :
  ~ DecodeFailureIsClientError Server.compressV2.
Proof.
  assert (Hrange : 400 <= 400 <= 499) by lia.
  intros H.
  pose proof (H Fixture.config
                (Fixture.world (Fixture.respond 400 "cannot decode"))
                [] (Fixture.part "image/png") "photo.png"
                (mkResponse 400 (list_byte_of_string "cannot decode"))
                eq_refl eq_refl eq_refl eq_refl Hrange) as Hstatus.
  vm_compute in Hstatus. destruct Hstatus as [_ Hhi]. apply Hhi. reflexivity.
Qed.

Example decode_failure_reply :
  fst (Server.compressV2 Fixture.config
         (Fixture.world (Fixture.respond 400 "cannot decode"))
         (Fixture.incoming "image/png")) =
  Server.Sent
    (mkReply 500 []
       (Js.Obj [("error", Js.Bool true);
                ("message", Js.Str "Compression failed");
                ("details", Js.Str "Compression failed: cannot decode");
                ("code", Js.Str "COMPRESSION_ERROR")])).
Proof. reflexivity. Qed.

Example request_that_is_not_multipart :
  Server.compressV2 Fixture.config
    (Fixture.world (Fixture.respond 200 "jpeg"))
    (Server.NotMultipart (Js.Obj [("quality", Js.Number (Js.Int 80))])) =
  (Server.Thrown Server.InvalidMultipartContentTypeError, []) /\
  Server.statusOf (Server.Thrown Server.InvalidMultipartContentTypeError)
  = 406.
Proof. split; reflexivity. Qed.

(** ** What a failure tells the caller *)

(** C6, on the code.  For an accepted upload with a file name: when the
    compression service answers the call of the second definition with a
    status that is not ok, or the call is rejected with an error whose
    message is not empty, the reply is a 500 whose [details] field is the
    message of the error: the text the service answered with, or the
    message of the rejection, is sent to the caller.  The first definition
    likewise sends the message of the error it met, the refusal of its
    [fetch]. *)
Theorem failure_detail_is_sent_to_the_caller
    (config : Config) (w : World) (request : Request)
    (f : MultipartFile) (name : string) (tr : Trace) :
  request_file request = inr (Some f) ->
  accepted config f = true ->
  filename f = Some name ->
  (forall image r tr',
      toBuffer f = inr image ->
      RoutesV2.compress config w request tr = (inr r, tr') ->
      let answer :=
        net_fetch w (rust_serviceUrl config ++ "/compress") "POST"
          (compressHeaders request) image in
      (forall response,
          answer = inr response -> ok response = false ->
          reply_code r = 500 /\
          exists fields,
            reply_payload r = Js.Obj fields /\
            Js.get "details" fields =
            Js.Str ("Compression failed: " ++ text response)) /\
      (forall e,
          answer = inl e -> Js.message e <> "" ->
          reply_code r = 500 /\
          exists fields,
            reply_payload r = Js.Obj fields /\
            Js.get "details" fields = Js.Str (Js.message e))) /\
  (exists fields,
      RoutesV1.compress config w request tr =
      (inr (mkReply 500 [] (Js.Obj fields)),
       (tr ++ [LogError duplexRequired])%list) /\
      Js.get "details" fields = Js.Str (Js.message duplexRequired)).
Proof.
  intros Hfile Hacc Hname. split.
  - intros image r tr' Hbuf Hrun answer. subst answer.
    rewrite (compress_v2_run config w request f name image tr
               Hfile Hacc Hbuf Hname) in Hrun.
    assert (Hdetails : forall e,
               r = catchReply e -> Js.message e <> "" ->
               reply_code r = 500 /\
               exists fields,
                 reply_payload r = Js.Obj fields /\
                 Js.get "details" fields = Js.Str (Js.message e)).
    { intros e -> Hne. split; [apply catchReply_code|].
      destruct (catchReply_shape e) as (fields & msg & H1 & _ & _ & H4).
      exists fields. split; [exact H1 | exact (H4 Hne)]. }
    destruct (attempt_ends config w request f name image tr)
      as [(e & Hatt & Hcause)
         | (response & Hnet & Hok & _)].
    + rewrite Hatt in Hrun. injection Hrun as <- _.
      split.
      * intros response Hans Hnok.
        destruct Hcause as [He | (resp & Hresp & _ & ->)]; [congruence|].
        assert (resp = response) by congruence. subst resp.
        apply (Hdetails _ eq_refl). discriminate.
      * intros e' Hans Hne.
        destruct Hcause as [He | (resp & Hresp & _)]; [|congruence].
        assert (e' = e) by congruence. subst e'.
        apply (Hdetails _ eq_refl Hne).
    + split.
      * intros resp Hans Hnok. assert (resp = response) by congruence.
        subst resp. congruence.
      * intros e0 Hans. congruence.
  - eexists. split.
    + apply (compress_v1_run config w request f name tr Hfile Hacc Hname).
    + reflexivity.
Qed.

Lemma failure_detail_is_sent_to_the_caller_witness :
  let w :=
    Fixture.world (Fixture.respond 500 "panicked at src/lib.rs:42") in
  let request := Fixture.request "image/png" in
  request_file request = inr (Some (Fixture.upload "image/png")) /\
  accepted Fixture.config (Fixture.upload "image/png") = true /\
  filename (Fixture.upload "image/png") = Some "photo.png" /\
  exists r fields,
    outcome (RoutesV2.compress Fixture.config w request) = inr r /\
    reply_code r = 500 /\
    reply_payload r = Js.Obj fields /\
    Js.get "details" fields =
    Js.Str "Compression failed: panicked at src/lib.rs:42".
Proof.
  cbv zeta.
  split; [reflexivity|]. split; [reflexivity|]. split; [reflexivity|].
  pose proof (proj1 (failure_detail_is_sent_to_the_caller Fixture.config
                       (Fixture.world
                          (Fixture.respond 500 "panicked at src/lib.rs:42"))
                       (Fixture.request "image/png")
                       (Fixture.upload "image/png") "photo.png" []
                       eq_refl eq_refl eq_refl)
                Fixture.png
                (compressionFailed "panicked at src/lib.rs:42")
                _ eq_refl eq_refl) as H.
  cbv zeta in H.
  destruct (proj1 H (mkResponse 500
                       (list_byte_of_string "panicked at src/lib.rs:42"))
              eq_refl eq_refl) as (Hcode & fields & Hp & Hd).
  eexists. exists fields. split; [reflexivity|].
  split; [exact Hcode|]. split; [exact Hp | exact Hd].
Defined.

(** The error handler of middleware.js keeps the message of an unexpected
    error out of the reply unless NODE_ENV is "development". *)
Lemma errorHandler_hides_the_message (w : World) (msg : string) (tr : Trace) :
  process_env w "NODE_ENV" = Some "production" ->
  errorHandler w (Js.newError msg) tr =
  (inr (mkReply 500 []
          (Js.Obj [("error", Js.Bool true);
                   ("message", Js.Str "Internal Server Error");
                   ("code", Js.Str "SERVER_ERROR")])),
   (tr ++ [LogError (Js.newError msg)])%list).
Proof.
  intros Henv. unfold errorHandler. unfold_monad. rewrite Henv. reflexivity.
Qed.

(** ** The successful reply *)

(** C8.  Every reply with status 200 of a [/compress] handler carries
    exactly the bytes with which the compression service answered the call
    made for the upload, under [Content-Type: image/jpeg].  Such a reply
    comes from the second definition: the first hands the stream of the
    upload to [fetch], which refuses it, and never gets as far as its
    summary. *)
Theorem success_reply_is_the_compressed_image
    (handler : Handler) (config : Config) (w : World) (request : Request)
    (r : Reply) (tr tr' : Trace) :
  handler = RoutesV1.compress \/ handler = RoutesV2.compress ->
  handler config w request tr = (inr r, tr') ->
  reply_code r = 200 ->
  handler = RoutesV2.compress /\
  exists f image response,
    request_file request = inr (Some f) /\
    toBuffer f = inr image /\
    net_fetch w (rust_serviceUrl config ++ "/compress") "POST"
      (compressHeaders request) image = inr response /\
    ok response = true /\
    reply_payload r = Js.Buffer (body response) /\
    reply_headers r = [("Content-Type", "image/jpeg")].
Proof.
  intros Hh Hrun Hcode.
  destruct (compress_dispatch handler config w request tr Hh)
    as [(e & He & _) | [(data & _ & _ & Hrej)
       | (f & name & Hfile & Hacc & Hname & [(_ & Hv1) | (Hv2 & image & Hbuf & Hatt)])]].
  - rewrite He in Hrun. discriminate Hrun.
  - rewrite Hrej in Hrun. injection Hrun as <- _. discriminate Hcode.
  - rewrite Hv1 in Hrun. injection Hrun as <- _. discriminate Hcode.
  - split; [exact Hv2|]. rewrite Hatt in Hrun.
    destruct (attempt_ends config w request f name image tr)
      as [(e & Hend & _)
         | (response & Hnet & Hok & [(msg & _ & Hend) | (path & _ & Hend)])];
      rewrite Hend in Hrun; injection Hrun as <- _;
      try (rewrite catchReply_code in Hcode; discriminate Hcode).
    exists f, image, response. repeat split; assumption.
Qed.

Lemma success_reply_is_the_compressed_image_witness :
  let w := Fixture.world (Fixture.respond 200 "jpeg") in
  let request := Fixture.request "image/png" in
  let r := jpegReply (list_byte_of_string "jpeg") in
  RoutesV2.compress Fixture.config w request [] =
  (inr r, trace (RoutesV2.compress Fixture.config w request)) /\
  reply_code r = 200 /\
  exists f image response,
    request_file request = inr (Some f) /\
    toBuffer f = inr image /\
    net_fetch w (rust_serviceUrl Fixture.config ++ "/compress") "POST"
      (compressHeaders request) image = inr response /\
    ok response = true /\
    reply_payload r = Js.Buffer (body response) /\
    reply_headers r = [("Content-Type", "image/jpeg")].
Proof.
  cbv zeta.
  assert (Hrun :
    RoutesV2.compress Fixture.config
      (Fixture.world (Fixture.respond 200 "jpeg"))
      (Fixture.request "image/png") [] =
    (inr (jpegReply (list_byte_of_string "jpeg")),
     trace (RoutesV2.compress Fixture.config
              (Fixture.world (Fixture.respond 200 "jpeg"))
              (Fixture.request "image/png")))) by reflexivity.
  split; [exact Hrun|]. split; [reflexivity|].
  exact (proj2 (success_reply_is_the_compressed_image RoutesV2.compress
                  Fixture.config
                  (Fixture.world (Fixture.respond 200 "jpeg"))
                  (Fixture.request "image/png") _ [] _
                  (or_intror eq_refl) Hrun eq_refl)).
Defined.

(** The same on the routes: a request answered with status 200 is a
    multipart upload, and the reply carries what the service returned for
    its bytes. *)
Lemma served_success_is_the_compressed_image
    (route : Route) (config : Config) (w : World) (i : Server.Incoming)
    (r : Reply) (tr : Trace) :
  route = Server.compressV1 \/ route = Server.compressV2 ->
  route config w i = (Server.Sent r, tr) ->
  reply_code r = 200 ->
  exists fields p response,
    i = Server.Multipart fields (Some p) /\
    net_fetch w (rust_serviceUrl config ++ "/compress") "POST"
      [("Content-Type", "application/octet-stream")] (Server.part_bytes p)
    = inr response /\
    ok response = true /\
    r = jpegReply (body response).
Proof.
  intros [-> | ->] Hrun Hcode.
  - rewrite compressV1_run in Hrun.
    destruct i as [fields part | body]; [discriminate Hrun|].
    destruct (Server.bodySchema w body); discriminate Hrun.
  - rewrite compressV2_run in Hrun.
    destruct i as [fields [p |] | body]; try discriminate Hrun.
    + cbv zeta in Hrun.
      destruct (accepted config _).
      * destruct (Server.truncated _ _); [discriminate Hrun|].
        destruct (Server.part_filename p) as [name |]; [|discriminate Hrun].
        destruct (attempt_reply config w
                    (Server.request config (Server.Multipart fields (Some p)))
                    (Server.multipartFile (upload_maxSize config) p)
                    name (Server.part_bytes p) [])
          as (r0 & tr0 & Hatt & Hr).
        rewrite Hatt in Hrun. injection Hrun as <- _.
        destruct Hr as [(_ & response & Hnet & Hok & ->) | (H500 & _)];
          [|congruence].
        exists fields, p, response. repeat split; assumption.
      * injection Hrun as <- _. discriminate Hcode.
    + injection Hrun as <- _. discriminate Hcode.
Qed.

Example second_definition_success_reply :
  Server.compressV2 Fixture.config
    (Fixture.world (Fixture.respond 200 "jpeg"))
    (Fixture.incoming "image/png") =
  (Server.Sent (jpegReply (list_byte_of_string "jpeg")),
   [Fetch "http://rust-compressor-service:8000/compress" "POST"
      [("Content-Type", "application/octet-stream")] Fixture.png;
    StorageUpload "images"
      "compressed/photo-1700000000000-00112233445566ff.png"
      (list_byte_of_string "jpeg") "image/png"]).
Proof. reflexivity. Qed.

Example first_definition_handler_reply :
  run (RoutesV1.compress Fixture.config
         (Fixture.world (Fixture.respond 200 "jpeg"))
         (Fixture.request "image/png")) =
  (inr (mkReply 500 []
          (Js.Obj
             [("error", Js.Bool true);
              ("message", Js.Str "Upload failed");
              ("details",
               Js.Str "RequestInit: duplex option is required when sending a body.");
              ("code", Js.Str "UPLOAD_ERROR")])),
   [LogError duplexRequired]).
Proof. reflexivity. Qed.

(** ** The two definitions of the [/compress] handler *)

Lemma handlers_are_distinct : RoutesV1.compress <> RoutesV2.compress.
Proof.
  intros H.
  apply (f_equal (fun h : Handler =>
                    fst (h Fixture.config
                           (Fixture.world (Fixture.respond 200 "jpeg"))
                           (Fixture.request "image/png") []))) in H.
  vm_compute in H. discriminate H.
Qed.

(** C9, as it holds on the code.  The two definitions are not equal.  Given
    the same request object, their handlers run alike when [request.file()]
    rejects, when there is no file and when the upload fails validation.
    On an accepted upload with a file name, the first replies 500 "Upload
    failed" without a call to the compression service ([fetch] refuses the
    stream it is given), whereas the second buffers the upload and, when
    the service and storage succeed, replies 200 with the compressed bytes;
    the first never replies 200.  As registered, the routes differ on
    every multipart request, which the body schema of the first refuses
    before its handler runs while the second handles it; they agree on a
    request that is not multipart and whose body that schema accepts. *)
Theorem definitions_agree_only_before_compression
    (config : Config) (w : World) (request : Request) (tr : Trace) :
  let first := RoutesV1.compress config w request tr in
  let second := RoutesV2.compress config w request tr in
  (forall e, request_file request = inl e -> first = second) /\
  (request_file request = inr None -> first = second) /\
  (forall f, request_file request = inr (Some f) ->
             accepted config f = false -> first = second) /\
  (forall f name,
      request_file request = inr (Some f) ->
      accepted config f = true ->
      filename f = Some name ->
      first = (inr streamRefused, (tr ++ [LogError duplexRequired])%list) /\
      forall image response path,
        toBuffer f = inr image ->
        net_fetch w (rust_serviceUrl config ++ "/compress") "POST"
          (compressHeaders request) image = inr response ->
        ok response = true ->
        storage_upload w (supabase_bucket config)
          (supabase_uploadPath config ++ "/" ++ generateUniqueFilename w name)
          (body response) (mimetype f) = inr path ->
        fst second = inr (jpegReply (body response))) /\
  (forall r, fst first = inr r -> reply_code r <> 200) /\
  (forall fields part,
      fst (Server.compressV1 config w (Server.Multipart fields part)) <>
      fst (Server.compressV2 config w (Server.Multipart fields part))) /\
  (forall body,
      Server.bodySchema w body = true ->
      Server.compressV1 config w (Server.NotMultipart body) =
      Server.compressV2 config w (Server.NotMultipart body)).
Proof.
  cbv zeta. split; [|split; [|split; [|split; [|split; [|split]]]]].
  - intros e He.
    rewrite !(compress_file_throws _ config w request e tr) by auto.
    reflexivity.
  - intros Hnone.
    rewrite !(compress_no_file _ config w request tr) by auto.
    reflexivity.
  - intros f Hfile Hrej.
    rewrite !(compress_rejected _ config w request f tr) by auto.
    reflexivity.
  - intros f name Hfile Hacc Hname. split.
    + apply (compress_v1_run config w request f name tr); assumption.
    + intros image response path Hbuf Hnet Hok Hup.
      rewrite (compress_v2_run config w request f name image tr
                 Hfile Hacc Hbuf Hname).
      unfold attempt. cbv zeta. rewrite Hnet, Hok, Hup. reflexivity.
  - intros r Hr H200.
    destruct (compress_dispatch RoutesV1.compress config w request tr
                (or_introl eq_refl))
      as [(e & He & _) | [(data & _ & _ & Hrej)
         | (f & name & _ & _ & _ & [(_ & Hv1) | (Hv2 & _)])]].
    + rewrite He in Hr. discriminate Hr.
    + rewrite Hrej in Hr. injection Hr as <-. discriminate H200.
    + rewrite Hv1 in Hr. injection Hr as <-. discriminate H200.
    + exfalso. apply handlers_are_distinct, Hv2.
  - intros fields part Heq. rewrite compressV1_run, compressV2_run in Heq.
    destruct part as [p |]; [|discriminate Heq].
    cbv zeta in Heq.
    destruct (accepted config _); [|discriminate Heq].
    destruct (Server.truncated _ _); [discriminate Heq|].
    destruct (Server.part_filename p) as [name |]; [|discriminate Heq].
    destruct (attempt_reply config w
                (Server.request config (Server.Multipart fields (Some p)))
                (Server.multipartFile (upload_maxSize config) p)
                name (Server.part_bytes p) [])
      as (r0 & tr0 & Hatt & _).
    rewrite Hatt in Heq. discriminate Heq.
  - intros body Hschema. rewrite compressV1_run, compressV2_run, Hschema.
    reflexivity.
Qed.

Lemma definitions_agree_only_before_compression_witness :
  let w := Fixture.world (Fixture.respond 200 "jpeg") in
  request_file (Fixture.request "image/png") =
  inr (Some (Fixture.upload "image/png")) /\
  accepted Fixture.config (Fixture.upload "image/png") = true /\
  filename (Fixture.upload "image/png") = Some "photo.png" /\
  RoutesV1.compress Fixture.config w (Fixture.request "image/png") [] =
  (inr streamRefused, [LogError duplexRequired]).
Proof.
  cbv zeta. split; [reflexivity|]. split; [reflexivity|].
  split; [reflexivity|].
  exact (proj1 (proj1 (proj2 (proj2 (proj2
           (definitions_agree_only_before_compression Fixture.config
              (Fixture.world (Fixture.respond 200 "jpeg"))
              (Fixture.request "image/png") []))))
           (Fixture.upload "image/png") "photo.png"
           eq_refl eq_refl eq_refl)).
Defined.

(** C9, as the specification states it, does not hold: for an upload that
    the second definition answers with the compressed bytes, the handler of
    the first replies 500, and its route refuses the request. *)
Lemma definitions_differ_on_an_accepted_upload :
  ~ HandlersAgree RoutesV1.compress RoutesV2.compress /\
  ~ RoutesAgree Server.compressV1 Server.compressV2.
Proof.
  split; intros H.
  - specialize (H Fixture.config (Fixture.world (Fixture.respond 200 "jpeg"))
                  (Fixture.request "image/png")).
    vm_compute in H. discriminate H.
  - specialize (H Fixture.config (Fixture.world (Fixture.respond 200 "jpeg"))
                  (Fixture.incoming "image/png")).
    vm_compute in H. discriminate H.
Qed.

Example first_route_refuses_a_multipart_request :
  Server.compressV1 Fixture.config
    (Fixture.world (Fixture.respond 200 "jpeg"))
    (Fixture.incoming "image/png") = (Server.Invalid, []).
Proof. reflexivity. Qed.

(** ** Health and metrics *)

(** C5, as it holds on the code. [GET /health] asks the compression service
    for its health and reports what it finds: when the service answers with an
    ok status and a JSON body, the reply is 200 with [status: "ok"] merged
    with that body (whose own [status], if any, takes over); when the call is
    rejected, the status is not ok, or the body is not JSON, the reply is 503
    "Service unavailable". The reply is a function of that one exchange with
    the service. *)
Theorem health_reports_the_compression_service
    (config : Config) (w : World) (tr : Trace) :
  let url := rust_serviceUrl config ++ "/health" in
  let call := Fetch url "GET" [] [] in
  let unavailable e :=
    mkReply 503 []
      (createErrorResponse (Js.Str "Service unavailable")
         (Js.Str (Js.message e)) (Js.Str "HEALTH_CHECK_ERROR")) in
  health config w tr =
  match net_fetch w url "GET" [] [] with
  | inl e => (inr (unavailable e), (tr ++ [call; LogError e])%list)
  | inr response =>
      if ok response then
        match JSON_parse w (text response) with
        | inr h =>
            (inr (mkReply 200 []
                    (Js.Obj (Js.assign [("status", Js.Str "ok")]
                               (Js.spread h)))),
             (tr ++ [call])%list)
        | inl e => (inr (unavailable e), (tr ++ [call; LogError e])%list)
        end
      else
        (inr (unavailable (Js.newError "Health check failed")),
         (tr ++ [call; LogError (Js.newError "Health check failed")])%list)
  end.
Proof.
  cbv zeta. unfold health, CompressionService.getHealth. unfold_monad.
  destruct (net_fetch w _ _ _ _) as [e | response]; reduce_run.
  - rewrite <- app_assoc. reflexivity.
  - destruct (ok response); cbn [negb].
    + destruct (JSON_parse w (text response)) as [e | h]; reduce_run.
      * rewrite <- app_assoc. reflexivity.
      * reflexivity.
    + rewrite <- app_assoc. reflexivity.
Qed.

(** C5, as the specification states it, does not hold: the reply follows the
    state of the service. *)
Lemma health_follows_the_service : ~ HealthIsFixed.
Proof.
  intros H.
  specialize (H Fixture.config (Fixture.world (Fixture.respond 200 "{}"))
                (Fixture.world (Fixture.respond 503 "starting"))).
  vm_compute in H. discriminate H.
Qed.

Example health_of_a_serving_service :
  outcome (health Fixture.config (Fixture.world (Fixture.respond 200 "{}"))) =
  inr (mkReply 200 [] (Js.Obj [("status", Js.Str "ok")])).
Proof. reflexivity. Qed.

Example health_of_a_service_that_is_down :
  outcome (health Fixture.config
             (Fixture.world (Fixture.respond 503 "starting"))) =
  inr (mkReply 503 []
         (Js.Obj [("error", Js.Bool true);
                  ("message", Js.Str "Service unavailable");
                  ("details", Js.Str "Health check failed");
                  ("code", Js.Str "HEALTH_CHECK_ERROR")])).
Proof. reflexivity. Qed.

Example health_status_of_the_service_takes_over :
  Js.assign [("status", Js.Str "ok")]
    (Js.spread (Js.Obj [("status", Js.Str "degraded")])) =
  [("status", Js.Str "degraded")].
Proof. reflexivity. Qed.

(** C7, on the code. When the compression service answers [GET /metrics] with
    an ok status and a body whose first token cannot start a JSON value, as
    every line of a text exposition does ([name value], or a comment),
    [getMetrics] fails to parse it and the reply is 500 "Metrics unavailable":
    the counters are not returned. *)
Theorem metrics_of_a_text_exposition_fail
    (config : Config) (w : World) (response : Response)
    (c : ascii) (rest : string) (tr : Trace) :
  let url := rust_serviceUrl config ++ "/metrics" in
  net_fetch w url "GET" [] [] = inr response ->
  ok response = true ->
  skipJsonWhiteSpace (text response) = String c rest ->
  startsJsonValue c = false ->
  let e := json_syntax_error w (text response) in
  metrics config w tr =
  (inr (mkReply 500 []
          (createErrorResponse (Js.Str "Metrics unavailable")
             (Js.Str (Js.message e)) (Js.Str "METRICS_ERROR"))),
   (tr ++ [Fetch url "GET" [] []; LogError e])%list).
Proof.
  cbv zeta. intros Hnet Hok Hskip Hstart.
  unfold metrics, CompressionService.getMetrics. unfold_monad.
  rewrite Hnet. reduce_run. rewrite Hok. cbn [negb].
  unfold JSON_parse. rewrite Hskip, Hstart. reduce_run.
  rewrite <- app_assoc. reflexivity.
Qed.

Lemma metrics_of_a_text_exposition_fail_witness :
  let w := Fixture.world (Fixture.respond 200 Fixture.exposition) in
  let url := rust_serviceUrl Fixture.config ++ "/metrics" in
  net_fetch w url "GET" [] [] =
  inr (mkResponse 200 (list_byte_of_string Fixture.exposition)) /\
  outcome (metrics Fixture.config w) =
  inr (mkReply 500 []
         (Js.Obj [("error", Js.Bool true);
                  ("message", Js.Str "Metrics unavailable");
                  ("details", Js.Str "Unexpected token");
                  ("code", Js.Str "METRICS_ERROR")])).
Proof.
  cbv zeta. split; [reflexivity|].
  unfold outcome, run.
  rewrite (metrics_of_a_text_exposition_fail Fixture.config
             (Fixture.world (Fixture.respond 200 Fixture.exposition))
             (mkResponse 200 (list_byte_of_string Fixture.exposition))
             _ _ [] eq_refl eq_refl eq_refl eq_refl).
  reflexivity.
Defined.

(** What [GET /metrics] replies with in general: the parsed JSON value of
    the body of the service, or a 500. *)
Lemma metrics_run (config : Config) (w : World) (tr : Trace) :
  let url := rust_serviceUrl config ++ "/metrics" in
  let call := Fetch url "GET" [] [] in
  let unavailable e :=
    mkReply 500 []
      (createErrorResponse (Js.Str "Metrics unavailable")
         (Js.Str (Js.message e)) (Js.Str "METRICS_ERROR")) in
  metrics config w tr =
  match net_fetch w url "GET" [] [] with
  | inl e => (inr (unavailable e), (tr ++ [call; LogError e])%list)
  | inr response =>
      if ok response then
        match JSON_parse w (text response) with
        | inr v => (inr (mkReply 200 [] v), (tr ++ [call])%list)
        | inl e => (inr (unavailable e), (tr ++ [call; LogError e])%list)
        end
      else
        (inr (unavailable (Js.newError "Metrics fetch failed")),
         (tr ++ [call; LogError (Js.newError "Metrics fetch failed")])%list)
  end.
Proof.
  cbv zeta. unfold metrics, CompressionService.getMetrics. unfold_monad.
  destruct (net_fetch w _ _ _ _) as [e | response]; reduce_run.
  - rewrite <- app_assoc. reflexivity.
  - destruct (ok response); cbn [negb].
    + destruct (JSON_parse w (text response)) as [e | v]; reduce_run.
      * rewrite <- app_assoc. reflexivity.
      * reflexivity.
    + rewrite <- app_assoc. reflexivity.
Qed.

(** ** The codec pipeline *)

Lemma find_none_of_all_false {A} (p : A -> bool) (l : list A) :
  (forall x, In x l -> p x = false) -> find p l = None.
Proof.
  induction l as [|a l IH]; intros H; simpl; [reflexivity|].
  rewrite (H a (or_introl eq_refl)). apply IH.
  intros x Hx. apply H. right. exact Hx.
Qed.

(** C3. On the pipeline of the specification: for every table of formats
    and every encoder, an input that is empty or matches the signature of
    no registered format is answered with [DecodeError] at every quality in
    [1,100]; the function is total, and every [Compressed] result holds at
    least one byte. *)
Theorem compress_rejects_unrecognised_input
    (formats : list Codec.Format)
    (encode : Codec.DecodedImage -> Z -> option (list byte))
    (input : list byte) (quality : Z) :
  (1 <= quality <= 100 ->
   input = [] \/
   (forall f, In f formats -> Codec.signature f input = false) ->
   Codec.compress formats encode input quality = Codec.Failed Codec.DecodeError)
  /\
  (forall jpeg,
      Codec.compress formats encode input quality = Codec.Compressed jpeg ->
      jpeg <> []).
Proof.
  split.
  - intros _ [-> | Hnone]; unfold Codec.compress, Codec.decodeImage.
    + reflexivity.
    + destruct input as [|b input]; [reflexivity|].
      unfold Codec.detect.
      rewrite (find_none_of_all_false _ formats Hnone). reflexivity.
  - intros jpeg. unfold Codec.compress.
    destruct (Codec.decodeImage formats input) as [img|]; [|discriminate].
    destruct (encode (Codec.normalize img) quality) as [[|b bs]|];
      try discriminate.
    intros H. injection H as <-. discriminate.
Qed.

Lemma compress_rejects_unrecognised_input_witness :
  1 <= 80 <= 100 /\
  (forall f, In f Fixture.formats ->
             Codec.signature f [x00; x01; x02; x03] = false) /\
  Codec.compress Fixture.formats Fixture.encode [x00; x01; x02; x03] 80
  = Codec.Failed Codec.DecodeError /\
  Codec.compress Fixture.formats Fixture.encode [] 80
  = Codec.Failed Codec.DecodeError /\
  Codec.compress Fixture.formats Fixture.encode Fixture.png 80
  = Codec.Compressed [xff; xd8; xff; xd9] /\
  [xff; xd8; xff; xd9] <> ([] : list byte).
Proof.
  assert (Hrange : 1 <= 80 <= 100) by lia.
  assert (Hnone : forall f, In f Fixture.formats ->
                    Codec.signature f [x00; x01; x02; x03] = false).
  { intros f [<- | [<- | [<- | []]]]; reflexivity. }
  split; [exact Hrange|]. split; [exact Hnone|].
  split.
  { exact (proj1 (compress_rejects_unrecognised_input Fixture.formats
                    Fixture.encode [x00; x01; x02; x03] 80)
             Hrange (or_intror Hnone)). }
  split.
  { exact (proj1 (compress_rejects_unrecognised_input Fixture.formats
                    Fixture.encode [] 80)
             Hrange (or_introl eq_refl)). }
  split; [reflexivity|].
  exact (proj2 (compress_rejects_unrecognised_input Fixture.formats
                  Fixture.encode Fixture.png 80)
           [xff; xd8; xff; xd9] eq_refl).
Defined.

(** * Further properties of the gateway *)

(** ** Numbers and their decimal form *)

Lemma allDecimal_string_of_uint (d : Decimal.uint) :
  allDecimal (NilEmpty.string_of_uint d) = true.
Proof.
  induction d; simpl; auto.
Qed.

Lemma decimalValueFrom_of_uint_acc (d : Decimal.uint) (acc : positive) :
  decimalValueFrom (Zpos acc) (NilEmpty.string_of_uint d)
  = Zpos (Pos.of_uint_acc d acc).
Proof.
  revert acc. induction d; intros acc;
    cbn [NilEmpty.string_of_uint decimalValueFrom Pos.of_uint_acc];
    try reflexivity;
    rewrite <- IHd; f_equal;
    match goal with
    | |- context [Z.of_nat (nat_of_ascii ?c)] =>
        let v := eval vm_compute in (Z.of_nat (nat_of_ascii c)) in
        change (Z.of_nat (nat_of_ascii c)) with v
    end;
    lia.
Qed.

Lemma decimalValue_string_of_uint (d : Decimal.uint) :
  decimalValue (NilEmpty.string_of_uint d) = Z.of_N (Pos.of_uint d).
Proof.
  unfold decimalValue.
  induction d;
    cbn [NilEmpty.string_of_uint decimalValueFrom Pos.of_uint Z.of_N].
  - reflexivity.
  - exact IHd.
  - exact (decimalValueFrom_of_uint_acc d 1).
  - exact (decimalValueFrom_of_uint_acc d 2).
  - exact (decimalValueFrom_of_uint_acc d 3).
  - exact (decimalValueFrom_of_uint_acc d 4).
  - exact (decimalValueFrom_of_uint_acc d 5).
  - exact (decimalValueFrom_of_uint_acc d 6).
  - exact (decimalValueFrom_of_uint_acc d 7).
  - exact (decimalValueFrom_of_uint_acc d 8).
  - exact (decimalValueFrom_of_uint_acc d 9).
Qed.

Lemma string_of_Z_pos (p : positive) :
  Js.string_of_Z (Zpos p) = NilEmpty.string_of_uint (Pos.to_uint p) /\
  Js.string_of_Z (Zneg p) = String "-" (NilEmpty.string_of_uint (Pos.to_uint p)).
Proof.
  unfold Js.string_of_Z, NilZero.string_of_int, NilZero.string_of_uint.
  simpl Z.to_int.
  pose proof (DecimalPos.Unsigned.to_uint_nonnil p) as Hnil.
  destruct (Pos.to_uint p); try contradiction; split; reflexivity.
Qed.

Lemma stripHexPrefix_decimal (s : string) :
  allDecimal s = true -> Js.stripHexPrefix s = None.
Proof.
  destruct s as [|c r]; [reflexivity|]. simpl. intros H.
  apply andb_prop in H as [Hc Hr].
  destruct (ascii_dec c "0") as [->|Hnz].
  - destruct r as [|c2 r2]; [reflexivity|].
    simpl in Hr. apply andb_prop in Hr as [Hc2 _].
    apply stripHexPrefix_zero_digit, Hc2.
  - apply stripHexPrefix_nonzero, Hnz.
Qed.

Lemma parseInt_radix_10 (input : Js.Val) :
  Js.parseInt input (Some 10) =
  let '(sign, str) := Js.stripSign (Js.trimStart (Js.ToString input)) in
  match Js.digitsPrefix 10 str with
  | [] => Js.NaN
  | ds => Js.Int (sign * Js.mathInt 10 ds)
  end.
Proof.
  unfold Js.parseInt.
  destruct (Js.stripSign (Js.trimStart (Js.ToString input))) as [sign str].
  reflexivity.
Qed.

Lemma mathInt_decimal (digits : string) :
  digits <> "" -> allDecimal digits = true ->
  match Js.digitsPrefix 10 digits with
  | [] => Js.NaN
  | ds => Js.Int (1 * Js.mathInt 10 ds)
  end = Js.Int (decimalValue digits) /\
  match Js.digitsPrefix 10 digits with
  | [] => Js.NaN
  | ds => Js.Int (-1 * Js.mathInt 10 ds)
  end = Js.Int (- decimalValue digits).
Proof.
  intros Hne Hall.
  pose proof (digitsPrefix_decimal digits "" Hall eq_refl 0) as Hval.
  assert (Happ : digits ++ "" = digits).
  { clear. induction digits; simpl; congruence. }
  rewrite Happ in Hval.
  destruct digits as [|c r]; [congruence|].
  pose proof Hall as Hc. simpl in Hc. apply andb_prop in Hc as [Hc _].
  pose proof (digitsPrefix_nonempty c r Hc) as Hnil.
  destruct (Js.digitsPrefix 10 (String c r)); [congruence|].
  unfold Js.mathInt. rewrite Hval. unfold decimalValue.
  split; f_equal; lia.
Qed.

(** A decimal numeral, with or without a minus sign, is parsed to the
    integer it denotes, with the default radix and with radix 10. *)
Lemma parseInt_numeral (negative : bool) (digits : string) (radix : option Z) :
  radix = None \/ radix = Some 10 ->
  digits <> "" -> allDecimal digits = true ->
  Js.parseInt (Js.Str (if negative then String "-" digits else digits)) radix
  = Js.Int (if negative then - decimalValue digits else decimalValue digits).
Proof.
  intros Hradix Hne Hall.
  destruct (mathInt_decimal digits Hne Hall) as [Hpos Hneg].
  assert (Hfirst : exists c r, digits = String c r /\ decimalDigit c = true).
  { destruct digits as [|c r]; [congruence|]. simpl in Hall.
    apply andb_prop in Hall as [Hc _]. eauto. }
  destruct Hfirst as (c & r & -> & Hc).
  assert (Hsign :
    Js.stripSign (Js.trimStart
                    (if negative then String "-" (String c r) else String c r))
    = (if negative then -1 else 1, String c r)).
  { destruct negative.
    - reflexivity.
    - cbn [Js.trimStart]. rewrite (decimal_not_space c Hc).
      apply stripSign_decimal, Hc. }
  destruct Hradix as [-> | ->].
  - rewrite parseInt_no_radix. cbn [Js.ToString]. rewrite Hsign.
    rewrite (stripHexPrefix_decimal _ Hall).
    destruct negative; assumption.
  - rewrite parseInt_radix_10. cbn [Js.ToString]. rewrite Hsign.
    destruct negative; assumption.
Qed.

Lemma string_of_Z_numeral (z : Z) :
  exists (negative : bool) (digits : string),
    Js.string_of_Z z = (if negative then String "-" digits else digits) /\
    digits <> "" /\ allDecimal digits = true /\
    (if negative then - decimalValue digits else decimalValue digits) = z.
Proof.
  destruct z as [|p|p].
  - exists false, "0". repeat split; (reflexivity || discriminate).
  - exists false, (NilEmpty.string_of_uint (Pos.to_uint p)).
    split; [apply string_of_Z_pos|].
    pose proof (DecimalPos.Unsigned.to_uint_nonnil p) as Hnil.
    split; [destruct (Pos.to_uint p); (contradiction || discriminate)|].
    split; [apply allDecimal_string_of_uint|].
    rewrite decimalValue_string_of_uint, DecimalPos.Unsigned.of_to.
    reflexivity.
  - exists true, (NilEmpty.string_of_uint (Pos.to_uint p)).
    split; [apply string_of_Z_pos|].
    pose proof (DecimalPos.Unsigned.to_uint_nonnil p) as Hnil.
    split; [destruct (Pos.to_uint p); (contradiction || discriminate)|].
    split; [apply allDecimal_string_of_uint|].
    rewrite decimalValue_string_of_uint, DecimalPos.Unsigned.of_to.
    reflexivity.
Qed.

(** [parseInt] undoes the decimal rendering of an integer, given as a
    number or as its string. *)
Lemma parseInt_string_of_Z (z : Z) (radix : option Z) :
  radix = None \/ radix = Some 10 ->
  Js.parseInt (Js.Number (Js.Int z)) radix = Js.Int z /\
  Js.parseInt (Js.Str (Js.string_of_Z z)) radix = Js.Int z.
Proof.
  intros Hradix.
  destruct (string_of_Z_numeral z) as (negative & digits & Hs & Hne & Hall & Hz).
  pose proof (parseInt_numeral negative digits radix Hradix Hne Hall) as H.
  rewrite Hz, <- Hs in H.
  split; [|exact H].
  unfold Js.parseInt in *. exact H.
Qed.

(** X1. [parseQuality] returns an integer quality in [1,100] unchanged,
    whether it is given as a number or as its decimal string.  With a
    default in [1,100] its result always lies in [1,100], and applying it
    again to its own result changes nothing. *)
Theorem parseQuality_keeps_valid_numbers (q : Js.Val) (n d : Z) :
  1 <= n <= 100 -> 1 <= d <= 100 ->
  parseQuality (Js.Number (Js.Int n)) (Js.Int d) = Js.Int n /\
  parseQuality (Js.Str (Js.string_of_Z n)) (Js.Int d) = Js.Int n /\
  (exists m, parseQuality q (Js.Int d) = Js.Int m /\ 1 <= m <= 100) /\
  parseQuality (Js.Number (parseQuality q (Js.Int d))) (Js.Int d)
  = parseQuality q (Js.Int d).
Proof.
  intros Hn Hd.
  assert (Hkeep : forall k, 1 <= k <= 100 ->
            parseQuality (Js.Number (Js.Int k)) (Js.Int d) = Js.Int k /\
            parseQuality (Js.Str (Js.string_of_Z k)) (Js.Int d) = Js.Int k).
  { intros k Hk. rewrite !parseQuality_cases.
    destruct (parseInt_string_of_Z k None (or_introl eq_refl)) as [-> ->].
    destruct (k <? 1) eqn:E1; [apply Z.ltb_lt in E1; lia|].
    destruct (100 <? k) eqn:E2; [apply Z.ltb_lt in E2; lia|].
    split; reflexivity. }
  assert (Hrange : exists m, parseQuality q (Js.Int d) = Js.Int m /\
                             1 <= m <= 100).
  { rewrite parseQuality_cases.
    destruct (Js.parseInt q None) as [|k]; [exists d; split; [reflexivity|lia]|].
    destruct (k <? 1) eqn:E1; [exists d; split; [reflexivity|lia]|].
    destruct (100 <? k) eqn:E2; [exists d; split; [reflexivity|lia]|].
    apply Z.ltb_ge in E1. apply Z.ltb_ge in E2.
    exists k. split; [reflexivity | lia]. }
  split; [apply Hkeep, Hn|]. split; [apply Hkeep, Hn|].
  split; [exact Hrange|].
  destruct Hrange as (m & Hm & Hmr). rewrite Hm. apply Hkeep, Hmr.
Qed.

Lemma parseQuality_keeps_valid_numbers_witness :
  1 <= 85 <= 100 /\ 1 <= 80 <= 100 /\
  parseQuality (Js.Number (Js.Int 85)) (Js.Int 80) = Js.Int 85 /\
  parseQuality (Js.Number (parseQuality (Js.Str "abc") (Js.Int 80)))
    (Js.Int 80)
  = parseQuality (Js.Str "abc") (Js.Int 80).
Proof.
  assert (H85 : 1 <= 85 <= 100) by lia.
  assert (H80 : 1 <= 80 <= 100) by lia.
  destruct (parseQuality_keeps_valid_numbers (Js.Str "abc") 85 80 H85 H80)
    as (Hnum & _ & _ & Hidem).
  split; [exact H85|]. split; [exact H80|]. split; [exact Hnum | exact Hidem].
Defined.

(** ** config.js *)

Lemma env_or_set (w : World) (name fallback v : string) :
  process_env w name = Some v -> v <> "" -> env_or w name fallback = v.
Proof.
  intros H Hne. unfold env_or. rewrite H.
  destruct (String.eqb_spec v ""); [contradiction | reflexivity].
Qed.

Lemma string_of_Z_nonempty (z : Z) : Js.string_of_Z z <> "".
Proof.
  destruct (string_of_Z_numeral z) as (negative & digits & -> & Hne & _).
  destruct negative; [discriminate | exact Hne].
Qed.

Lemma loadConfig_inr (w : World) (c : Config) :
  loadConfig w = inr c ->
  env_or w "SUPABASE_URL" "" <> "" /\ env_or w "SUPABASE_KEY" "" <> "" /\
  upload_maxSize c =
    Js.parseInt (Js.Str (env_or w "MAX_FILE_SIZE" "10485760")) (Some 10) /\
  upload_defaultQuality c =
    Js.parseInt (Js.Str (env_or w "DEFAULT_QUALITY" "80")) (Some 10) /\
  rust_timeout c =
    Js.parseInt (Js.Str (env_or w "RUST_SERVICE_TIMEOUT" "30000")) (Some 10) /\
  upload_allowedMimeTypes c =
    map trim (split ","
                (env_or w "ALLOWED_MIME_TYPES"
                   "image/jpeg,image/png,image/webp")) /\
  security_apiKey c =
    match process_env w "API_KEY" with
    | Some s => if String.eqb s "" then None else Some s
    | None => None
    end /\
  env c = env_or w "NODE_ENV" "development" /\
  isProduction c = String.eqb (env c) "production" /\
  isDevelopment c = String.eqb (env c) "development".
Proof.
  unfold loadConfig. intros H.
  destruct (String.eqb_spec (env_or w "SUPABASE_URL" "") ""); [discriminate|].
  destruct (String.eqb_spec (env_or w "SUPABASE_KEY" "") ""); [discriminate|].
  injection H as <-. cbn. repeat split; assumption.
Qed.

(** X2. An integer of magnitude at most 2^53 (what a double holds exactly)
    written in decimal in MAX_FILE_SIZE, DEFAULT_QUALITY or
    RUST_SERVICE_TIMEOUT becomes the setting as it is: the configuration
    enforces no range, so a default quality outside [1,100] or a negative
    size limit is taken over. *)
Theorem loadConfig_takes_integers_as_written
    (w : World) (c : Config) (z : Z) :
  loadConfig w = inr c ->
  - 9007199254740992 <= z <= 9007199254740992 ->
  (process_env w "MAX_FILE_SIZE" = Some (Js.string_of_Z z) ->
   upload_maxSize c = Js.Int z) /\
  (process_env w "DEFAULT_QUALITY" = Some (Js.string_of_Z z) ->
   upload_defaultQuality c = Js.Int z) /\
  (process_env w "RUST_SERVICE_TIMEOUT" = Some (Js.string_of_Z z) ->
   rust_timeout c = Js.Int z).
Proof.
  intros Hc _.
  destruct (loadConfig_inr w c Hc) as (_ & _ & Hmax & Hq & Ht & _).
  pose proof (string_of_Z_nonempty z) as Hne.
  pose proof (proj2 (parseInt_string_of_Z z (Some 10) (or_intror eq_refl)))
    as Hparse.
  repeat split; intros Henv.
  - rewrite Hmax, (env_or_set w _ _ _ Henv Hne). exact Hparse.
  - rewrite Hq, (env_or_set w _ _ _ Henv Hne). exact Hparse.
  - rewrite Ht, (env_or_set w _ _ _ Henv Hne). exact Hparse.
Qed.

Lemma loadConfig_takes_integers_as_written_witness :
  let w :=
    Sample.withEnv (Fixture.world (Fixture.respond 200 "{}"))
      (("DEFAULT_QUALITY", "500") :: Sample.supabase) in
  - 9007199254740992 <= 500 <= 9007199254740992 /\
  exists c, loadConfig w = inr c /\ upload_defaultQuality c = Js.Int 500.
Proof.
  cbv zeta.
  assert (Hsafe : - 9007199254740992 <= 500 <= 9007199254740992) by lia.
  split; [exact Hsafe|].
  destruct (loadConfig
              (Sample.withEnv (Fixture.world (Fixture.respond 200 "{}"))
                 (("DEFAULT_QUALITY", "500") :: Sample.supabase)))
    as [e | c] eqn:Hc; [vm_compute in Hc; discriminate Hc|].
  exists c. split; [reflexivity|].
  exact (proj1 (proj2 (loadConfig_takes_integers_as_written _ c 500 Hc Hsafe))
           eq_refl).
Defined.

(** X3. The configuration loads exactly when SUPABASE_URL and SUPABASE_KEY
    are both set to a non-empty string; otherwise loading throws, naming
    SUPABASE_URL when it is missing (whether or not the key is missing
    too) and SUPABASE_KEY when only the key is. *)
Theorem loadConfig_requires_supabase (w : World) :
  ((exists c, loadConfig w = inr c) <->
   envSet w "SUPABASE_URL" /\ envSet w "SUPABASE_KEY") /\
  (~ envSet w "SUPABASE_URL" ->
   loadConfig w =
   inl (Js.newError "Missing required environment variable: SUPABASE_URL")) /\
  (envSet w "SUPABASE_URL" -> ~ envSet w "SUPABASE_KEY" ->
   loadConfig w =
   inl (Js.newError "Missing required environment variable: SUPABASE_KEY")).
Proof.
  assert (Hset : forall name, envSet w name <-> env_or w name "" <> "").
  { intros name. unfold envSet, env_or.
    destruct (process_env w name) as [v|].
    - destruct (String.eqb_spec v "") as [-> | Hne].
      + split; [intros (v & Hv & Hne); congruence | congruence].
      + split; [intros _; exact Hne | intros _; eauto].
    - split; [intros (v & Hv & _); discriminate | congruence]. }
  assert (Hcases :
    loadConfig w =
    if String.eqb (env_or w "SUPABASE_URL" "") "" then
      inl (Js.newError "Missing required environment variable: SUPABASE_URL")
    else if String.eqb (env_or w "SUPABASE_KEY" "") "" then
      inl (Js.newError "Missing required environment variable: SUPABASE_KEY")
    else loadConfig w).
  { unfold loadConfig.
    destruct (String.eqb (env_or w "SUPABASE_URL" "") ""); [reflexivity|].
    destruct (String.eqb (env_or w "SUPABASE_KEY" "") ""); reflexivity. }
  split; [split|split].
  - intros (c & Hc). destruct (loadConfig_inr w c Hc) as (Hu & Hk & _).
    split; apply Hset; assumption.
  - intros [Hu Hk]. apply Hset in Hu. apply Hset in Hk.
    unfold loadConfig.
    destruct (String.eqb_spec (env_or w "SUPABASE_URL" "") "");
      [contradiction|].
    destruct (String.eqb_spec (env_or w "SUPABASE_KEY" "") "");
      [contradiction|].
    eexists. reflexivity.
  - intros Hu. rewrite Hcases.
    destruct (String.eqb_spec (env_or w "SUPABASE_URL" "") "");
      [reflexivity|].
    exfalso. apply Hu, Hset. assumption.
  - intros Hu Hk. rewrite Hcases. apply Hset in Hu.
    destruct (String.eqb_spec (env_or w "SUPABASE_URL" "") "");
      [contradiction|].
    destruct (String.eqb_spec (env_or w "SUPABASE_KEY" "") "");
      [reflexivity|].
    exfalso. apply Hk, Hset. assumption.
Qed.

Lemma split_nonempty (sep : ascii) (s : string) : split sep s <> [].
Proof.
  destruct s as [|c r]; simpl; [discriminate|].
  destruct (Ascii.eqb c sep); [discriminate|].
  destruct (split sep r); discriminate.
Qed.

(** A string without the separator, followed by the separator and more:
    the first piece is that string. *)
Lemma split_piece (sep : ascii) (t rest : string) :
  hasChar sep t = false ->
  split sep (t ++ String sep rest) = t :: split sep rest.
Proof.
  induction t as [|c t IH]; simpl; intros H.
  - rewrite Ascii.eqb_refl. reflexivity.
  - apply orb_false_elim in H as [Hc Ht].
    rewrite Ascii.eqb_sym, Hc, (IH Ht). reflexivity.
Qed.

Lemma split_single (sep : ascii) (t : string) :
  hasChar sep t = false -> split sep t = [t].
Proof.
  induction t as [|c t IH]; simpl; intros H; [reflexivity|].
  apply orb_false_elim in H as [Hc Ht].
  rewrite Ascii.eqb_sym, Hc, (IH Ht). reflexivity.
Qed.

Lemma trim_padded (t : string) :
  noOuterSpace t -> trim t = t /\ trim (String " " t) = t.
Proof.
  intros [Hs He]. unfold trim. cbn [Js.trimStart].
  change (Js.isStrWhiteSpaceChar " ") with true. cbv iota.
  rewrite Hs, He. split; reflexivity.
Qed.

Lemma append_assoc (a b c : string) : (a ++ b) ++ c = a ++ (b ++ c).
Proof.
  induction a as [|x a IH]; simpl; [reflexivity | rewrite IH; reflexivity].
Qed.

Lemma hasChar_append (c : ascii) (a b : string) :
  hasChar c (a ++ b) = hasChar c a || hasChar c b.
Proof.
  induction a as [|x a IH]; simpl; [reflexivity|].
  rewrite IH, orb_assoc. reflexivity.
Qed.

(** Splitting at the commas a list of names joined by ", " and trimming
    the pieces gives the names back. *)
Lemma split_join (names : list string) :
  names <> [] ->
  (forall t, In t names -> noOuterSpace t /\ hasChar "," t = false) ->
  map trim (split "," (String.concat ", " names)) = names.
Proof.
  intros Hne Hnames.
  assert (Htail : forall l,
            (forall t, In t l -> noOuterSpace t /\ hasChar "," t = false) ->
            l <> [] ->
            map trim (split "," (String " " (String.concat ", " l))) = l).
  { induction l as [|t l IH]; intros Hl Hnil; [congruence|].
    destruct (Hl t (or_introl eq_refl)) as [Ht Hcomma].
    assert (Hpad : hasChar "," (String " " t) = false)
      by (simpl; exact Hcomma).
    destruct l as [|t' l'].
    - cbn [String.concat]. rewrite (split_single _ _ Hpad). cbn [map].
      rewrite (proj2 (trim_padded t Ht)). reflexivity.
    - change (String.concat ", " (t :: t' :: l'))
        with (t ++ String "," (String " " (String.concat ", " (t' :: l')))).
      change (String " " (t ++ ?x)) with (String " " t ++ x).
      rewrite (split_piece "," (String " " t) _ Hpad). cbn [map].
      rewrite (proj2 (trim_padded t Ht)). f_equal.
      apply IH; [intros x Hx; apply Hl; right; exact Hx | discriminate]. }
  destruct names as [|t l]; [congruence|].
  destruct (Hnames t (or_introl eq_refl)) as [Ht Hcomma].
  destruct l as [|t' l'].
  - cbn [String.concat]. rewrite (split_single _ _ Hcomma). cbn [map].
    rewrite (proj1 (trim_padded t Ht)). reflexivity.
  - change (String.concat ", " (t :: t' :: l'))
      with (t ++ String "," (String " " (String.concat ", " (t' :: l')))).
    rewrite (split_piece "," t _ Hcomma). cbn [map].
    rewrite (proj1 (trim_padded t Ht)). f_equal.
    apply Htail; [intros x Hx; apply Hnames; right; exact Hx | discriminate].
Qed.

(** X4. The list of allowed MIME types survives a round trip through its
    printed form: when ALLOWED_MIME_TYPES holds type names joined by ", "
    (the form in which [validateFileUpload] prints the list), none of them
    containing a comma or starting or ending with white space, the
    configuration's list is exactly those names, in order. *)
Theorem loadConfig_reads_back_the_printed_types
    (w : World) (c : Config) (names : list string) :
  loadConfig w = inr c ->
  names <> [] ->
  (forall t, In t names -> noOuterSpace t /\ hasChar "," t = false) ->
  String.concat ", " names <> "" ->
  process_env w "ALLOWED_MIME_TYPES" = Some (String.concat ", " names) ->
  upload_allowedMimeTypes c = names.
Proof.
  intros Hc Hne Hnames Hstr Henv.
  destruct (loadConfig_inr w c Hc) as (_ & _ & _ & _ & _ & Hmime & _).
  rewrite Hmime, (env_or_set w _ _ _ Henv Hstr).
  apply split_join; assumption.
Qed.

Lemma loadConfig_reads_back_the_printed_types_witness :
  let names := ["image/png"; "image/gif"] in
  let w :=
    Sample.withEnv (Fixture.world (Fixture.respond 200 "{}"))
      (("ALLOWED_MIME_TYPES", "image/png, image/gif") :: Sample.supabase) in
  exists c, loadConfig w = inr c /\ upload_allowedMimeTypes c = names.
Proof.
  cbv zeta.
  destruct (loadConfig
              (Sample.withEnv (Fixture.world (Fixture.respond 200 "{}"))
                 (("ALLOWED_MIME_TYPES", "image/png, image/gif")
                    :: Sample.supabase)))
    as [e | c] eqn:Hc; [vm_compute in Hc; discriminate Hc|].
  exists c. split; [reflexivity|].
  apply (loadConfig_reads_back_the_printed_types _ c
           ["image/png"; "image/gif"] Hc).
  - discriminate.
  - intros t [<- | [<- | []]]; repeat split; reflexivity.
  - discriminate.
  - reflexivity.
Defined.

(** ** utils.js *)

(** X5. [validateFileUpload] accepts exactly the uploads that are present,
    whose MIME type is in the allowed list, and whose byte count does not
    exceed the limit; when the limit is not a number (NaN) no upload is
    rejected for its size.  An accepted upload carries no error, a rejected
    one a non-empty message. *)
Theorem validateFileUpload_accepts_exactly
    (w : World) (data : option MultipartFile) (maxSize : Js.Num)
    (allowedMimeTypes : list string) :
  let v := validateFileUpload w data maxSize allowedMimeTypes in
  (isValid v = true <->
   exists f, data = Some f /\ In (mimetype f) allowedMimeTypes /\
             (maxSize = Js.NaN \/
              exists m, maxSize = Js.Int m /\ bytesRead (file f) <= m)) /\
  (isValid v = true -> error v = Js.Undefined) /\
  (isValid v = false -> exists msg, error v = Js.Str msg /\ msg <> "").
Proof.
  cbv zeta. unfold validateFileUpload.
  destruct data as [f|].
  - destruct (existsb (String.eqb (mimetype f)) allowedMimeTypes) eqn:Hmime;
      cbn [negb].
    + apply existsb_eqb_In in Hmime.
      destruct maxSize as [|m]; cbn [Js.gt Js.lt].
      * cbn. repeat split; try discriminate.
        intros _. exists f. repeat split; auto.
      * destruct (m <? bytesRead (file f)) eqn:Hlt; cbn.
        -- apply Z.ltb_lt in Hlt. repeat split; try discriminate.
           ++ intros (f' & Hf & _ & [Hnan | (m' & Hm & Hle)]);
                [discriminate|].
              injection Hf as <-. injection Hm as <-. lia.
           ++ intros _. eexists. split; [reflexivity | discriminate].
        -- apply Z.ltb_ge in Hlt. repeat split; try discriminate.
           intros _. exists f. repeat split; auto.
           right. exists m. split; [reflexivity | exact Hlt].
    + assert (Hnot : ~ In (mimetype f) allowedMimeTypes).
      { intros H. apply existsb_eqb_In in H. congruence. }
      cbn. repeat split; try discriminate.
      * intros (f' & Hf & Hin & _). injection Hf as <-. contradiction.
      * intros _. eexists. split; [reflexivity | discriminate].
  - cbn. repeat split; try discriminate.
    + intros (f & Hf & _). discriminate.
    + intros _. eexists. split; [reflexivity | discriminate].
Qed.

Lemma createErrorResponse_keys (message details code : Js.Val) :
  exists fields,
    createErrorResponse message details code = Js.Obj fields /\
    map fst fields =
      ("error" :: "message"
         :: (if Js.truthy details then ["details"] else [])
         ++ (if Js.truthy code then ["code"] else []))%list /\
    Js.get "error" fields = Js.Bool true /\
    Js.get "message" fields = message /\
    Js.get "details" fields =
      (if Js.truthy details then details else Js.Undefined) /\
    Js.get "code" fields = (if Js.truthy code then code else Js.Undefined).
Proof.
  rewrite createErrorResponse_fields. eexists. split; [reflexivity|].
  destruct (Js.truthy details), (Js.truthy code); repeat split.
Qed.

(** X6. An error response holds [error: true] and the message, followed by
    [details] and [code] only when they are truthy: a missing, null, false,
    zero, NaN or empty-string detail or code leaves no key behind. *)
Theorem createErrorResponse_drops_falsy_parts
    (message details code : Js.Val) :
  exists fields,
    createErrorResponse message details code = Js.Obj fields /\
    map fst fields =
      ("error" :: "message"
         :: (if Js.truthy details then ["details"] else [])
         ++ (if Js.truthy code then ["code"] else []))%list /\
    Js.get "error" fields = Js.Bool true /\
    Js.get "message" fields = message /\
    Js.get "details" fields =
      (if Js.truthy details then details else Js.Undefined) /\
    Js.get "code" fields = (if Js.truthy code then code else Js.Undefined).
Proof.
  exact (createErrorResponse_keys message details code).
Qed.

Lemma prefix_spec (t s : string) :
  String.prefix t s = true <-> exists b, s = t ++ b.
Proof.
  revert s. induction t as [|c t IH]; intros s.
  - split; [intros _; exists s; reflexivity|].
    intros _. destruct s; reflexivity.
  - destruct s as [|c' s]; simpl.
    + split; [discriminate | intros (b & Hb); discriminate].
    + destruct (ascii_dec c c') as [-> | Hne].
      * rewrite IH. split; intros (b & Hb); exists b; congruence.
      * split; [discriminate | intros (b & Hb); congruence].
Qed.

(** [includes] finds exactly the occurrences. *)
Lemma includes_spec (s t : string) :
  Js.includes s t = true <-> Contains s t.
Proof.
  unfold Contains. induction s as [|c s IH]; cbn [Js.includes].
  - rewrite orb_false_r, prefix_spec. split.
    + intros (b & Hb). exists "", b. exact Hb.
    + intros (a & b & H). destruct a; [|discriminate].
      exists b. exact H.
  - rewrite orb_true_iff, prefix_spec, IH. split.
    + intros [(b & Hb) | (a & b & Hab)].
      * exists "", b. exact Hb.
      * exists (String c a), b. simpl. congruence.
    + intros (a & b & H). destruct a as [|c' a].
      * left. exists b. exact H.
      * right. exists a, b. simpl in H. congruence.
Qed.

(** X7. The [catch] block of the [/compress] handlers logs the error once
    and replies 500; it labels the failure "Compression failed" /
    COMPRESSION_ERROR exactly when the message of the error contains the
    text "Compression failed" somewhere, and "Upload failed" /
    UPLOAD_ERROR otherwise, whatever raised the error. *)
Theorem compressCatch_labels_by_message (e : Js.Error) (tr : Trace) :
  exists r fields,
    compressCatch e tr = (inr r, (tr ++ [LogError e])%list) /\
    reply_code r = 500 /\ reply_payload r = Js.Obj fields /\
    (Contains (Js.message e) "Compression failed" ->
     Js.get "message" fields = Js.Str "Compression failed" /\
     Js.get "code" fields = Js.Str "COMPRESSION_ERROR") /\
    (~ Contains (Js.message e) "Compression failed" ->
     Js.get "message" fields = Js.Str "Upload failed" /\
     Js.get "code" fields = Js.Str "UPLOAD_ERROR").
Proof.
  rewrite compressCatch_run. unfold catchReply.
  destruct (Js.includes (Js.message e) "Compression failed") eqn:Hinc.
  - apply includes_spec in Hinc.
    destruct (createErrorResponse_keys
                (Js.Str "Compression failed") (Js.Str (Js.message e))
                (Js.Str "COMPRESSION_ERROR"))
      as (fields & Hf & _ & _ & Hm & _ & Hc).
    eexists. exists fields. split; [reflexivity|]. split; [reflexivity|].
    split; [exact Hf|]. split; [intros _; split; assumption|].
    intros Hnot. contradiction.
  - assert (Hnot : ~ Contains (Js.message e) "Compression failed").
    { intros H. apply includes_spec in H. congruence. }
    destruct (createErrorResponse_keys
                (Js.Str "Upload failed") (Js.Str (Js.message e))
                (Js.Str "UPLOAD_ERROR"))
      as (fields & Hf & _ & _ & Hm & _ & Hc).
    eexists. exists fields. split; [reflexivity|]. split; [reflexivity|].
    split; [exact Hf|]. split; [intros H; contradiction|].
    intros _. split; assumption.
Qed.

(** ** The [/compress] handlers: failures, calls and what is stored *)

Lemma upload_failure_text (msg : string) :
  Js.includes ("Supabase upload failed: " ++ msg) "Compression failed"
  = Js.includes msg "Compression failed".
Proof.
  reflexivity.
Qed.

(** X8. A failure is labelled by its text, not by where it happened.  For
    an accepted upload with a file name: the first definition, whose
    [fetch] refuses the stream it is given, replies 500 "Upload failed" /
    UPLOAD_ERROR although nothing was sent to the compression service or to
    storage; the second replies 500 "Upload failed" / UPLOAD_ERROR when its
    call to the compression service is rejected (network failure, timeout)
    with a message that does not contain "Compression failed", although no
    upload was attempted; and when storage refuses the upload, its reply is
    "Upload failed" unless the message of storage itself contains
    "Compression failed", in which case it is reported as a compression
    failure. *)
Theorem failures_are_labelled_by_their_text
    (config : Config) (w : World) (request : Request)
    (f : MultipartFile) (name : string) (tr : Trace) :
  request_file request = inr (Some f) ->
  accepted config f = true ->
  filename f = Some name ->
  RoutesV1.compress config w request tr =
  (inr (mkReply 500 []
          (createErrorResponse (Js.Str "Upload failed")
             (Js.Str (Js.message duplexRequired)) (Js.Str "UPLOAD_ERROR"))),
   (tr ++ [LogError duplexRequired])%list) /\
  forall image,
    toBuffer f = inr image ->
    let url := rust_serviceUrl config ++ "/compress" in
    let call := Fetch url "POST" (compressHeaders request) image in
    let answer := net_fetch w url "POST" (compressHeaders request) image in
    let filePath :=
      supabase_uploadPath config ++ "/" ++ generateUniqueFilename w name in
    (forall e,
        answer = inl e ->
        ~ Contains (Js.message e) "Compression failed" ->
        RoutesV2.compress config w request tr =
        (inr (mkReply 500 []
                (createErrorResponse (Js.Str "Upload failed")
                   (Js.Str (Js.message e)) (Js.Str "UPLOAD_ERROR"))),
         (tr ++ [call; LogError e])%list)) /\
    (forall response msg,
        answer = inr response -> ok response = true ->
        storage_upload w (supabase_bucket config) filePath (body response)
          (mimetype f) = inl msg ->
        fst (RoutesV2.compress config w request tr) =
        inr (mkReply 500 []
               (createErrorResponse
                  (Js.Str (if Js.includes msg "Compression failed"
                           then "Compression failed" else "Upload failed"))
                  (Js.Str ("Supabase upload failed: " ++ msg))
                  (Js.Str (if Js.includes msg "Compression failed"
                           then "COMPRESSION_ERROR" else "UPLOAD_ERROR"))))).
Proof.
  intros Hfile Hacc Hname. split.
  - exact (compress_v1_run config w request f name tr Hfile Hacc Hname).
  - intros image Hbuf url call answer filePath.
    rewrite (compress_v2_run config w request f name image tr
               Hfile Hacc Hbuf Hname).
    unfold attempt. cbv zeta.
    fold url. fold answer. fold call. fold filePath.
    split.
    + intros e He Hnot. rewrite He. unfold catchReply.
      destruct (Js.includes (Js.message e) "Compression failed") eqn:Hinc;
        [|reflexivity].
      apply includes_spec in Hinc. contradiction.
    + intros response msg Hans Hok Hup. rewrite Hans, Hok.
      fold filePath in Hup. rewrite Hup. cbn [fst]. unfold catchReply.
      cbn [Js.message Js.newError]. rewrite upload_failure_text.
      destruct (Js.includes msg "Compression failed"); reflexivity.
Qed.

Lemma failures_are_labelled_by_their_text_witness :
  let w := Fixture.world (Sample.unreachable "fetch failed") in
  let request := Fixture.request "image/png" in
  ~ Contains "fetch failed" "Compression failed" /\
  outcome (RoutesV2.compress Fixture.config w request) =
  inr (mkReply 500 []
         (createErrorResponse (Js.Str "Upload failed")
            (Js.Str "fetch failed") (Js.Str "UPLOAD_ERROR"))) /\
  count isUploadEvent (trace (RoutesV2.compress Fixture.config w request))
  = 0%nat.
Proof.
  cbv zeta.
  assert (Hnot : ~ Contains "fetch failed" "Compression failed").
  { intros H. apply includes_spec in H. discriminate H. }
  pose proof (proj1 (proj2 (failures_are_labelled_by_their_text
                              Fixture.config
                              (Fixture.world
                                 (Sample.unreachable "fetch failed"))
                              (Fixture.request "image/png")
                              (Fixture.upload "image/png") "photo.png" []
                              eq_refl eq_refl eq_refl)
                       Fixture.png eq_refl)
                (Js.newError "fetch failed") eq_refl Hnot) as Hrun.
  split; [exact Hnot|]. unfold outcome, trace, run. rewrite Hrun.
  split; reflexivity.
Defined.

(** The trace of a run, whatever came before it. *)
Lemma compress_traces (handler : Handler) (config : Config) (w : World)
    (request : Request) :
  handler = RoutesV1.compress \/ handler = RoutesV2.compress ->
  let tr := trace (handler config w request) in
  let out := outcome (handler config w request) in
  (tr = [] /\ ((exists e, out = inl e) \/
               (exists r, out = inr r /\ reply_code r = 400))) \/
  (handler = RoutesV1.compress /\ tr = [LogError duplexRequired] /\
   out = inr streamRefused) \/
  (handler = RoutesV2.compress /\
   exists f name image call,
     request_file request = inr (Some f) /\
     accepted config f = true /\
     filename f = Some name /\
     toBuffer f = inr image /\
     call = Fetch (rust_serviceUrl config ++ "/compress") "POST"
              (compressHeaders request) image /\
     ((exists e, tr = [call; LogError e] /\ out = inr (catchReply e)) \/
      (exists response,
          net_fetch w (rust_serviceUrl config ++ "/compress") "POST"
            (compressHeaders request) image = inr response /\
          ok response = true /\
          let upload :=
            StorageUpload (supabase_bucket config)
              (supabase_uploadPath config ++ "/"
               ++ generateUniqueFilename w name)
              (body response) (mimetype f) in
          ((exists e, tr = [call; upload; LogError e] /\
                      out = inr (catchReply e)) \/
           (tr = [call; upload] /\
            out = inr (jpegReply (body response))))))).
Proof.
  intros Hh. cbv zeta. unfold trace, outcome, run.
  destruct (compress_dispatch handler config w request [] Hh)
    as [(e & -> & _) | [(data & _ & _ & ->)
       | (f & name & Hfile & Hacc & Hname
          & [(Hv1 & ->) | (Hv2 & image & Hbuf & ->)])]].
  - left. split; [reflexivity|]. left. exists e. reflexivity.
  - left. split; [reflexivity|]. right. eexists. split; reflexivity.
  - right. left. repeat split. exact Hv1.
  - right. right. split; [exact Hv2|].
    exists f, name, image. eexists.
    split; [exact Hfile|]. split; [exact Hacc|]. split; [exact Hname|].
    split; [exact Hbuf|]. split; [reflexivity|].
    destruct (attempt_ends config w request f name image [])
      as [(e & -> & _)
         | (response & Hnet & Hok & [(msg & _ & ->) | (path & _ & ->)])].
    + left. exists e. split; reflexivity.
    + right. exists response. split; [exact Hnet|]. split; [exact Hok|].
      left. eexists. split; reflexivity.
    + right. exists response. split; [exact Hnet|]. split; [exact Hok|].
      right. split; reflexivity.
Qed.

(** X9. The calls of a [/compress] request.  A handler calls the
    compression service at most once and storage at most once; an upload
    to storage comes right after the call to the compression service, which
    is the first thing the trace holds; the handler logs one error for a
    reply with status 500 and none otherwise.  A request that is refused
    (status 400) or whose handler throws makes no call at all, every reply
    with status 200 has gone through one call and one upload to storage,
    and the first definition never calls either of them. *)
Theorem compress_call_discipline
    (handler : Handler) (config : Config) (w : World) (request : Request) :
  handler = RoutesV1.compress \/ handler = RoutesV2.compress ->
  let tr := trace (handler config w request) in
  let out := outcome (handler config w request) in
  (count isFetchEvent tr <= 1)%nat /\
  (count isUploadEvent tr <= count isFetchEvent tr)%nat /\
  (forall before e after,
      tr = (before ++ e :: after)%list -> isUploadEvent e = true ->
      exists call, before = [call] /\ isFetchEvent call = true) /\
  (forall r, out = inr r ->
             count isLogEvent tr = if reply_code r =? 500 then 1%nat else 0%nat)
  /\
  (forall e, out = inl e -> tr = []) /\
  (forall r, out = inr r -> reply_code r = 400 -> tr = []) /\
  (forall r, out = inr r -> reply_code r = 200 ->
             count isFetchEvent tr = 1%nat /\ count isUploadEvent tr = 1%nat) /\
  (handler = RoutesV1.compress ->
   count isFetchEvent tr = 0%nat /\ count isUploadEvent tr = 0%nat).
Proof.
  intros Hh. cbv zeta.
  assert (Horder : forall (call upload : Event) (rest : list Event),
             isFetchEvent call = true -> isUploadEvent call = false ->
             (forall x, In x rest -> isUploadEvent x = false) ->
             forall before e after,
               (call :: upload :: rest = before ++ e :: after)%list ->
               isUploadEvent e = true ->
               exists c, before = [c] /\ isFetchEvent c = true).
  { intros call upload rest Hcall Hnup Hrest before e after Heq He.
    destruct before as [|b1 [|b2 before]]; cbn [app] in Heq.
    - injection Heq as <- _. congruence.
    - injection Heq as <- _ _. exists call. split; [reflexivity | exact Hcall].
    - injection Heq as _ _ Heq.
      assert (Hin : In e rest) by (rewrite Heq; apply in_elt).
      rewrite (Hrest e Hin) in He. discriminate He. }
  assert (Hnone : forall (l : list Event),
             (forall x, In x l -> isUploadEvent x = false) ->
             forall before e after,
               (l = before ++ e :: after)%list -> isUploadEvent e = true ->
               exists c, before = [c] /\ isFetchEvent c = true).
  { intros l Hl before e after Heq He.
    assert (Hin : In e l) by (rewrite Heq; apply in_elt).
    rewrite (Hl e Hin) in He. discriminate He. }
  destruct (compress_traces handler config w request Hh)
    as [(Htr & Hout)
       | [(Hv1 & Htr & Hout)
       | (Hv2 & f & name & image & call & _ & _ & _ & _ & -> & Hends)]].
  - (* no call at all *)
    rewrite Htr.
    split; [|split; [|split; [|split; [|split; [|split; [|split]]]]]].
    + cbn. lia.
    + cbn. lia.
    + intros before e after Heq. destruct before; discriminate Heq.
    + intros r Hr. destruct Hout as [(e & He) | (r0 & Hr0 & H400)];
        [congruence|].
      assert (r = r0) by congruence. subst r0. rewrite H400. reflexivity.
    + intros e _. reflexivity.
    + intros r _ _. reflexivity.
    + intros r Hr H200. destruct Hout as [(e & He) | (r0 & Hr0 & H400)];
        [congruence|].
      assert (r = r0) by congruence. subst r0. congruence.
    + intros _. split; reflexivity.
  - (* the first definition on an accepted upload *)
    rewrite Htr, Hout.
    split; [|split; [|split; [|split; [|split; [|split; [|split]]]]]].
    + cbn. lia.
    + cbn. lia.
    + apply Hnone. intros x [<- | []]. reflexivity.
    + intros r Hr. injection Hr as <-. reflexivity.
    + intros e He. discriminate He.
    + intros r Hr H. injection Hr as <-. discriminate H.
    + intros r Hr H. injection Hr as <-. discriminate H.
    + intros _. split; reflexivity.
  - (* the [try] block of the second definition *)
    assert (Hne : handler <> RoutesV1.compress).
    { rewrite Hv2. intros H. apply handlers_are_distinct. symmetry. exact H. }
    destruct Hends as [(e & Htr & Hout)
                      | (response & _ & _
                         & [(e & Htr & Hout) | (Htr & Hout)])];
      rewrite Htr, Hout;
      (split; [|split; [|split; [|split; [|split; [|split; [|split]]]]]]);
      try (cbn; lia);
      try (intros H; contradiction);
      try (intros e0 He0; discriminate He0);
      try (intros r Hr; injection Hr as <-;
           rewrite ?catchReply_code; reflexivity);
      try (intros r Hr H; injection Hr as <-;
           rewrite ?catchReply_code in H; discriminate H).
    + apply Hnone. intros x [<- | [<- | []]]; reflexivity.
    + apply Horder; try reflexivity. intros x [<- | []]. reflexivity.
    + apply Horder; try reflexivity. intros x [].
Qed.

Lemma compress_call_discipline_witness :
  let w := Fixture.world (Fixture.respond 200 "jpeg") in
  let request := Fixture.request "image/png" in
  count isFetchEvent (trace (RoutesV2.compress Fixture.config w request))
  = 1%nat /\
  count isUploadEvent (trace (RoutesV2.compress Fixture.config w request))
  = 1%nat.
Proof.
  cbv zeta.
  destruct (compress_call_discipline RoutesV2.compress Fixture.config
              (Fixture.world (Fixture.respond 200 "jpeg"))
              (Fixture.request "image/png") (or_intror eq_refl))
    as (_ & _ & _ & _ & _ & _ & Hok & _).
  exact (Hok (jpegReply (list_byte_of_string "jpeg")) eq_refl eq_refl).
Defined.

(** X10. What reaches storage.  Whatever a [/compress] handler uploads is
    exactly the body with which the compression service answered (with an
    ok status) the call made with the buffered bytes of this request's
    upload; it goes to the configured bucket, under the upload path
    followed by the name generated from the file name of the upload, and
    with the MIME type of the upload as its content type.  Only the second
    definition uploads anything. *)
Theorem storage_receives_the_service_answer
    (handler : Handler) (config : Config) (w : World) (request : Request)
    (bucket path : string) (buffer : list byte) (contentType : string) :
  handler = RoutesV1.compress \/ handler = RoutesV2.compress ->
  In (StorageUpload bucket path buffer contentType)
     (trace (handler config w request)) ->
  handler = RoutesV2.compress /\
  exists f name image response,
    request_file request = inr (Some f) /\
    accepted config f = true /\
    filename f = Some name /\
    toBuffer f = inr image /\
    net_fetch w (rust_serviceUrl config ++ "/compress") "POST"
      (compressHeaders request) image = inr response /\
    ok response = true /\
    bucket = supabase_bucket config /\
    path = supabase_uploadPath config ++ "/"
           ++ generateUniqueFilename w name /\
    buffer = body response /\
    contentType = mimetype f.
Proof.
  intros Hh.
  pose proof (compress_traces handler config w request Hh) as Hcases.
  cbv zeta in Hcases.
  destruct Hcases
    as [(Htr & _)
       | [(_ & Htr & _)
       | (Hv2 & f & name & image & call & Hfile & Hacc & Hname & Hbuf & ->
          & Hends)]].
  - rewrite Htr. intros [].
  - rewrite Htr. intros [H | []]. discriminate H.
  - intros Hin. split; [exact Hv2|].
    exists f, name, image.
    destruct Hends as [(e & Htr & _)
                      | (response & Hnet & Hok
                         & [(e & Htr & _) | (Htr & _)])];
      rewrite Htr in Hin; cbn [In] in Hin;
      repeat match goal with
        | H : _ \/ _ |- _ => destruct H as [H | H]
        | H : False |- _ => destruct H
        | H : LogError _ = StorageUpload _ _ _ _ |- _ => discriminate H
        | H : Fetch _ _ _ _ = StorageUpload _ _ _ _ |- _ => discriminate H
        end;
      injection Hin as <- <- <- <-;
      exists response; repeat split; assumption.
Qed.

Lemma storage_receives_the_service_answer_witness :
  let w := Fixture.world (Fixture.respond 200 "jpeg") in
  let request := Fixture.request "image/png" in
  In (StorageUpload "images"
        "compressed/photo-1700000000000-00112233445566ff.png"
        (list_byte_of_string "jpeg") "image/png")
     (trace (RoutesV2.compress Fixture.config w request)) /\
  exists f name image response,
    request_file request = inr (Some f) /\
    accepted Fixture.config f = true /\
    filename f = Some name /\
    toBuffer f = inr image /\
    net_fetch w (rust_serviceUrl Fixture.config ++ "/compress") "POST"
      (compressHeaders request) image = inr response /\
    ok response = true /\
    "images" = supabase_bucket Fixture.config /\
    "compressed/photo-1700000000000-00112233445566ff.png"
    = supabase_uploadPath Fixture.config ++ "/"
      ++ generateUniqueFilename w name /\
    list_byte_of_string "jpeg" = body response /\
    "image/png" = mimetype f.
Proof.
  cbv zeta.
  assert (Hin :
    In (StorageUpload "images"
          "compressed/photo-1700000000000-00112233445566ff.png"
          (list_byte_of_string "jpeg") "image/png")
       (trace (RoutesV2.compress Fixture.config
                 (Fixture.world (Fixture.respond 200 "jpeg"))
                 (Fixture.request "image/png")))).
  { right. left. reflexivity. }
  split; [exact Hin|].
  exact (proj2 (storage_receives_the_service_answer RoutesV2.compress
                  Fixture.config
                  (Fixture.world (Fixture.respond 200 "jpeg"))
                  (Fixture.request "image/png") _ _ _ _
                  (or_intror eq_refl) Hin)).
Defined.

(** X11. An ok answer is passed on as it is.  For an accepted upload that
    buffers and has a file name, when the compression service answers with
    an ok status and storage accepts the upload, the second definition
    replies 200 with exactly the body of the answer under
    [Content-Type: image/jpeg], whatever that body holds (the bytes are not
    inspected: an empty body gives an empty 200), after one call and one
    upload and without logging anything. *)
Theorem ok_answer_is_passed_on
    (config : Config) (w : World) (request : Request) (f : MultipartFile)
    (name : string) (image : list byte) (response : Response) (path : string)
    (tr : Trace) :
  request_file request = inr (Some f) ->
  accepted config f = true ->
  toBuffer f = inr image ->
  filename f = Some name ->
  let url := rust_serviceUrl config ++ "/compress" in
  let filePath :=
    supabase_uploadPath config ++ "/" ++ generateUniqueFilename w name in
  net_fetch w url "POST" (compressHeaders request) image = inr response ->
  ok response = true ->
  storage_upload w (supabase_bucket config) filePath (body response)
    (mimetype f) = inr path ->
  RoutesV2.compress config w request tr =
  (inr (jpegReply (body response)),
   (tr ++ [Fetch url "POST" (compressHeaders request) image;
           StorageUpload (supabase_bucket config) filePath (body response)
             (mimetype f)])%list).
Proof.
  intros Hfile Hacc Hbuf Hname url filePath Hnet Hok Hup.
  rewrite (compress_v2_run config w request f name image tr
             Hfile Hacc Hbuf Hname).
  unfold attempt. cbv zeta. fold url. fold filePath.
  rewrite Hnet, Hok, Hup. reflexivity.
Qed.

Lemma ok_answer_is_passed_on_witness :
  let w := Fixture.world (Fixture.respond 204 "") in
  let request := Fixture.request "image/png" in
  outcome (RoutesV2.compress Fixture.config w request) = inr (jpegReply []).
Proof.
  cbv zeta. unfold outcome, run.
  rewrite (ok_answer_is_passed_on Fixture.config
             (Fixture.world (Fixture.respond 204 ""))
             (Fixture.request "image/png")
             (Fixture.upload "image/png") "photo.png" Fixture.png
             (mkResponse 204 [])
             "compressed/photo-1700000000000-00112233445566ff.png" []
             eq_refl eq_refl eq_refl eq_refl eq_refl eq_refl eq_refl).
  reflexivity.
Defined.

(** X12. What escapes the handlers.  A [/compress] handler throws in these
    cases and in no other: when the promise of the uploaded file is
    rejected; in the second definition, when buffering the accepted upload
    fails; and, for an accepted upload (that buffers, in the second
    definition), when the part has no file name, since
    [generateUniqueFilename] is called before the [try] block and
    [path.extname] throws a TypeError on undefined.  The error thrown is
    that rejection or that TypeError itself, and nothing is logged or
    called.  Every other run ends in a reply. *)
Theorem what_makes_a_handler_throw
    (handler : Handler) (config : Config) (w : World) (request : Request)
    (tr : Trace) :
  handler = RoutesV1.compress \/ handler = RoutesV2.compress ->
  forall e,
    (fst (handler config w request tr) = inl e <->
     request_file request = inl e \/
     exists f,
       request_file request = inr (Some f) /\
       accepted config f = true /\
       ((handler = RoutesV2.compress /\ toBuffer f = inl e) \/
        ((handler = RoutesV1.compress \/ exists image, toBuffer f = inr image)
         /\ filename f = None /\ e = ERR_INVALID_ARG_TYPE))) /\
    (fst (handler config w request tr) = inl e ->
     snd (handler config w request tr) = tr).
Proof.
  intros Hh e.
  destruct (compress_dispatch handler config w request tr Hh)
    as [(e0 & Hrun & Hcause) | [(data & Hfile & Hrej & Hrun)
       | (f & name & Hfile & Hacc & Hname & Hrun)]].
  - rewrite Hrun. cbn [fst snd]. split; [|reflexivity]. split.
    + intros H. injection H as <-. exact Hcause.
    + intros Hcause'. f_equal.
      destruct Hcause as [He0 | (f0 & Hfile0 & Hacc0 & Hwhy0)];
        destruct Hcause' as [He | (f1 & Hfile1 & Hacc1 & Hwhy1)];
        try congruence.
      assert (f1 = f0) by congruence. subst f1.
      destruct Hwhy0 as [(Hv0 & Hb0) | (Hor0 & Hn0 & ->)];
        destruct Hwhy1 as [(Hv1 & Hb1) | (Hor1 & Hn1 & ->)];
        try congruence.
      * destruct Hor1 as [Hv1 | (image & Hb1)]; [|congruence].
        exfalso. apply handlers_are_distinct. congruence.
      * destruct Hor0 as [Hv0 | (image & Hb0)]; [|congruence].
        exfalso. apply handlers_are_distinct. congruence.
  - assert (Hfst : fst (handler config w request tr) <> inl e)
      by (rewrite Hrun; discriminate).
    split; [|intros H; contradiction]. split; [intros H; contradiction|].
    intros [He | (f & Hfile' & Hacc & _)]; [congruence|].
    rewrite Hfile in Hfile'. injection Hfile' as ->. congruence.
  - assert (Hfst : fst (handler config w request tr) <> inl e).
    { destruct Hrun as [(_ & ->) | (_ & image & _ & ->)]; [discriminate|].
      destruct (attempt_reply config w request f name image tr)
        as (r & tr' & -> & _). discriminate. }
    split; [|intros H; contradiction]. split; [intros H; contradiction|].
    intros [He | (f' & Hfile' & Hacc' & Hwhy)]; [congruence|].
    assert (f' = f) by congruence. subst f'.
    destruct Hwhy as [(Hv & Hb) | (_ & Hn & _)]; [|congruence].
    destruct Hrun as [(Hv1 & _) | (_ & image & Hbuf & _)]; [|congruence].
    exfalso. apply handlers_are_distinct. congruence.
Qed.

Lemma what_makes_a_handler_throw_witness :
  let config := Sample.configOf Sample.binary in
  let w := Fixture.world (Fixture.respond 200 "jpeg") in
  let request :=
    Server.request config (Server.Multipart [] (Some Sample.nameless)) in
  fst (RoutesV2.compress config w request []) = inl ERR_INVALID_ARG_TYPE /\
  snd (RoutesV2.compress config w request []) = [].
Proof.
  cbv zeta.
  destruct (what_makes_a_handler_throw RoutesV2.compress
              (Sample.configOf Sample.binary)
              (Fixture.world (Fixture.respond 200 "jpeg"))
              (Server.request (Sample.configOf Sample.binary)
                 (Server.Multipart [] (Some Sample.nameless)))
              [] (or_intror eq_refl) ERR_INVALID_ARG_TYPE) as [Hiff Htrace].
  assert (Hthrown :
    fst (RoutesV2.compress (Sample.configOf Sample.binary)
           (Fixture.world (Fixture.respond 200 "jpeg"))
           (Server.request (Sample.configOf Sample.binary)
              (Server.Multipart [] (Some Sample.nameless))) [])
    = inl ERR_INVALID_ARG_TYPE).
  { apply Hiff. right.
    exists (Server.multipartFile
              (upload_maxSize (Sample.configOf Sample.binary))
              Sample.nameless).
    split; [reflexivity|]. split; [reflexivity|]. right.
    split; [right; exists Fixture.png; reflexivity|].
    split; reflexivity. }
  split; [exact Hthrown | exact (Htrace Hthrown)].
Defined.

(** ** Objects *)

Lemma get_replace_same (k : string) (v : Js.Val) (o : list (string * Js.Val)) :
  Js.has k o = true -> Js.get k (Js.replace k v o) = v.
Proof.
  induction o as [|[k' v'] o IH]; simpl; [discriminate|].
  destruct (String.eqb k k') eqn:E; simpl.
  - intros _. rewrite E. reflexivity.
  - intros H. rewrite E. apply IH, H.
Qed.

Lemma get_replace_other (k k0 : string) (v : Js.Val)
    (o : list (string * Js.Val)) :
  k0 <> k -> Js.get k0 (Js.replace k v o) = Js.get k0 o.
Proof.
  intros Hne. induction o as [|[k' v'] o IH]; simpl; [reflexivity|].
  destruct (String.eqb_spec k k') as [<- | Hk]; simpl.
  - destruct (String.eqb_spec k0 k); [contradiction | reflexivity].
  - rewrite IH. reflexivity.
Qed.

Lemma get_append_new (k k0 : string) (v : Js.Val)
    (o : list (string * Js.Val)) :
  Js.get k0 (o ++ [(k, v)])%list =
  if Js.has k0 o then Js.get k0 o
  else if String.eqb k0 k then v else Js.Undefined.
Proof.
  induction o as [|[k' v'] o IH]; simpl; [reflexivity|].
  destruct (String.eqb k0 k'); simpl; [reflexivity | exact IH].
Qed.

Lemma has_get_undefined (k : string) (o : list (string * Js.Val)) :
  Js.has k o = false -> Js.get k o = Js.Undefined.
Proof.
  induction o as [|[k' v'] o IH]; simpl; [reflexivity|].
  destruct (String.eqb k k'); simpl; [discriminate | exact IH].
Qed.

(** Reading after writing. *)
Lemma get_set (k k0 : string) (v : Js.Val) (o : list (string * Js.Val)) :
  Js.get k0 (Js.set k v o) = if String.eqb k0 k then v else Js.get k0 o.
Proof.
  unfold Js.set. destruct (Js.has k o) eqn:Hhas.
  - destruct (String.eqb_spec k0 k) as [-> | Hne].
    + apply get_replace_same, Hhas.
    + apply get_replace_other, Hne.
  - rewrite get_append_new.
    destruct (String.eqb_spec k0 k) as [-> | Hne].
    + rewrite Hhas. reflexivity.
    + destruct (Js.has k0 o) eqn:H0; [reflexivity|].
      symmetry. apply has_get_undefined, H0.
Qed.

Lemma has_In_keys (k : string) (o : list (string * Js.Val)) :
  Js.has k o = true <-> In k (map fst o).
Proof.
  induction o as [|[k' v'] o IH]; simpl; [split; [discriminate | tauto]|].
  rewrite orb_true_iff, IH. split.
  - intros [H | H]; [left; apply String.eqb_eq in H; congruence | right; exact H].
  - intros [H | H]; [left; subst; apply String.eqb_refl | right; exact H].
Qed.

(** The properties of [{ ...o, ...src }] when the keys of [src] are
    distinct: those of [src], then those of [o]. *)
Lemma get_assign (k : string) (o src : list (string * Js.Val)) :
  distinctKeys src ->
  Js.get k (Js.assign o src) = if Js.has k src then Js.get k src else Js.get k o.
Proof.
  unfold distinctKeys, Js.assign. revert o.
  induction src as [|[k' v'] src IH]; intros o Hnd; simpl; [reflexivity|].
  inversion Hnd as [|? ? Hnotin Hnd']; subst.
  rewrite (IH _ Hnd'), get_set.
  destruct (String.eqb_spec k k') as [-> | Hne]; simpl.
  - destruct (Js.has k' src) eqn:Hhas; [|reflexivity].
    apply has_In_keys in Hhas. contradiction.
  - reflexivity.
Qed.

(** ** Health, metrics and the hooks *)

(** X13. The health reply passes the service's fields on.  When the
    compression service answers [/health] with an ok status and a JSON
    object with distinct keys, the reply is 200 and every field of that
    object is in the reply with its value; [status] is "ok" only if the
    object has no [status] of its own, and the reply holds no other field. *)
Theorem health_passes_the_service_fields_on
    (config : Config) (w : World) (response : Response)
    (fields : list (string * Js.Val)) (tr : Trace) :
  net_fetch w (rust_serviceUrl config ++ "/health") "GET" [] [] = inr response ->
  ok response = true ->
  JSON_parse w (text response) = inr (Js.Obj fields) ->
  distinctKeys fields ->
  exists payload,
    fst (health config w tr) = inr (mkReply 200 [] (Js.Obj payload)) /\
    (forall k, Js.has k fields = true -> Js.get k payload = Js.get k fields) /\
    (Js.has "status" fields = false -> Js.get "status" payload = Js.Str "ok") /\
    (forall k, k <> "status" -> Js.has k fields = false ->
               Js.get k payload = Js.Undefined).
Proof.
  intros Hnet Hok Hjson Hkeys.
  exists (Js.assign [("status", Js.Str "ok")] fields).
  split.
  - unfold health, CompressionService.getHealth. unfold_monad.
    rewrite Hnet. reduce_run. rewrite Hok. cbn [negb].
    rewrite Hjson. reflexivity.
  - repeat split.
    + intros k Hk. rewrite (get_assign k _ fields Hkeys), Hk. reflexivity.
    + intros Hk. rewrite (get_assign _ _ fields Hkeys), Hk. reflexivity.
    + intros k Hne Hk. rewrite (get_assign k _ fields Hkeys), Hk. simpl.
      destruct (String.eqb_spec k "status"); [contradiction | reflexivity].
Qed.

Lemma health_passes_the_service_fields_on_witness :
  let w :=
    Sample.jsonIs (Fixture.world (Fixture.respond 200 "{}"))
      (Js.Obj [("status", Js.Str "degraded"); ("uptime", Js.Number (Js.Int 7))]) in
  exists payload,
    fst (health Fixture.config w []) = inr (mkReply 200 [] (Js.Obj payload)) /\
    Js.get "status" payload = Js.Str "degraded" /\
    Js.get "uptime" payload = Js.Number (Js.Int 7).
Proof.
  cbv zeta.
  assert (Hkeys : distinctKeys
            [("status", Js.Str "degraded"); ("uptime", Js.Number (Js.Int 7))]).
  { unfold distinctKeys. simpl. repeat constructor; simpl; intuition discriminate. }
  destruct (health_passes_the_service_fields_on Fixture.config
              (Sample.jsonIs (Fixture.world (Fixture.respond 200 "{}"))
                 (Js.Obj [("status", Js.Str "degraded");
                          ("uptime", Js.Number (Js.Int 7))]))
              (mkResponse 200 (list_byte_of_string "{}"))
              [("status", Js.Str "degraded"); ("uptime", Js.Number (Js.Int 7))]
              [] eq_refl eq_refl eq_refl Hkeys)
    as (payload & Hrun & Hget & _).
  exists payload. split; [exact Hrun|].
  split; [exact (Hget "status" eq_refl) | exact (Hget "uptime" eq_refl)].
Defined.

(** X14. [GET /metrics] never throws.  It replies 200 exactly when the
    compression service answers with an ok status and a body that parses
    as JSON, and the payload is then the parsed value itself; in every
    other case it replies 500 "Metrics unavailable" with the message of
    the failure as details, after logging it. *)
Theorem metrics_relays_the_parsed_body (config : Config) (w : World) :
  let url := rust_serviceUrl config ++ "/metrics" in
  exists r,
    outcome (metrics config w) = inr r /\
    ((reply_code r = 200 /\
      count isLogEvent (trace (metrics config w)) = 0%nat /\
      exists response,
        net_fetch w url "GET" [] [] = inr response /\ ok response = true /\
        JSON_parse w (text response) = inr (reply_payload r)) \/
     (reply_code r = 500 /\
      count isLogEvent (trace (metrics config w)) = 1%nat /\
      (forall response,
          net_fetch w url "GET" [] [] = inr response -> ok response = true ->
          exists e, JSON_parse w (text response) = inl e) /\
      exists e,
        reply_payload r =
        createErrorResponse (Js.Str "Metrics unavailable")
          (Js.Str (Js.message e)) (Js.Str "METRICS_ERROR"))).
Proof.
  cbv zeta. unfold outcome, trace, run. rewrite metrics_run. cbv zeta.
  destruct (net_fetch w _ _ _ _) as [e | response] eqn:Hnet.
  - eexists. split; [reflexivity|]. right.
    split; [reflexivity|]. split; [reflexivity|].
    split; [intros ? H; discriminate H | eexists; reflexivity].
  - destruct (ok response) eqn:Hok.
    + destruct (JSON_parse w (text response)) as [e | v] eqn:Hjson.
      * eexists. split; [reflexivity|]. right.
        split; [reflexivity|]. split; [reflexivity|]. split.
        -- intros r' Hr' _. injection Hr' as <-. eauto.
        -- eexists. reflexivity.
      * eexists. split; [reflexivity|]. left.
        split; [reflexivity|]. split; [reflexivity|].
        exists response. repeat split; assumption.
    + eexists. split; [reflexivity|]. right.
      split; [reflexivity|]. split; [reflexivity|]. split.
      * intros r' Hr' Hok'. injection Hr' as <-. congruence.
      * eexists. reflexivity.
Qed.

(** X15. What [errorHandler] lets out.  For an error that carries neither
    validation details nor a status code, the reply outside development
    (NODE_ENV other than "development") is the same whatever the error
    says: its message reaches the log only.  An error without validation
    details that carries a non-zero status code is answered with that
    status and with its own message as the message of the reply, in every
    environment.  An error with validation details is answered 400
    "Validation Error" with those details, whatever status code and
    message it carries. *)
Theorem errorHandler_keeps_unexpected_messages_private
    (w : World) (tr : Trace) :
  (process_env w "NODE_ENV" <> Some "development" ->
   forall msg1 msg2,
     fst (errorHandler w (Js.newError msg1) tr)
     = fst (errorHandler w (Js.newError msg2) tr) /\
     snd (errorHandler w (Js.newError msg1) tr)
     = (tr ++ [LogError (Js.newError msg1)])%list) /\
  (forall msg validation c details code,
     Js.truthy validation = false ->
     c <> 0 ->
     exists fields,
       fst (errorHandler w (Js.mkError msg validation (Some c) details code) tr)
       = inr (mkReply c [] (Js.Obj fields)) /\
       Js.get "message" fields = Js.Str msg) /\
  (forall e,
     Js.truthy (Js.validation e) = true ->
     fst (errorHandler w e tr) =
     inr (mkReply 400 []
            (createErrorResponse (Js.Str "Validation Error") (Js.validation e)
               (Js.Str "VALIDATION_ERROR")))).
Proof.
  split; [|split].
  - intros Henv msg1 msg2. unfold errorHandler. unfold_monad.
    cbn [Js.validation Js.statusCode Js.newError Js.truthy Js.message fst snd].
    destruct (process_env w "NODE_ENV") as [v|]; [|split; reflexivity].
    destruct (String.eqb_spec v "development") as [-> | Hne];
      [congruence | split; reflexivity].
  - intros msg validation c details code Hv Hc.
    unfold errorHandler. unfold_monad.
    cbn [Js.validation Js.statusCode Js.message Js.details Js.code].
    rewrite Hv.
    destruct (Z.eqb_spec c 0) as [-> | _]; [congruence|].
    cbn [fst].
    destruct (createErrorResponse_keys (Js.Str msg)
                (or_else details Js.Null) (or_else code (Js.Str "API_ERROR")))
      as (fields & -> & _ & _ & Hm & _).
    exists fields. split; [reflexivity | exact Hm].
  - intros e Hv. unfold errorHandler. unfold_monad. rewrite Hv. reflexivity.
Qed.

Lemma errorHandler_keeps_unexpected_messages_private_witness :
  let w :=
    Sample.withEnv (Fixture.world (Fixture.respond 200 "{}"))
      (("NODE_ENV", "production") :: Sample.supabase) in
  process_env w "NODE_ENV" <> Some "development" /\
  fst (errorHandler w (Js.newError "select * from users failed") [])
  = fst (errorHandler w (Js.newError "") []).
Proof.
  cbv zeta.
  assert (Henv :
    process_env
      (Sample.withEnv (Fixture.world (Fixture.respond 200 "{}"))
         (("NODE_ENV", "production") :: Sample.supabase)) "NODE_ENV"
    <> Some "development") by discriminate.
  split; [exact Henv|].
  exact (proj1 (proj1 (errorHandler_keeps_unexpected_messages_private _ [])
                  Henv "select * from users failed" "")).
Defined.

(** X16. The API key hook, with the configuration as loaded.  When
    API_KEY is unset or empty the hook lets every request through; when it
    is set, a request passes exactly when its [x-api-key] header equals
    the key, and any other request (no header, empty header, another
    value) is answered 401 "Unauthorized". *)
Theorem apiKeyAuth_admits_exactly_the_key
    (w : World) (c : Config) (header : option string) :
  loadConfig w = inr c ->
  (apiKeyAuth c header = None <->
   ~ envSet w "API_KEY" \/
   exists k, process_env w "API_KEY" = Some k /\ header = Some k) /\
  (apiKeyAuth c header = None \/ apiKeyAuth c header = Some unauthorized).
Proof.
  intros Hc.
  destruct (loadConfig_inr w c Hc) as (_ & _ & _ & _ & _ & _ & Hkey & _).
  unfold apiKeyAuth, envSet. rewrite Hkey.
  destruct (process_env w "API_KEY") as [k|].
  - destruct (String.eqb_spec k "") as [Hk0 | Hk].
    + split; [|left; reflexivity].
      split; [|reflexivity].
      intros _. left. intros (v & Hv & Hne). congruence.
    + destruct (String.eqb_spec k ""); [contradiction|].
      destruct header as [h|].
      * destruct (String.eqb_spec h "") as [-> | Hh]; cbn [orb].
        -- split; [|right; reflexivity]. split; [discriminate|].
           intros [Hnot | (k' & Hk' & Hh')].
           ++ exfalso. apply Hnot. exists k. split; [reflexivity | exact Hk].
           ++ congruence.
        -- destruct (String.eqb_spec h k) as [-> | Hhk]; cbn [negb].
           ++ split; [|left; reflexivity]. split; [|reflexivity].
              intros _. right. exists k. split; reflexivity.
           ++ split; [|right; reflexivity]. split; [discriminate|].
              intros [Hnot | (k' & Hk' & Hh')].
              ** exfalso. apply Hnot. exists k.
                 split; [reflexivity | exact Hk].
              ** congruence.
      * split; [|right; reflexivity]. split; [discriminate|].
        intros [Hnot | (k' & _ & Hh')]; [|discriminate].
        exfalso. apply Hnot. exists k. split; [reflexivity | exact Hk].
  - split; [|left; reflexivity]. split; [|reflexivity].
    intros _. left. intros (v & Hv & _). discriminate.
Qed.

Lemma apiKeyAuth_admits_exactly_the_key_witness :
  let w :=
    Sample.withEnv (Fixture.world (Fixture.respond 200 "{}"))
      (("API_KEY", "s3cret") :: Sample.supabase) in
  exists c,
    loadConfig w = inr c /\
    apiKeyAuth c (Some "s3cret") = None /\
    apiKeyAuth c (Some "guess") = Some unauthorized /\
    apiKeyAuth c None = Some unauthorized.
Proof.
  cbv zeta.
  destruct (loadConfig
              (Sample.withEnv (Fixture.world (Fixture.respond 200 "{}"))
                 (("API_KEY", "s3cret") :: Sample.supabase)))
    as [e | c] eqn:Hc; [vm_compute in Hc; discriminate Hc|].
  exists c. split; [reflexivity|].
  split.
  - apply (proj1 (apiKeyAuth_admits_exactly_the_key _ c (Some "s3cret") Hc)).
    right. exists "s3cret". split; reflexivity.
  - vm_compute in Hc. injection Hc as <-. split; reflexivity.
Defined.

(** ** Generated file names *)

Lemma length_append (a b : string) :
  String.length (a ++ b) = (String.length a + String.length b)%nat.
Proof.
  induction a as [|c a IH]; simpl; [reflexivity | rewrite IH; reflexivity].
Qed.

Lemma append_cancel_left (a x y : string) : a ++ x = a ++ y -> x = y.
Proof.
  induction a as [|c a IH]; simpl; intros H; [exact H|].
  injection H as H. apply IH, H.
Qed.

Lemma append_same_length (a b x y : string) :
  String.length a = String.length b -> a ++ x = b ++ y -> a = b /\ x = y.
Proof.
  revert b. induction a as [|c a IH]; intros [|c' b] Hlen H;
    try discriminate Hlen.
  - split; [reflexivity | exact H].
  - simpl in *. injection Hlen as Hlen. injection H as -> H.
    destruct (IH b Hlen H) as [-> ->]. split; reflexivity.
Qed.

Lemma string_of_Z_inj (x y : Z) : Js.string_of_Z x = Js.string_of_Z y -> x = y.
Proof.
  intros H.
  pose proof (proj2 (parseInt_string_of_Z x None (or_introl eq_refl))) as Hx.
  pose proof (proj2 (parseInt_string_of_Z y None (or_introl eq_refl))) as Hy.
  rewrite H in Hx. congruence.
Qed.

(** X17. Generated names are unique per draw.  For one original file name,
    two draws of the clock and of the random source (hexadecimal strings of
    the same length, as [randomBytes(8)] gives) that differ in the time or
    in the random part give different names: equal names force equal time
    and equal random part. *)
Theorem generateUniqueFilename_separates_draws
    (w : World) (now1 now2 : Z) (hex1 hex2 originalFilename : string) :
  String.length hex1 = String.length hex2 ->
  generateUniqueFilename (Sample.redraw w now1 hex1) originalFilename
  = generateUniqueFilename (Sample.redraw w now2 hex2) originalFilename ->
  now1 = now2 /\ hex1 = hex2.
Proof.
  intros Hlen. unfold generateUniqueFilename, Sample.redraw.
  cbn [Date_now randomBytes8_hex path_extname path_basename].
  set (ext := path_extname w originalFilename).
  set (name := path_basename w originalFilename ext).
  intros H.
  apply append_cancel_left in H. apply (append_cancel_left "-") in H.
  assert (Hlen_t : String.length (Js.string_of_Z now1)
                   = String.length (Js.string_of_Z now2)).
  { apply (f_equal String.length) in H.
    rewrite ?length_append in H. simpl in H. rewrite ?length_append in H.
    lia. }
  destruct (append_same_length _ _ _ _ Hlen_t H) as [Ht Hrest].
  apply string_of_Z_inj in Ht.
  apply (append_cancel_left "-") in Hrest.
  destruct (append_same_length _ _ _ _ Hlen Hrest) as [Hh _].
  split; assumption.
Qed.

Lemma generateUniqueFilename_separates_draws_witness :
  String.length "00112233445566ff" = String.length "00112233445566ff" /\
  (generateUniqueFilename
     (Sample.redraw (Fixture.world (Fixture.respond 200 "{}"))
        1700000000000 "00112233445566ff") "photo.png"
   = generateUniqueFilename
       (Sample.redraw (Fixture.world (Fixture.respond 200 "{}"))
          1700000000000 "00112233445566ff") "photo.png") /\
  1700000000000 = 1700000000000.
Proof.
  split; [reflexivity|]. split; [reflexivity|].
  exact (proj1 (generateUniqueFilename_separates_draws
                  (Fixture.world (Fixture.respond 200 "{}"))
                  1700000000000 1700000000000
                  "00112233445566ff" "00112233445566ff" "photo.png"
                  eq_refl eq_refl)).
Defined.

(** ** Refused uploads and signed or padded qualities *)

(** X18. A refused upload is told why.  Both handlers answer a request
    without a file with status 400, message "Invalid file", code
    VALIDATION_ERROR and the detail "No file provided", and a file of a
    type that is not allowed with the same reply carrying the list of
    allowed types; no call is made and nothing is logged.  On a request as
    the server delivers it, with a size limit that is not negative, these
    are the only replies with status 400 that a handler sends: the "File
    too large" detail of [validateFileUpload] is never sent. *)
Theorem refused_uploads_are_told_why
    (handler : Handler) (config : Config) (w : World) :
  handler = RoutesV1.compress \/ handler = RoutesV2.compress ->
  (forall request tr,
      request_file request = inr None ->
      handler config w request tr = (inr (refusal "No file provided"), tr)) /\
  (forall request tr f,
      request_file request = inr (Some f) ->
      ~ In (mimetype f) (upload_allowedMimeTypes config) ->
      handler config w request tr = (inr (invalidType config), tr)) /\
  (forall m i r tr,
      upload_maxSize config = Js.Int m -> 0 <= m ->
      handler config w (Server.request config i) [] = (inr r, tr) ->
      reply_code r = 400 ->
      tr = [] /\
      (r = refusal "No file provided" \/ r = invalidType config)).
Proof.
  intros Hh. split; [|split].
  - intros request tr Hfile.
    apply (compress_no_file handler config w request tr Hh Hfile).
  - intros request tr f Hfile Hnot.
    assert (Hmime : existsb (String.eqb (mimetype f))
                      (upload_allowedMimeTypes config) = false).
    { destruct (existsb _ _) eqn:E; [|reflexivity].
      apply existsb_eqb_In in E. contradiction. }
    assert (Hacc : accepted config f = false)
      by (unfold accepted; rewrite Hmime; reflexivity).
    rewrite (compress_rejected handler config w request f tr Hh Hfile Hacc).
    unfold validateFileUpload. rewrite Hmime. reflexivity.
  - intros m i r tr Hmax Hm Hrun H400.
    destruct (compress_dispatch handler config w (Server.request config i) []
                Hh)
      as [(e & He & _) | [(data & Hfile & Hrej & Hrefused)
         | (f & name & _ & _ & _ & Hruns)]].
    + rewrite He in Hrun. discriminate Hrun.
    + rewrite Hrefused in Hrun. injection Hrun as <- <-.
      split; [reflexivity|].
      destruct i as [fields [p |] | body]; cbn in Hfile;
        try discriminate Hfile; injection Hfile as <-.
      * right. apply (served_refusal config w p m Hmax Hm Hrej).
      * left. reflexivity.
    + exfalso.
      destruct Hruns as [(_ & Hv1) | (_ & image & _ & Hatt)].
      * rewrite Hv1 in Hrun. injection Hrun as <- _. discriminate H400.
      * rewrite Hatt in Hrun.
        destruct (attempt_reply config w (Server.request config i) f name
                    image [])
          as (r0 & tr0 & Hrun0 & Hr0).
        rewrite Hrun0 in Hrun. injection Hrun as <- _.
        destruct Hr0 as [(H200 & _) | (H500 & _)]; congruence.
Qed.

Lemma refused_uploads_are_told_why_witness :
  RoutesV2.compress Fixture.config (Fixture.world (Fixture.respond 200 "{}"))
    (Server.request Fixture.config (Server.Multipart [] None)) []
  = (inr (refusal "No file provided"), []).
Proof.
  exact (proj1 (refused_uploads_are_told_why RoutesV2.compress Fixture.config
                  (Fixture.world (Fixture.respond 200 "{}"))
                  (or_intror eq_refl))
           (Server.request Fixture.config (Server.Multipart [] None)) []
           eq_refl).
Defined.

Lemma trimStart_white (ws s : string) :
  allWhite ws = true -> Js.trimStart (ws ++ s) = Js.trimStart s.
Proof.
  induction ws as [|c ws IH]; simpl; intros H; [reflexivity|].
  apply andb_prop in H as [Hc Hws]. rewrite Hc. apply IH, Hws.
Qed.

Lemma digitValue_nonneg (c : ascii) (d : Z) :
  Js.digitValue c = Some d -> 0 <= d.
Proof.
  unfold Js.digitValue. set (n := Z.of_nat (nat_of_ascii c)).
  destruct ((48 <=? n) && (n <=? 57)) eqn:E1.
  - apply andb_prop in E1 as [H _]. apply Z.leb_le in H.
    intros Hd. injection Hd as <-. lia.
  - destruct ((97 <=? n) && (n <=? 122)) eqn:E2.
    + apply andb_prop in E2 as [H _]. apply Z.leb_le in H.
      intros Hd. injection Hd as <-. lia.
    + destruct ((65 <=? n) && (n <=? 90)) eqn:E3; [|discriminate].
      apply andb_prop in E3 as [H _]. apply Z.leb_le in H.
      intros Hd. injection Hd as <-. lia.
Qed.

Lemma mathInt_nonneg (R : Z) (s : string) :
  0 <= R -> 0 <= Js.mathInt R (Js.digitsPrefix R s).
Proof.
  intros HR. unfold Js.mathInt.
  assert (H : forall acc, 0 <= acc ->
            0 <= fold_left (fun a d => a * R + d) (Js.digitsPrefix R s) acc).
  { induction s as [|c s IH]; intros acc Hacc; simpl; [exact Hacc|].
    unfold Js.radixDigit.
    destruct (Js.digitValue c) as [d|] eqn:Hd; [|exact Hacc].
    destruct (d <? R); [|exact Hacc].
    simpl. apply IH. pose proof (digitValue_nonneg c d Hd). nia. }
  apply H. lia.
Qed.

(** X19. White space before the quality is ignored, and a minus sign
    always ends in the default: [parseQuality] gives the same result for a
    string and for that string behind any run of white space, and it
    returns the default for every string that starts with "-". *)
Theorem parseQuality_ignores_padding_and_refuses_minus
    (s : string) (defaultQuality : Js.Num) :
  (forall ws, allWhite ws = true ->
              parseQuality (Js.Str (ws ++ s)) defaultQuality
              = parseQuality (Js.Str s) defaultQuality) /\
  parseQuality (Js.Str (String "-" s)) defaultQuality = defaultQuality.
Proof.
  split.
  - intros ws Hws. rewrite !parseQuality_cases, !parseInt_no_radix.
    cbn [Js.ToString]. rewrite (trimStart_white ws s Hws). reflexivity.
  - apply parseQuality_unusable. unfold unusableQuality.
    rewrite parseInt_no_radix. cbn [Js.ToString Js.trimStart].
    change (Js.isStrWhiteSpaceChar "-") with false. cbv iota.
    change (Js.stripSign (String "-" s)) with (-1, s). cbv beta iota zeta.
    destruct (Js.stripHexPrefix s) as [r|].
    + pose proof (mathInt_nonneg 16 r ltac:(lia)) as Hnn.
      destruct (Js.digitsPrefix 16 r) as [|d' l]; [left; reflexivity|].
      right. eexists. split; [reflexivity|]. lia.
    + pose proof (mathInt_nonneg 10 s ltac:(lia)) as Hnn.
      destruct (Js.digitsPrefix 10 s) as [|d' l]; [left; reflexivity|].
      right. eexists. split; [reflexivity|]. lia.
Qed.

(** ** Requests as they are served *)


(** X21. The first definition, as it is registered, compresses nothing.
    Its body schema refuses every request without an object as its body,
    so every multipart request; a request that the schema lets through is
    not multipart, and [request.file()] rejects.  Whatever the request, the
    route makes no call and logs nothing, and it sends no reply of its
    own: the request is refused by the schema or the handler throws the
    "not multipart" error of the plugin. *)
Theorem first_route_compresses_nothing
    (config : Config) (w : World) (i : Server.Incoming) :
  snd (Server.compressV1 config w i) = [] /\
  (fst (Server.compressV1 config w i) = Server.Invalid \/
   fst (Server.compressV1 config w i)
   = Server.Thrown Server.InvalidMultipartContentTypeError) /\
  (fst (Server.compressV1 config w i) = Server.Invalid <->
   Server.bodySchema w (request_body (Server.request config i)) = false) /\
  (forall fields part,
      i = Server.Multipart fields part ->
      Server.compressV1 config w i = (Server.Invalid, [])) /\
  In (Server.statusOf (fst (Server.compressV1 config w i))) [400; 406].
Proof.
  rewrite compressV1_run.
  destruct i as [fields part | body].
  - cbn [fst snd Server.statusOf].
    split; [reflexivity|]. split; [left; reflexivity|].
    split; [split; reflexivity|]. split; [reflexivity|].
    left. reflexivity.
  - change (request_body (Server.request config (Server.NotMultipart body)))
      with body.
    destruct (Server.bodySchema w body); cbn [fst snd Server.statusOf].
    + split; [reflexivity|]. split; [right; reflexivity|].
      split; [split; discriminate|].
      split; [intros fields part H; discriminate H|].
      right. left. reflexivity.
    + split; [reflexivity|]. split; [left; reflexivity|].
      split; [split; reflexivity|].
      split; [intros fields part H; discriminate H|].
      left. reflexivity.
Qed.

Example storage_failure_reported_as_compression_failure :
  outcome (RoutesV2.compress Fixture.config
             (Sample.storageDown (Fixture.world (Fixture.respond 200 "jpeg"))
                "quota exceeded (Compression failed upstream)")
             (Fixture.request "image/png")) =
  inr (mkReply 500 []
         (Js.Obj [("error", Js.Bool true);
                  ("message", Js.Str "Compression failed");
                  ("details",
                   Js.Str "Supabase upload failed: quota exceeded (Compression failed upstream)");
                  ("code", Js.Str "COMPRESSION_ERROR")])).
Proof. reflexivity. Qed.

Example padded_and_signed_qualities :
  map (fun q => parseQuality (Js.Str q) (Js.Int 80)) ["  42"; "-42"; "+42"]
  = [Js.Int 42; Js.Int 80; Js.Int 42].
Proof. reflexivity. Qed.
